(** * book-companions: the PPTX to HTML converter (src/util/pptx_to_html.py)
      and the image optimizer (src/util/optimize_png.py)

    A shallow embedding of the conversion pipeline: extraction of the
    slide records from the document model, rendering of one shape, one
    slide and the whole document, the command line entry point, with
    Python's exceptions, the log and the image directory made explicit;
    and of the optimizer's per-file step and its batch driver, with the
    image library, the directory walk and the standard output explicit. *)

From Stdlib Require Import ZArith String Ascii List Bool Lia.
From Stdlib Require Import DecimalString DecimalNat DecimalFacts.
From Corelib Require Import SpecFloat.
From stdpp Require Import base option list gmap strings.

Open Scope string_scope.
Open Scope Z_scope.

(** ** Python exceptions *)

Module Py.

(** The exception classes the code can meet.  All of them derive from
    [Exception]; [UnidentifiedImageError] and [FileNotFoundError] derive from
    [OSError], the others do not.  Asynchronous [BaseException]s
    (KeyboardInterrupt, SystemExit) are outside the model. *)
Inductive exn_class : Type :=
  | OSError
  | UnidentifiedImageError
  | FileNotFoundError
  | DecompressionBombError
  | ValueError
  | TypeError
  | AttributeError
  | ZeroDivisionError
  | OverflowError.

Record exn : Type := Exn { exn_cls : exn_class; exn_msg : string }.

(** [isinstance(e, OSError)] *)
Definition is_OSError (e : exn) : bool :=
  match exn_cls e with
  | OSError | UnidentifiedImageError | FileNotFoundError => true
  | _ => false
  end.

(** [isinstance(e, AttributeError)] *)
Definition is_AttributeError (e : exn) : bool :=
  match exn_cls e with
  | AttributeError => true
  | _ => false
  end.

(** The result of evaluating an expression: a value or a raised exception. *)
Inductive outcome (A : Type) : Type :=
  | Ret (a : A)
  | Raise (e : exn).
Arguments Ret {A} a.
Arguments Raise {A} e.

(** ** The world the code acts on: the files it writes (the images and
    the document) and the records it sends to [logging]. *)

Inductive log_level : Type := INFO | WARNING | ERROR.

Record world : Type := World {
  files : gmap string string;
  log : list (log_level * string)
}.

Definition M (A : Type) : Type := world -> outcome A * world.

Definition ret {A} (a : A) : M A := fun w => (Ret a, w).
Definition raise {A} (e : exn) : M A := fun w => (Raise e, w).
Definition bind {A B} (m : M A) (k : A -> M B) : M B :=
  fun w => match m w with
           | (Ret a, w') => k a w'
           | (Raise e, w') => (Raise e, w')
           end.
Definition lift {A} (o : outcome A) : M A := fun w => (o, w).

(** [try: m  except <class matched by handles> as e: h e] *)
Definition try_except {A} (m : M A) (handles : exn -> bool) (h : exn -> M A) : M A :=
  fun w => match m w with
           | (Ret a, w') => (Ret a, w')
           | (Raise e, w') => if handles e then h e w' else (Raise e, w')
           end.

Definition logging (lvl : log_level) (msg : string) : M unit :=
  fun w => (Ret tt, World (files w) (log w ++ [(lvl, msg)])).

Definition write_file (path data : string) : M unit :=
  fun w => (Ret tt, World (<[path := data]> (files w)) (log w)).

(** What an operation that writes a file did ([img.save], or [open] and
    [write]): it wrote the file and gives [a], or it raised [e], leaving the
    path as it was ([None]: the file could not be opened, or was removed
    again) or with what it got to write of it ([Some], the empty text for a
    file that was only created or truncated). *)
Inductive written (A : Type) : Type :=
  | Written (a : A)
  | Failed (e : exn) (left_behind : option string).
Arguments Written {A} a.
Arguments Failed {A} e left_behind.

Definition fail_writing {A} (path : string) (e : exn) (left_behind : option string) : M A :=
  match left_behind with
  | None => raise e
  | Some part => bind (write_file path part) (fun _ => raise e)
  end.

(** A list comprehension whose element expression can raise: the elements
    are evaluated from left to right and the first exception ends it. *)
Fixpoint mapM {A B} (f : A -> M B) (l : list A) : M (list B) :=
  match l with
  | [] => ret []
  | x :: l' => bind (f x) (fun y => bind (mapM f l') (fun ys => ret (y :: ys)))
  end.

End Py.
Import Py.

Notation "'let*' x ':=' m 'in' k" := (bind m (fun x => k))
  (at level 10, x name, m at level 100, k at level 200).
Notation "'run*' m 'in' k" := (bind m (fun _ => k))
  (at level 10, m at level 100, k at level 200).

(** ** Numbers and their text *)

(** [str(n)] of a Python int. *)
Definition str_int (n : Z) : string := NilZero.string_of_int (Z.to_int n).

Definition str_nat (n : nat) : string := NilZero.string_of_uint (Nat.to_uint n).

(** One lowercase hexadecimal digit. *)
Definition hex_digit (n : N) : ascii :=
  match n with
  | 0%N => "0" | 1%N => "1" | 2%N => "2" | 3%N => "3"
  | 4%N => "4" | 5%N => "5" | 6%N => "6" | 7%N => "7"
  | 8%N => "8" | 9%N => "9" | 10%N => "a" | 11%N => "b"
  | 12%N => "c" | 13%N => "d" | 14%N => "e" | _ => "f"
  end%char.

(** One component of an [RGBColor] under the format ["{:02x}"]: the type holds
    integers from 0 to 255 only, so the text has two digits. *)
Definition format_02x (b : Byte.byte) : string :=
  let n := Byte.to_N b in
  String (hex_digit (n / 16)) (String (hex_digit (n mod 16)) "").

Definition RGBColor : Type := Byte.byte * Byte.byte * Byte.byte.

(** [rgb_to_hex], the module-level function (line 42). *)
Definition rgb_to_hex (rgb : option RGBColor) : option string :=
  match rgb with
  | None => None
  | Some (r, g, b) => Some ("#" ++ format_02x r ++ format_02x g ++ format_02x b)
  end.

(** ** Python floats (IEEE 754 binary64) *)

Module Float.

Definition prec : Z := 53.
Definition emax : Z := 1024.

(** [a / b] on Python ints: the quotient of the two integers rounded once to
    the nearest double, ties to even; [OverflowError] when it is too large for
    a double, signed zero when it underflows. *)
Definition int_true_divide (a b : Z) : outcome spec_float :=
  if b =? 0 then Raise (Exn ZeroDivisionError "division by zero")
  else
    let negate := xorb (a <? 0) (b <? 0) in
    if a =? 0 then Ret (S754_zero negate)
    else
      let '(q, e, l) := SFdiv_core_binary prec emax (Z.abs a) 0 (Z.abs b) 0 in
      match binary_round_aux prec emax negate q e l with
      | S754_infinity _ =>
          Raise (Exn OverflowError "integer division result too large for a float")
      | r => Ret r
      end.

(** [float(n)] of a Python int. *)
Definition of_int (n : Z) : outcome spec_float :=
  match binary_normalize prec emax n 0 false with
  | S754_infinity _ => Raise (Exn OverflowError "int too large to convert to float")
  | r => Ret r
  end.

(** [x * n] with [x] a float and [n] an int: the int is converted first, the
    product never raises (it overflows to an infinity). *)
Definition mul_int (x : spec_float) (n : Z) : outcome spec_float :=
  match of_int n with
  | Ret y => Ret (SFmul prec emax x y)
  | Raise e => Raise e
  end.

(** Truthiness of a float: false for the two zeros only. *)
Definition truthy (x : spec_float) : bool :=
  match x with
  | S754_zero _ => false
  | _ => true
  end.

Definition decimal_digit (n : Z) : ascii :=
  ascii_of_N (48 + Z.to_N n).

(** The integer nearest to [100 * m * 2^e], ties to even: the digits of the
    double [m * 2^e] under the format [.2f], which Python rounds correctly from
    the exact binary value. *)
Definition hundredths (m : positive) (e : Z) : Z :=
  match e with
  | Zneg p =>
      let den := 2 ^ Zpos p in
      let num := 100 * Zpos m in
      let q := num / den in
      let r := num mod den in
      match 2 * r ?= den with
      | Lt => q
      | Gt => q + 1
      | Eq => if Z.even q then q else q + 1
      end
  | _ => 100 * Zpos m * 2 ^ e
  end.

(** A non-negative number of hundredths as [<integer part>.<two digits>]. *)
Definition fixed2 (h : Z) : string :=
  str_int (h / 100) ++
  String "." (String (decimal_digit (h / 10 mod 10)) (String (decimal_digit (h mod 10)) "")).

Definition sign_text (s : bool) : string := if s then "-" else "".

(** [format(x, ".2f")] *)
Definition format_2f (x : spec_float) : string :=
  match x with
  | S754_nan => "nan"
  | S754_infinity s => sign_text s ++ "inf"
  | S754_zero s => sign_text s ++ "0.00"
  | S754_finite s m e => sign_text s ++ fixed2 (hundredths m e)
  end.

End Float.

(** ** The slide records (the dictionaries built by [extract_slide_data],
    after their trip through [json.dumps] and [json.loads]) *)

(** [MSO_SHAPE_TYPE.PICTURE] *)
Definition PICTURE : Z := 13.

Record RunData : Type := {
  text : string;
  font_name : option string;
  font_size : option spec_float;
  bold : option bool;
  italic : option bool;
  color : option string;
  hyperlink : option string
}.

Record ParagraphData : Type := {
  alignment : option Z;
  is_title : bool;
  runs : list RunData
}.

(** The bounds are Python ints (python-pptx's [Emu]).  [fill_color] keeps
    the difference between a key that is absent ([None]) and a key that is
    present and holds [None] ([Some None]): [dict.get] with a default tells
    them apart.  The other keys are always present. *)
Record ShapeData : Type := {
  shape_type : option Z;
  left : Z;
  top : Z;
  width : Z;
  height : Z;
  has_text_frame : bool;
  text_frame : option (list ParagraphData);
  image : option string;
  image_format : option string;
  fill_color : option (option string)
}.

(** Truthiness of an optional string: [None] and [""] are false. *)
Definition str_truthy (s : option string) : bool :=
  match s with
  | Some (String _ _) => true
  | _ => false
  end.

Definition bool_truthy (b : option bool) : bool :=
  match b with
  | Some true => true
  | _ => false
  end.

(** [str(x)] of an optional value. *)
Definition str_opt {A} (show : A -> string) (x : option A) : string :=
  match x with
  | Some a => show a
  | None => "None"
  end.

(** [os.path.join] of two POSIX path components. *)
Definition ends_with_slash (a : string) : bool :=
  match get (Nat.pred (String.length a)) a with
  | Some c => Ascii.eqb c "/"
  | None => false
  end.

Definition path_join (a b : string) : string :=
  match b with
  | String "/" _ => b
  | _ => if (String.length a =? 0)%nat then b
         else if ends_with_slash a then a ++ b
         else a ++ "/" ++ b
  end.

(** ** Rendering *)

Section Render.

(** [str(x)] of a float, as Python prints a font size. *)
Variable float_str : spec_float -> string.

(** [base64.b64decode]. *)
Variable b64decode : string -> outcome string.

(** Pillow: [Image.open(BytesIO(image_bytes))] followed by
    [img.save(image_path, "PNG")], from the image bytes and the path to the
    bytes of the PNG file it writes, or the exception either step raises and
    what a failed save leaves at the path. *)
Variable pil_png : string -> string -> written string.

(** One axis of the position box: [f"{(value / reference) * 100:.2f}%"]. *)
Definition percent (value reference : Z) : outcome string :=
  match Float.int_true_divide value reference with
  | Raise e => Raise e
  | Ret x =>
      match Float.mul_int x 100 with
      | Raise e => Raise e
      | Ret y => Ret (Float.format_2f y ++ "%")
      end
  end.

Definition common_style (shape_data : ShapeData) : M string :=
  let* left_percent := lift (percent (left shape_data) 9144000) in
  let* top_percent := lift (percent (top shape_data) 6858000) in
  let* width_percent := lift (percent (width shape_data) 9144000) in
  let* height_percent := lift (percent (height shape_data) 6858000) in
  ret ("left:" ++ left_percent ++ ";top:" ++ top_percent ++
       ";width:" ++ width_percent ++ ";height:" ++ height_percent ++ ";").

Definition image_filename (slide_index shape_index : nat) : string :=
  "slide_" ++ str_nat (slide_index + 1) ++ "_image_" ++ str_nat (shape_index + 1) ++ ".png".

Definition img_tag (filename style : string) : string :=
  "<img src='images/" ++ filename ++ "' class='absolute object-contain' style='" ++ style ++ "'/>".

Definition image_failed_text (slide_index shape_index : nat) : string :=
  "<p>[Image processing failed for slide " ++ str_nat (slide_index + 1) ++
  ", shape " ++ str_nat (shape_index + 1) ++ "]</p>".

Definition image_failed_warning (slide_index shape_index : nat) (e : exn) : string :=
  "Failed to process image on slide " ++ str_nat (slide_index + 1) ++
  ", shape " ++ str_nat (shape_index + 1) ++ ": " ++ exn_msg e.

(** The picture branch (lines 93 to 107).  [None] stands for the fall through
    to the final [return] of the [<img>] element, [Some] for the early
    [return] of the handler. *)
Definition save_image (shape_index : nat) (shape_data : ShapeData)
    (image_dir : string) (slide_index : nat) (filename : string) : M (option string) :=
  let* image_bytes :=
    lift (match image shape_data with
          | None => Raise (Exn TypeError "argument should be a bytes-like object or ASCII string, not 'NoneType'")
          | Some s => b64decode s
          end) in
  let image_path := path_join image_dir filename in
  try_except
    (match pil_png image_bytes image_path with
     | Written png => run* write_file image_path png in ret None
     | Failed e left_behind => fail_writing image_path e left_behind
     end)
    is_OSError
    (fun e =>
       run* logging WARNING (image_failed_warning slide_index shape_index e) in
       ret (Some (image_failed_text slide_index shape_index))).

(** The style of one run (lines 115 to 119), piece by piece. *)
Definition font_family_decl (run : RunData) : string :=
  "font-family: " ++ str_opt id (font_name run) ++ "; ".

Definition font_size_decl (run : RunData) : string :=
  match font_size run with
  | Some sz => if Float.truthy sz then "font-size: " ++ float_str sz ++ "pt; " else ""
  | None => ""
  end.

Definition font_weight_decl (run : RunData) : string :=
  if bool_truthy (bold run) then "font-weight: bold; " else "".

Definition font_style_decl (run : RunData) : string :=
  if bool_truthy (italic run) then "font-style: italic; " else "".

Definition color_decl (run : RunData) : string :=
  if str_truthy (color run) then "color: " ++ str_opt id (color run) ++ "; " else "".

Definition run_style (run : RunData) : string :=
  font_family_decl run ++ font_size_decl run ++ font_weight_decl run ++
  font_style_decl run ++ color_decl run.

Definition render_run (run : RunData) : string :=
  if str_truthy (hyperlink run)
  then "<a href='" ++ str_opt id (hyperlink run) ++ "' style='" ++ run_style run ++ "'>" ++
       text run ++ "</a>"
  else "<span style='" ++ run_style run ++ "'>" ++ text run ++ "</span>".

(** The loop over the runs: [para_content += ...]. *)
Definition para_content (paragraph : ParagraphData) : string :=
  fold_left (fun acc run => acc ++ render_run run) (runs paragraph) "".

Definition render_paragraph (paragraph : ParagraphData) : string :=
  let para_style := "text-align: " ++ str_opt str_int (alignment paragraph) ++ ";" in
  if is_title paragraph
  then "<h1 class='title' style='" ++ para_style ++ "'>" ++ para_content paragraph ++ "</h1>"
  else "<p class='paragraph' style='" ++ para_style ++ "'>" ++ para_content paragraph ++ "</p>".

Definition text_content (paragraphs : list ParagraphData) : string :=
  fold_left (fun acc paragraph => acc ++ render_paragraph paragraph) paragraphs "".

(** [shape_data.get('fill_color', 'transparent')], then its text in the
    f-string. *)
Definition bg_color (shape_data : ShapeData) : string :=
  "background-color: " ++
  match fill_color shape_data with
  | None => "transparent"
  | Some v => str_opt id v
  end ++ ";".

Definition text_div (style bg content : string) : string :=
  "<div class='absolute flex flex-col items-start justify-start' style='" ++
  style ++ bg ++ "'>" ++ content ++ "</div>".

Definition process_shape_data (shape_index : nat) (shape_data : ShapeData)
    (image_dir : string) (slide_index : nat) (ignore_images : bool) : M string :=
  let* style := common_style shape_data in
  if decide (shape_type shape_data = Some PICTURE) then
    let filename := image_filename slide_index shape_index in
    let* early :=
      (if ignore_images then ret None
       else save_image shape_index shape_data image_dir slide_index filename) in
    match early with
    | Some fragment => ret fragment
    | None => ret (img_tag filename style)
    end
  else if has_text_frame shape_data then
    match text_frame shape_data with
    | None => raise (Exn TypeError "'NoneType' object is not iterable")
    | Some paragraphs =>
        ret (text_div style (bg_color shape_data) (text_content paragraphs))
    end
  else ret "".

(** [process_slide], on the slide record that [json.loads] gives back:
    the fragments of the shapes, in their order, joined. *)
Fixpoint process_shapes (shape_index : nat) (slide_data : list ShapeData)
    (image_dir : string) (slide_index : nat) (ignore_images : bool) : M (list string) :=
  match slide_data with
  | [] => ret []
  | shape_data :: rest =>
      let* fragment := process_shape_data shape_index shape_data image_dir slide_index ignore_images in
      let* fragments := process_shapes (S shape_index) rest image_dir slide_index ignore_images in
      ret (fragment :: fragments)
  end.

Definition process_slide (slide_data : list ShapeData) (image_dir : string)
    (slide_index : nat) (ignore_images : bool) : M string :=
  let* fragments := process_shapes 0 slide_data image_dir slide_index ignore_images in
  ret (String.concat "" fragments).

End Render.

(** ** The document model (python-pptx objects), as the extractor reads it

    An attribute of a live object is the outcome of reading it: a value or
    the exception the read raises. *)

Inductive MSO_FILL : Type :=
  | SOLID | BACKGROUND | GRADIENT | PATTERNED | PICTURE_FILL | TEXTURED | GROUP_FILL.

Record FillFormat : Type := {
  fill_type : outcome (option MSO_FILL);
  fore_color_rgb : outcome (option RGBColor)
}.

(** A [Length]: its integer value (which decides its truth value) and its
    [pt] property. *)
Record Length : Type := { emu : Z; pt : spec_float }.

Record ColorFormat : Type := { rgb : outcome (option RGBColor) }.

Record Hyperlink : Type := { address : outcome (option string) }.

Record Run : Type := {
  run_text : outcome string;
  run_font_name : outcome (option string);
  run_font_size : outcome (option Length);
  run_font_bold : outcome (option bool);
  run_font_italic : outcome (option bool);
  run_font_color : outcome (option ColorFormat);
  run_hyperlink : outcome (option Hyperlink)
}.

Record Paragraph : Type := {
  paragraph_alignment : outcome (option Z);
  paragraph_level : outcome Z;
  paragraph_runs : outcome (list Run)
}.

Record TextFrame : Type := { paragraphs : outcome (list Paragraph) }.

Record Image : Type := { blob : string; ext : string }.

Record Shape : Type := {
  shape_shape_type : option Z;
  shape_left : Z;
  shape_top : Z;
  shape_width : Z;
  shape_height : Z;
  shape_has_text_frame : bool;
  shape_text_frame : TextFrame;
  shape_image : outcome Image;
  shape_fill : outcome FillFormat
}.

Definition Slide : Type := list Shape.
Definition Presentation : Type := list Slide.

(** ** Extraction *)

Definition mso_fill_eqb (a b : MSO_FILL) : bool :=
  match a, b with
  | SOLID, SOLID | BACKGROUND, BACKGROUND | GRADIENT, GRADIENT
  | PATTERNED, PATTERNED | PICTURE_FILL, PICTURE_FILL
  | TEXTURED, TEXTURED | GROUP_FILL, GROUP_FILL => true
  | _, _ => false
  end.

Definition fill_type_is (t : option MSO_FILL) (k : MSO_FILL) : bool :=
  match t with
  | Some t' => mso_fill_eqb t' k
  | None => false
  end.

(** [get_fill_color] (lines 15 to 23).  [hasattr] is false when reading the
    attribute raises [AttributeError] and lets any other exception through. *)
Definition get_fill_color (shape : Shape) : M (option string) :=
  match shape_fill shape with
  | Raise e => if is_AttributeError e then ret None else raise e
  | Ret fill =>
      let* t := lift (fill_type fill) in
      if fill_type_is t SOLID then
        let* c := lift (fore_color_rgb fill) in
        match c with
        | Some _ => let* c' := lift (fore_color_rgb fill) in ret (rgb_to_hex c')
        | None => ret None
        end
      else
        let* t' := lift (fill_type fill) in
        if fill_type_is t' BACKGROUND then ret (Some "transparent")
        else ret None
  end.

(** The [rgb_to_hex] nested in [extract_text_frame] (lines 48 to 52). *)
Definition color_to_hex (color : option ColorFormat) : M (option string) :=
  match color with
  | None => ret None
  | Some c =>
      match rgb c with
      | Raise e => if is_AttributeError e then ret None else raise e
      | Ret _ =>
          let* v := lift (rgb c) in
          match v with
          | None => ret None
          | Some _ => let* v' := lift (rgb c) in ret (rgb_to_hex v')
          end
      end
  end.

Definition extract_run (run : Run) : M RunData :=
  let* t := lift (run_text run) in
  let* name := lift (run_font_name run) in
  let* size := lift (run_font_size run) in
  let* size_pt :=
    match size with
    | Some l =>
        if emu l =? 0 then ret None
        else
          let* size' := lift (run_font_size run) in
          match size' with
          | Some l' => ret (Some (pt l'))
          | None => raise (Exn AttributeError "'NoneType' object has no attribute 'pt'")
          end
    | None => ret None
    end in
  let* b := lift (run_font_bold run) in
  let* i := lift (run_font_italic run) in
  let* c := lift (run_font_color run) in
  let* hex := color_to_hex c in
  let* h := lift (run_hyperlink run) in
  let* link :=
    match h with
    | Some _ =>
        let* h' := lift (run_hyperlink run) in
        match h' with
        | Some l => lift (address l)
        | None => raise (Exn AttributeError "'NoneType' object has no attribute 'address'")
        end
    | None => ret None
    end in
  ret {| text := t; font_name := name; font_size := size_pt; bold := b;
         italic := i; color := hex; hyperlink := link |}.

Definition extract_paragraph (paragraph : Paragraph) : M ParagraphData :=
  let* a := lift (paragraph_alignment paragraph) in
  let* level := lift (paragraph_level paragraph) in
  let* rs := lift (paragraph_runs paragraph) in
  let* rds := mapM extract_run rs in
  ret {| alignment := a; is_title := (level =? 0); runs := rds |}.

Definition extract_warning (e : exn) : string :=
  "Error extracting text frame: " ++ exn_msg e.

(** The comprehension over the paragraphs (lines 55 to 73). *)
Definition read_text_frame (text_frame : TextFrame) : M (list ParagraphData) :=
  let* ps := lift (paragraphs text_frame) in mapM extract_paragraph ps.

(** [extract_text_frame] (lines 47 to 76): [except Exception] takes every
    exception of the model. *)
Definition extract_text_frame (text_frame : TextFrame) : M (list ParagraphData) :=
  try_except
    (read_text_frame text_frame)
    (fun _ => true)
    (fun e => run* logging WARNING (extract_warning e) in ret []).

Section Extract.

(** [base64.b64encode(blob).decode('utf-8')] *)
Variable b64encode : string -> string.

Definition is_picture (shape : Shape) : bool :=
  bool_decide (shape_shape_type shape = Some PICTURE).

(** One dictionary of [extract_slide_data] (lines 27 to 38), its values
    evaluated in the order they are written. *)
Definition extract_shape (shape : Shape) : M ShapeData :=
  let* tf :=
    (if shape_has_text_frame shape
     then let* ps := extract_text_frame (shape_text_frame shape) in ret (Some ps)
     else ret None) in
  let* img :=
    (if is_picture shape
     then let* im := lift (shape_image shape) in ret (Some (b64encode (blob im)))
     else ret None) in
  let* fmt :=
    (if is_picture shape
     then let* im := lift (shape_image shape) in ret (Some (ext im))
     else ret None) in
  let* fc := get_fill_color shape in
  ret {| shape_type := shape_shape_type shape;
         left := shape_left shape;
         top := shape_top shape;
         width := shape_width shape;
         height := shape_height shape;
         has_text_frame := shape_has_text_frame shape;
         text_frame := tf;
         image := img;
         image_format := fmt;
         fill_color := Some fc |}.

Definition extract_slide_data (slide : Slide) : M (list ShapeData) :=
  mapM extract_shape slide.

End Extract.

(** ** The document *)

(** The double quote character. *)
Definition dq : string := String (ascii_of_nat 34) EmptyString.

(** The page template that opens the document (lines 146 to 166). *)
Definition html_head : string :=
  "
    <html>
    <head>
        <meta name=" ++ dq ++
  "viewport" ++ dq ++
  " content=" ++ dq ++
  "width=device-width, initial-scale=1.0" ++ dq ++
  ">
        <script src=" ++ dq ++
  "https://cdn.tailwindcss.com" ++ dq ++
  "></script>
        <style>
            body { margin: 0; padding: 0; }
            .slide-container { max-width: 1024px; margin: 0 auto; padding: 2rem; }
            .slide { position: relative; width: 100%; padding-top: 75%; margin-bottom: 2rem; }
            .slide-content { position: absolute; top: 0; left: 0; right: 0; bottom: 0; }
            .absolute { position: absolute; }
            .paragraph { margin-bottom: 0.5em; }
            .slide-content > div { max-height: none !important; overflow: visible !important; }
            .title { font-size: 1.15em; font-weight: bold; margin-bottom: 0.5em; }
            a { text-decoration: underline; color: blue; }
            a:hover { text-decoration: none; }
        </style>
    </head>
    <body class=" ++ dq ++
  "bg-gray-100" ++ dq ++
  ">
    <div class=" ++ dq ++
  "slide-container" ++ dq ++
  ">
    ".

Definition html_tail : string := "</div></body></html>".

(** The container of one slide (line 184). *)
Definition slide_div (content : string) : string :=
  "<div class=" ++ dq ++ "slide bg-white shadow-lg rounded-lg" ++ dq ++
  "><div class=" ++ dq ++ "slide-content" ++ dq ++ ">" ++ content ++ "</div></div>".

(** [os.path.dirname] of a POSIX path. *)
Fixpoint drop_while {A} (p : A -> bool) (l : list A) : list A :=
  match l with
  | [] => []
  | x :: l' => if p x then drop_while p l' else l
  end.

Definition dirname (p : string) : string :=
  let head_rev := drop_while (fun c => negb (Ascii.eqb c "/")) (rev (list_ascii_of_string p)) in
  let stripped := drop_while (fun c => Ascii.eqb c "/") head_rev in
  string_of_list_ascii (rev (match stripped with [] => head_rev | _ => stripped end)).

(** ** The worker pool

    [Pool.starmap] hands every task to a worker process, stores each result
    at the index of its task as the tasks complete, and returns once all of
    them have completed: the list of the results in the order of the tasks,
    or the first exception that reached it.  The order of completion is
    chosen by a scheduler: at step [j], [sched j] picks among the tasks still
    pending.  Every task is run on its own (chunks of one task). *)

Section Pool.

Context {A B : Type}.

Record pool_state : Type := PoolState {
  results : list (option B);
  failure : option exn
}.

(** [MapResult._set]: a result is stored while no task has failed, and only
    the first exception is kept. *)
Definition complete (i : nat) (o : outcome B) (st : pool_state) : pool_state :=
  match failure st, o with
  | None, Ret b => PoolState (<[i := Some b]> (results st)) None
  | None, Raise e => PoolState (results st) (Some e)
  | Some _, _ => st
  end.

Fixpoint pool_run (f : A -> M B) (sched : nat -> nat) (step n : nat)
    (pending : list (nat * A)) (st : pool_state) : M pool_state :=
  match n with
  | O => ret st
  | S n' =>
      let k := (sched step mod length pending)%nat in
      match pending !! k with
      | None => ret st
      | Some (i, a) =>
          fun w =>
            let (o, w') := f a w in
            pool_run f sched (S step) n' (delete k pending) (complete i o st) w'
      end
  end.

Definition starmap (f : A -> M B) (tasks : list A) (sched : nat -> nat) : M (list B) :=
  let* st := pool_run f sched 0 (length tasks) (imap pair tasks)
               (PoolState (replicate (length tasks) None) None) in
  match failure st with
  | Some e => raise e
  | None => ret (omap id (results st))
  end.

End Pool.

(** ** [pptx_to_html] (lines 138 to 189)

    The presentation is taken as already opened ([Presentation(pptx_file)]),
    the image directory as created and the worker pool as started.  The last
    statement, which writes the document, is not: it can fail. *)

Section Convert.

Variable float_str : spec_float -> string.
Variable b64encode : string -> string.
Variable b64decode : string -> outcome string.
Variable pil_png : string -> string -> written string.

(** The scheduler of the worker pool for this run. *)
Variable sched : nat -> nat.

(** [open(output_file, "w", encoding="utf-8")] followed by
    [f.write(html_content)], from the path and the text: the file is written,
    or the exception either step raises and what is left at the path. *)
Variable write_text : string -> string -> written unit.

Definition slide_task (ignore_images : bool) (args : list ShapeData * string * nat) : M string :=
  let '(slide_data, image_dir, slide_index) := args in
  process_slide float_str b64decode pil_png slide_data image_dir slide_index ignore_images.

Definition render_error (e : exn) : string :=
  "An error occurred during slide processing: " ++ exn_msg e.

(** The [with multiprocessing.Pool()] block (lines 172 to 182). *)
Definition render_slides (slide_data_list : list (list ShapeData)) (image_dir : string)
    (ignore_images : bool) : M (list string) :=
  try_except
    (starmap (slide_task ignore_images)
       (imap (fun idx data => (data, image_dir, idx)) slide_data_list) sched)
    (fun _ => true)
    (fun e => run* logging ERROR (render_error e) in ret []).

Definition assemble (slide_contents : list string) : string :=
  html_head ++ String.concat "" (map slide_div slide_contents) ++ html_tail.

(** The [with open(...) as f] block (lines 188 and 189): nothing catches
    what it raises. *)
Definition write_document (output_file html_content : string) : M unit :=
  match write_text output_file html_content with
  | Written _ => write_file output_file html_content
  | Failed e left_behind => fail_writing output_file e left_behind
  end.

Definition pptx_to_html (pptx_file : string) (prs : Presentation)
    (output_file : string) (ignore_images : bool) : M unit :=
  run* logging INFO ("Opening PowerPoint file: " ++ pptx_file) in
  let output_dir := dirname output_file in
  let image_dir := path_join output_dir "images" in
  run* logging INFO "Extracting slide data..." in
  let* slide_data_list := mapM (extract_slide_data b64encode) prs in
  run* logging INFO "Processing slides..." in
  let* slide_contents := render_slides slide_data_list image_dir ignore_images in
  let html_content := assemble slide_contents in
  run* logging INFO ("Writing HTML content to " ++ output_file) in
  write_document output_file html_content.

End Convert.

(** ** Vocabulary of the properties *)

(** The range of a coordinate of the document format (DrawingML's
    [ST_Coordinate]), in EMU. *)
Definition emu_range (v : Z) : Prop := Z.abs v <= 27273042329600.

Definition bounds_in_range (shape_data : ShapeData) : Prop :=
  emu_range (left shape_data) /\ emu_range (top shape_data) /\
  emu_range (width shape_data) /\ emu_range (height shape_data).

(** [h] hundredths is a correct rounding of the percentage [v / ref * 100] to
    two decimals: it is at distance at most one half from [10000 * |v| / ref]. *)
Definition nearest_hundredths (v ref h : Z) : Prop :=
  0 <= h /\ 2 * Z.abs (h * ref - 10000 * Z.abs v) <= ref.

(** The position box from the texts of its four percentages. *)
Definition position_box (l t w h : string) : string :=
  "left:" ++ l ++ ";top:" ++ t ++ ";width:" ++ w ++ ";height:" ++ h ++ ";".

(** The text of a percentage of [h] hundredths with the sign of [v]. *)
Definition percent_text (v h : Z) : string :=
  (Float.sign_text (v <? 0)%Z ++ Float.fixed2 h) ++ "%".

(** [s] is a decimal numeral of [h] hundredths with exactly two digits after
    the point. *)
Definition two_decimals (h : Z) (s : string) : Prop :=
  exists d1 d2 : Z,
    0 <= d1 <= 9 /\ 0 <= d2 <= 9 /\ h = 100 * (h / 100) + 10 * d1 + d2 /\
    s = str_int (h / 100) ++
        String "." (String (Float.decimal_digit d1) (String (Float.decimal_digit d2) "")).

(** A text made of the digits [0] to [9] and the letters [a] to [f]. *)
Definition lower_hex_char (c : ascii) : bool :=
  (Ascii.leb "0" c && Ascii.leb c "9") || (Ascii.leb "a" c && Ascii.leb c "f").

Fixpoint lower_hex (s : string) : bool :=
  match s with
  | EmptyString => true
  | String c s' => lower_hex_char c && lower_hex s'
  end.

(** [needle] occurs in [hay]. *)
Definition contains (needle hay : string) : Prop :=
  exists pre post : string, hay = pre ++ needle ++ post.

(** A style declares the property [prop] when it holds the text [prop:]. *)
Definition declares (prop style : string) : Prop := contains (prop ++ ":") style.

Fixpoint colon_free (s : string) : bool :=
  match s with
  | EmptyString => true
  | String c s' => negb (Ascii.eqb c ":") && colon_free s'
  end.

(** The values a run puts in its style are plain: none holds a colon. *)
Definition plain_values (float_str : spec_float -> string) (run : RunData) : Prop :=
  colon_free (str_opt id (font_name run)) = true /\
  colon_free (str_opt float_str (font_size run)) = true /\
  colon_free (str_opt id (color run)) = true.

(** The two characters before and the two characters after every colon of a
    string, [hist] being the characters already read, last first. *)
Fixpoint colon_ctx (hist : list ascii) (s : string) : list (list ascii * list ascii) :=
  match s with
  | EmptyString => []
  | String c s' =>
      (if Ascii.eqb c ":" then [(firstn 2 hist, firstn 2 (list_ascii_of_string s'))] else [])
      ++ colon_ctx (c :: hist) s'
  end.

(** The outcome of a computation does not depend on the world it runs in. *)
Definition outcome_fixed {A} (m : M A) (o : outcome A) : Prop :=
  forall w, fst (m w) = o.

(** What the specification asks of the pool when tasks fail: an empty
    fragment in place of each failed slide, the others kept. *)
Definition isolated_contents (outcomes : list (outcome string)) : list string :=
  map (fun o => match o with Ret s => s | Raise _ => "" end) outcomes.

(** A shape of the document whose text frame cannot be read is replaced by
    the same shape with no paragraph. *)
Definition with_empty_text_frame (shape : Shape) : Shape :=
  {| shape_shape_type := shape_shape_type shape;
     shape_left := shape_left shape;
     shape_top := shape_top shape;
     shape_width := shape_width shape;
     shape_height := shape_height shape;
     shape_has_text_frame := shape_has_text_frame shape;
     shape_text_frame := {| paragraphs := Ret [] |};
     shape_image := shape_image shape;
     shape_fill := shape_fill shape |}.

(** A shape of the document with another fill. *)
Definition with_fill (shape : Shape) (fill : outcome FillFormat) : Shape :=
  {| shape_shape_type := shape_shape_type shape;
     shape_left := shape_left shape;
     shape_top := shape_top shape;
     shape_width := shape_width shape;
     shape_height := shape_height shape;
     shape_has_text_frame := shape_has_text_frame shape;
     shape_text_frame := shape_text_frame shape;
     shape_image := shape_image shape;
     shape_fill := fill |}.

Definition fill_object (t : option MSO_FILL) (c : option RGBColor) : outcome FillFormat :=
  Ret {| fill_type := Ret t; fore_color_rgb := Ret c |}.

(** The same record without its text and its fill. *)
Definition without_text_and_fill (shape_data : ShapeData) : ShapeData :=
  {| shape_type := shape_type shape_data;
     left := left shape_data;
     top := top shape_data;
     width := width shape_data;
     height := height shape_data;
     has_text_frame := false;
     text_frame := None;
     image := image shape_data;
     image_format := image_format shape_data;
     fill_color := None |}.



(** The position box of a shape is made of the four percentages, each one
    printed with two decimals and correctly rounded, and it is the style that
    positions the fragment of the shape, text frame or picture. *)
Definition position_box_rounded (shape_data : ShapeData) : Prop :=
  exists hl ht hw hh : Z,
    let box :=
      position_box (percent_text (left shape_data) hl) (percent_text (top shape_data) ht)
                   (percent_text (width shape_data) hw) (percent_text (height shape_data) hh) in
    (forall w, common_style shape_data w = (Ret box, w)) /\
    (nearest_hundredths (left shape_data) 9144000 hl /\ two_decimals hl (Float.fixed2 hl)) /\
    (nearest_hundredths (top shape_data) 6858000 ht /\ two_decimals ht (Float.fixed2 ht)) /\
    (nearest_hundredths (width shape_data) 9144000 hw /\ two_decimals hw (Float.fixed2 hw)) /\
    (nearest_hundredths (height shape_data) 6858000 hh /\ two_decimals hh (Float.fixed2 hh)) /\
    (forall float_str b64decode pil_png shape_index image_dir slide_index ignore_images
            paragraphs w,
       shape_type shape_data <> Some PICTURE ->
       has_text_frame shape_data = true ->
       text_frame shape_data = Some paragraphs ->
       process_shape_data float_str b64decode pil_png shape_index shape_data image_dir
         slide_index ignore_images w =
         (Ret (text_div box (bg_color shape_data) (text_content float_str paragraphs)), w)) /\
    (forall float_str b64decode pil_png shape_index image_dir slide_index w,
       shape_type shape_data = Some PICTURE ->
       process_shape_data float_str b64decode pil_png shape_index shape_data image_dir
         slide_index true w =
         (Ret (img_tag (image_filename slide_index shape_index) box), w)).

(** What the style of a run holds, for the properties that are optional. *)
Definition run_style_spec (float_str : spec_float -> string) (run : RunData) : Prop :=
  let style := run_style float_str run in
  (contains "font-weight: bold;" style <-> bold run = Some true) /\
  (declares "font-weight" style <-> bold run = Some true) /\
  (contains "font-style: italic;" style <-> italic run = Some true) /\
  (declares "font-style" style <-> italic run = Some true) /\
  (declares "color" style <-> str_truthy (color run) = true) /\
  ~ contains "font-weight: normal" style /\
  ~ contains "font-style: normal" style.

(** The colons of a run style and what stands around each of them. *)
Definition style_colon_ok (run : RunData) (p : list ascii * list ascii) : Prop :=
  fst p = ["y"; "l"]%char \/
  fst p = ["e"; "z"]%char \/
  (p = (["t"; "h"], [" "; "b"])%char /\ bold run = Some true) \/
  (p = (["e"; "l"], [" "; "i"])%char /\ italic run = Some true) \/
  (fst p = ["r"; "o"]%char /\ str_truthy (color run) = true).

(** What the renderer does with a picture: the name of its file, the
    [<img>] element when image files are not written, and the same element
    with the file written when they are. *)
Definition picture_img_spec (float_str : spec_float -> string)
    (b64decode : string -> outcome string) (pil_png : string -> string -> written string)
    (shape_index : nat) (shape_data : ShapeData) (image_dir : string) (slide_index : nat) : Prop :=
  exists style : string,
    (forall w, common_style shape_data w = (Ret style, w)) /\
    image_filename slide_index shape_index =
      "slide_" ++ str_nat (slide_index + 1) ++ "_image_" ++ str_nat (shape_index + 1) ++ ".png" /\
    (forall w,
       process_shape_data float_str b64decode pil_png shape_index shape_data image_dir slide_index true w =
         (Ret (img_tag (image_filename slide_index shape_index) style), w)) /\
    (forall b64 image_bytes png w,
       image shape_data = Some b64 ->
       b64decode b64 = Ret image_bytes ->
       pil_png image_bytes (path_join image_dir (image_filename slide_index shape_index)) =
         Written png ->
       process_shape_data float_str b64decode pil_png shape_index shape_data image_dir slide_index false w =
         (Ret (img_tag (image_filename slide_index shape_index) style),
          World (<[path_join image_dir (image_filename slide_index shape_index) := png]> (files w))
                (log w))).

(** The files after an attempt to write [path] that failed and left
    [left_behind] there. *)
Definition left_on_disk (path : string) (left_behind : option string) (w : world) :
    gmap string string :=
  match left_behind with
  | None => files w
  | Some part => <[path := part]> (files w)
  end.

(** What the renderer does with a picture that Pillow fails on with the
    exception [e], an [OSError]: the placeholder, the warning, no file but
    what the failed save has left, and the shapes that follow are rendered. *)
Definition placeholder_spec (float_str : spec_float -> string)
    (b64decode : string -> outcome string) (pil_png : string -> string -> written string)
    (shape_index : nat) (shape_data : ShapeData) (image_dir : string) (slide_index : nat)
    (e : exn) (left_behind : option string) : Prop :=
  let image_path := path_join image_dir (image_filename slide_index shape_index) in
  (forall w,
     process_shape_data float_str b64decode pil_png shape_index shape_data image_dir slide_index false w =
       (Ret (image_failed_text slide_index shape_index),
        World (left_on_disk image_path left_behind w)
              (log w ++ [(WARNING, image_failed_warning slide_index shape_index e)]))) /\
  image_failed_text slide_index shape_index =
    "<p>[Image processing failed for slide " ++ str_nat (slide_index + 1) ++
    ", shape " ++ str_nat (shape_index + 1) ++ "]</p>" /\
  (forall rest w,
     process_shapes float_str b64decode pil_png shape_index (shape_data :: rest)
       image_dir slide_index false w =
     (let* fragments := process_shapes float_str b64decode pil_png (S shape_index) rest
                          image_dir slide_index false in
      ret (image_failed_text slide_index shape_index :: fragments))
       (World (left_on_disk image_path left_behind w)
              (log w ++ [(WARNING, image_failed_warning slide_index shape_index e)]))).

(** What the renderer does with a picture that Pillow fails on with an
    exception [e] that is not an [OSError]: no placeholder and no warning, the
    exception leaves the renderer, and the shapes that follow on the slide are
    not rendered. *)
Definition failure_escapes (float_str : spec_float -> string)
    (b64decode : string -> outcome string) (pil_png : string -> string -> written string)
    (shape_index : nat) (shape_data : ShapeData) (image_dir : string) (slide_index : nat)
    (e : exn) (left_behind : option string) : Prop :=
  let image_path := path_join image_dir (image_filename slide_index shape_index) in
  (forall w,
     process_shape_data float_str b64decode pil_png shape_index shape_data image_dir slide_index false w =
       (Raise e, World (left_on_disk image_path left_behind w) (log w))) /\
  (forall rest w,
     process_shapes float_str b64decode pil_png shape_index (shape_data :: rest)
       image_dir slide_index false w =
       (Raise e, World (left_on_disk image_path left_behind w) (log w))).

(** A computation that only reads: it returns the same outcome in every
    world and leaves the world as it was. *)
Definition effect_free {A} (m : M A) : Prop :=
  exists o, forall w, m w = (o, w).

Definition with_warning (w : world) (e : exn) : world :=
  World (files w) (log w ++ [(WARNING, extract_warning e)]).

(** What the extractor does with a shape whose text frame cannot be read
    (the exception [e] is raised while reading it): the paragraphs become the
    empty list, a warning is logged, and the shape, the rest of its slide and
    the other slides are extracted as if the text frame were empty. *)
Definition text_failure_recovered (b64encode : string -> string)
    (slides_before : list Slide) (shapes_before : list Shape) (shape : Shape)
    (shapes_after : list Shape) (slides_after : list Slide) (e : exn) : Prop :=
  (forall w, extract_text_frame (shape_text_frame shape) w = (Ret [], with_warning w e)) /\
  (forall w, extract_shape b64encode shape w =
             extract_shape b64encode (with_empty_text_frame shape) (with_warning w e)) /\
  (forall w shape_data w',
     extract_shape b64encode shape w = (Ret shape_data, w') ->
     text_frame shape_data = Some []) /\
  (forall w,
     extract_slide_data b64encode (shapes_before ++ shape :: shapes_after)%list w =
     (let* a := extract_slide_data b64encode shapes_before in
      run* logging WARNING (extract_warning e) in
      let* r := extract_shape b64encode (with_empty_text_frame shape) in
      let* b := extract_slide_data b64encode shapes_after in
      ret (a ++ r :: b)%list) w) /\
  (forall w,
     mapM (extract_slide_data b64encode)
          (slides_before ++ (shapes_before ++ shape :: shapes_after) :: slides_after)%list w =
     (let* a := mapM (extract_slide_data b64encode) slides_before in
      let* s := extract_slide_data b64encode (shapes_before ++ shape :: shapes_after)%list in
      let* b := mapM (extract_slide_data b64encode) slides_after in
      ret (a ++ s :: b)%list) w).

(** A computation whose outcome is the same in every world. *)
Definition steady {A} (m : M A) : Prop := exists o, outcome_fixed m o.

(** The world in which the pool starts: the world that [pptx_to_html] is
    called in, after the extraction of the slide records, with the records
    logged up to there. *)
Definition before_rendering (b64encode : string -> string) (pptx_file : string)
    (prs : Presentation) (w : world) : world :=
  let w1 :=
    snd (mapM (extract_slide_data b64encode) prs
           (World (files w)
                  ((log w ++ [(INFO, "Opening PowerPoint file: " ++ pptx_file)]) ++
                   [(INFO, "Extracting slide data...")]))) in
  World (files w1) (log w1 ++ [(INFO, "Processing slides...")]).

(** The run [run] of [pptx_to_html] ends by writing [document] to
    [output_file]: normally, leaving [document] in the file, or, when the file
    cannot be written, with the exception that [open] or [write] raises. *)
Definition ends_writing (write_text : string -> string -> written unit)
    (output_file document : string) (run : outcome unit * world) : Prop :=
  match write_text output_file document with
  | Written _ => fst run = Ret tt /\ files (snd run) !! output_file = Some document
  | Failed e _ => fst run = Raise e
  end.

(** The document that [pptx_to_html] writes to [output_file] is the page
    template around the containers of [contents], in this order. *)
Definition writes_document (float_str : spec_float -> string) (b64encode : string -> string)
    (b64decode : string -> outcome string) (pil_png : string -> string -> written string)
    (sched : nat -> nat) (write_text : string -> string -> written unit)
    (pptx_file : string) (prs : Presentation) (output_file : string)
    (ignore_images : bool) (w : world) (contents : list string) : Prop :=
  ends_writing write_text output_file
    (html_head ++ String.concat "" (map slide_div contents) ++ html_tail)
    (pptx_to_html float_str b64encode b64decode pil_png sched write_text pptx_file prs
       output_file ignore_images w).

(** The same with no slide, and with the error that the pool reported in
    the log. *)
Definition writes_no_slide (float_str : spec_float -> string) (b64encode : string -> string)
    (b64decode : string -> outcome string) (pil_png : string -> string -> written string)
    (sched : nat -> nat) (write_text : string -> string -> written unit)
    (pptx_file : string) (prs : Presentation) (output_file : string)
    (ignore_images : bool) (w : world) : Prop :=
  let run := pptx_to_html float_str b64encode b64decode pil_png sched write_text pptx_file prs
               output_file ignore_images w in
  ends_writing write_text output_file (html_head ++ html_tail) run /\
  exists e', (ERROR, render_error e') ∈ log (snd run).

(** The order in which a scheduler completes the pending tasks. *)
Fixpoint completion_order {A} (sched : nat -> nat) (step n : nat)
    (pending : list (nat * A)) : list (nat * A) :=
  match n with
  | O => []
  | S n' =>
      let k := (sched step mod length pending)%nat in
      match pending !! k with
      | None => []
      | Some task => task :: completion_order sched (S step) n' (delete k pending)
      end
  end.

(** The tasks of a list run one after the other, each result handed to the
    pool as the task ends. *)
Fixpoint run_in_order {A B} (f : A -> M B) (order : list (nat * A))
    (st : @pool_state B) (w : world) : @pool_state B * world :=
  match order with
  | [] => (st, w)
  | (i, a) :: rest => let (o, w') := f a w in run_in_order f rest (complete i o st) w'
  end.

(** ** Sample inputs *)

Module Sample.

Definition w0 : world := World ∅ [].

Definition float_str (x : spec_float) : string := "18.0".
Definition b64encode (s : string) : string := s.
Definition b64decode (s : string) : outcome string := Ret s.

(** Pillow converting every image, refusing every image as unidentified
    (an [OSError]), and refusing every image as too large (not an
    [OSError]). *)
Definition pil_ok (image_bytes image_path : string) : written string := Written image_bytes.

Definition unidentified : exn := Exn UnidentifiedImageError "cannot identify image file".
Definition pil_unidentified (image_bytes image_path : string) : written string :=
  Failed unidentified None.

Definition bomb : exn :=
  Exn DecompressionBombError "Image size exceeds limit, could be decompression bomb DOS attack.".
Definition pil_bomb (image_bytes image_path : string) : written string := Failed bomb None.

(** Pillow failing while it saves, after creating the file, with an
    [OSError]. *)
Definition truncated : exn := Exn OSError "image file is truncated (0 bytes not processed)".
Definition pil_truncated (image_bytes image_path : string) : written string :=
  Failed truncated (Some "").

(** The file system taking every document, and refusing every document
    because the directory of the path does not exist. *)
Definition fs_ok (path data : string) : written unit := Written tt.

Definition no_directory (path : string) : exn :=
  Exn FileNotFoundError ("[Errno 2] No such file or directory: '" ++ path ++ "'").
Definition fs_missing (path data : string) : written unit := Failed (no_directory path) None.

(** The scheduler that completes the last pending task first, for three
    tasks, and the one that completes the tasks in their order. *)
Definition last_first (step : nat) : nat := (2 - step)%nat.
Definition first_first (step : nat) : nat := 0%nat.

Definition bold_run : RunData :=
  {| text := "Hello"; font_name := None; font_size := None; bold := Some true;
     italic := Some false; color := None; hyperlink := None |}.

(** A run whose font name spells declarations of its own. *)
Definition spelled_run : RunData :=
  {| text := "plain"; font_name := Some "x; font-weight: bold; font-style: italic; color: red";
     font_size := None; bold := Some false; italic := None; color := None; hyperlink := None |}.

Definition bare_run : RunData :=
  {| text := "plain"; font_name := None; font_size := None; bold := None;
     italic := None; color := None; hyperlink := None |}.

Definition title : ParagraphData :=
  {| alignment := None; is_title := true; runs := [bold_run] |}.

Definition text_shape (fill : option (option string)) : ShapeData :=
  {| shape_type := Some 17; left := 0; top := 0; width := 9144000; height := 6858000;
     has_text_frame := true; text_frame := Some [title];
     image := None; image_format := None; fill_color := fill |}.

(** A picture record that also carries a text frame and a fill color. *)
Definition picture (l : Z) : ShapeData :=
  {| shape_type := Some PICTURE; left := l; top := 685800; width := 4572000; height := 3429000;
     has_text_frame := true; text_frame := Some [title];
     image := Some "iVBORw0KGgo="; image_format := Some "png"; fill_color := Some (Some "#00ff00") |}.

(** Objects of the document model. *)
Definition broken_frame : TextFrame :=
  {| paragraphs := Raise (Exn ValueError "malformed paragraph properties") |}.

Definition empty_frame : TextFrame := {| paragraphs := Ret [] |}.

Definition text_box (tf : TextFrame) (fill : outcome FillFormat) : Shape :=
  {| shape_shape_type := Some 17; shape_left := 0; shape_top := 0;
     shape_width := 9144000; shape_height := 6858000;
     shape_has_text_frame := true; shape_text_frame := tf;
     shape_image := Raise (Exn AttributeError "'Shape' object has no attribute 'image'");
     shape_fill := fill |}.

Definition plain_box : Shape := text_box empty_frame (fill_object (Some BACKGROUND) None).
Definition gradient_box : Shape := text_box empty_frame (fill_object (Some GRADIENT) None).
Definition broken_box : Shape := text_box broken_frame (fill_object None None).

(** A picture of the document: it has an image and no fill. *)
Definition photo : Shape :=
  {| shape_shape_type := Some PICTURE; shape_left := 914400; shape_top := 685800;
     shape_width := 4572000; shape_height := 3429000;
     shape_has_text_frame := false; shape_text_frame := empty_frame;
     shape_image := Ret {| blob := "iVBORw0KGgo="; ext := "png" |};
     shape_fill := Raise (Exn AttributeError "'Picture' object has no attribute 'fill'") |}.

Definition three_photos : Presentation := [[photo]; [photo]; [photo]].

Definition text_then_photo : Presentation := [[plain_box]; [photo]].

(** The slide records of a presentation. *)
Definition records (prs : Presentation) : list (list ShapeData) :=
  match fst (mapM (extract_slide_data b64encode) prs w0) with
  | Ret l => l
  | Raise _ => []
  end.

(** The empty text frame of [plain_box], rendered. *)
Definition plain_div : string :=
  text_div "left:0.00%;top:0.00%;width:100.00%;height:100.00%;"
    "background-color: transparent;" "".

End Sample.

(** A decimal digit, and a text made of decimal digits. *)
Definition is_digit (c : ascii) : bool :=
  Ascii.leb "0" c && Ascii.leb c "9".

Fixpoint digits_only (s : string) : bool :=
  match s with
  | EmptyString => true
  | String c s' => is_digit c && digits_only s'
  end.

(** The text does not go on with a digit. *)
Definition no_digit_ahead (s : string) : bool :=
  match s with
  | EmptyString => true
  | String c _ => negb (is_digit c)
  end.

Fixpoint slash_free (s : string) : bool :=
  match s with
  | EmptyString => true
  | String c s' => negb (Ascii.eqb c "/") && slash_free s'
  end.

(** The computation leaves the file at [path] as it was (absent, or with
    the same contents). *)
Definition keeps_file {A} (path : string) (m : M A) : Prop :=
  forall w, files (snd (m w)) !! path = files w !! path.

(** Every slide of the list is rendered, and [contents] holds the
    fragments in the order of the slides. *)
Definition all_rendered (float_str : spec_float -> string) (b64decode : string -> outcome string)
    (pil_png : string -> string -> written string) (slide_data_list : list (list ShapeData))
    (image_dir : string) (ignore_images : bool) (contents : list string) : Prop :=
  length contents = length slide_data_list /\
  forall i data, slide_data_list !! i = Some data ->
    exists c, contents !! i = Some c /\
      outcome_fixed (process_slide float_str b64decode pil_png data image_dir i ignore_images)
                    (Ret c).

(** The rendering of one slide of the list raises. *)
Definition some_slide_fails (float_str : spec_float -> string)
    (b64decode : string -> outcome string) (pil_png : string -> string -> written string)
    (slide_data_list : list (list ShapeData)) (image_dir : string) (ignore_images : bool) : Prop :=
  exists i data e, slide_data_list !! i = Some data /\
    outcome_fixed (process_slide float_str b64decode pil_png data image_dir i ignore_images)
                  (Raise e).

(** ** The command line (lines 191 to 204)

    The arguments as [argparse] returns them.  [basicConfig] sets the level
    of the log to DEBUG or INFO; every record of this module is at INFO or
    above, so both levels let all of them through. *)
Module Cli.

Record Namespace : Type := {
  input : string;
  output : string;
  verbose : bool;
  ignore_images : bool
}.

Section Main.

Variable float_str : spec_float -> string.
Variable b64encode : string -> string.
Variable b64decode : string -> outcome string.
Variable pil_png : string -> string -> written string.
Variable sched : nat -> nat.
Variable write_text : string -> string -> written unit.

(** [prs] is the presentation stored in the file [input args]. *)
Definition main (args : Namespace) (prs : Presentation) : M unit :=
  run* logging INFO "Starting PPTX to HTML conversion" in
  run* pptx_to_html float_str b64encode b64decode pil_png sched write_text
         (input args) prs (output args) (ignore_images args) in
  logging INFO ("Conversion complete. HTML file saved as " ++ output args).

End Main.

End Cli.

(** ** More sample inputs *)

Module Cases.

(** A solid fill whose color is a theme color: python-pptx has no [rgb]
    for it and raises on the read. *)
Definition no_rgb : exn :=
  Exn AttributeError "no .rgb property on color type '_SchemeColor'".

Definition theme_fill : outcome FillFormat :=
  Ret {| fill_type := Ret (Some SOLID); fore_color_rgb := Raise no_rgb |}.

Definition theme_box : Shape := Sample.text_box Sample.empty_frame theme_fill.

(** Two slides, a text box with a theme color on the second. *)
Definition themed : Presentation := [[Sample.plain_box]; [theme_box]].

Definition args : Cli.Namespace :=
  {| Cli.input := "deck.pptx"; Cli.output := "out/deck.html";
     Cli.verbose := false; Cli.ignore_images := false |}.

(** A text box that cannot be read and a picture on the first slide, a
    picture on the second; and the scheduler that completes the second of two
    tasks first. *)
Definition rough : Presentation := [[Sample.broken_box; Sample.photo]; [Sample.photo]].

Definition second_first (step : nat) : nat := 1%nat.

(** Two pictures on the first slide and one on the second, with Pillow
    failing with an [OSError] on the first picture of the first slide and
    refusing every other picture as a decompression bomb. *)
Definition crowded : Presentation := [[Sample.photo; Sample.photo]; [Sample.photo]].

Definition pil_mixed (image_bytes image_path : string) : written string :=
  if String.eqb image_path "out/images/slide_1_image_1.png"
  then Failed Sample.unidentified None
  else Failed Sample.bomb None.

End Cases.

(** The value of a hexadecimal digit, and the byte that two of them
    write. *)
Definition hex_value (c : ascii) : N :=
  let n := N_of_ascii c in
  if (n <? 58)%N then (n - 48)%N else (n - 87)%N.

Definition parse_02x (s : string) : option Byte.byte :=
  match s with
  | String c1 (String c2 rest) => Byte.of_N (16 * hex_value c1 + hex_value c2)
  | _ => None
  end.

(** The record of a run reports the run: its text, font name, weight and
    slant as read, its size in points unless the size is absent or zero, its
    color as [#rrggbb] when the color has an RGB value, the address of its
    hyperlink. *)
Definition run_reported (run : Run) (run_data : RunData) : Prop :=
  run_text run = Ret (text run_data) /\
  run_font_name run = Ret (font_name run_data) /\
  run_font_bold run = Ret (bold run_data) /\
  run_font_italic run = Ret (italic run_data) /\
  match run_font_size run with
  | Ret None => font_size run_data = None
  | Ret (Some l) => font_size run_data = if emu l =? 0 then None else Some (pt l)
  | Raise _ => False
  end /\
  match run_font_color run with
  | Ret None => color run_data = None
  | Ret (Some c) =>
      match rgb c with
      | Ret v => color run_data = rgb_to_hex v
      | Raise e => is_AttributeError e = true /\ color run_data = None
      end
  | Raise _ => False
  end /\
  match run_hyperlink run with
  | Ret None => hyperlink run_data = None
  | Ret (Some h) => address h = Ret (hyperlink run_data)
  | Raise _ => False
  end.

Definition paragraph_reported (paragraph : Paragraph) (paragraph_data : ParagraphData) : Prop :=
  paragraph_alignment paragraph = Ret (alignment paragraph_data) /\
  (exists level, paragraph_level paragraph = Ret level /\
                 is_title paragraph_data = (level =? 0)) /\
  exists rs, paragraph_runs paragraph = Ret rs /\
             Forall2 run_reported rs (runs paragraph_data).

(** The record of a shape has what the renderer reads in it: the bounds
    of the shape, a list of paragraphs exactly when the shape has a text
    frame, the image and its format exactly when the shape is a picture, and
    the key of the fill color. *)
Definition record_of (b64encode : string -> string) (shape : Shape) (shape_data : ShapeData) : Prop :=
  shape_type shape_data = shape_shape_type shape /\
  left shape_data = shape_left shape /\
  top shape_data = shape_top shape /\
  width shape_data = shape_width shape /\
  height shape_data = shape_height shape /\
  has_text_frame shape_data = shape_has_text_frame shape /\
  (is_Some (text_frame shape_data) <-> has_text_frame shape_data = true) /\
  (if decide (shape_type shape_data = Some PICTURE)
   then exists im, shape_image shape = Ret im /\
                   image shape_data = Some (b64encode (blob im)) /\
                   image_format shape_data = Some (ext im)
   else image shape_data = None /\ image_format shape_data = None) /\
  is_Some (fill_color shape_data).

Definition shape_in_range (shape : Shape) : Prop :=
  emu_range (shape_left shape) /\ emu_range (shape_top shape) /\
  emu_range (shape_width shape) /\ emu_range (shape_height shape).

(** The run has a size that counts as true: it is present and not zero. *)
Definition sized (run : RunData) : Prop :=
  exists sz, font_size run = Some sz /\ Float.truthy sz = true.

(** The colon of a [font-size] declaration stands in the style of a sized
    run only. *)
Definition size_colon_ok (run : RunData) (p : list ascii * list ascii) : Prop :=
  fst p = ["e"; "z"]%char -> sized run.

Module Text.

(** 18.0, the size in points of a run of 228600 EMU. *)
Definition eighteen : spec_float := S754_finite false 5066549580791808 (-48).

Definition sized_run : RunData :=
  {| text := "<b>Tom & Jerry</b>"; font_name := Some "Arial"; font_size := Some eighteen;
     bold := None; italic := None; color := Some "#ff0000";
     hyperlink := Some "https://example.org/?a=1&b='2'" |}.

Definition zero_run : RunData :=
  {| text := "small print"; font_name := Some "Arial"; font_size := Some (S754_zero false);
     bold := None; italic := None; color := None; hyperlink := Some "" |}.

Definition markup_shape : ShapeData :=
  {| shape_type := Some 17; left := 0; top := 0; width := 9144000; height := 6858000;
     has_text_frame := true;
     text_frame := Some [{| alignment := Some 2; is_title := false;
                           runs := [zero_run; sized_run] |}];
     image := None; image_format := None; fill_color := Some (Some "transparent") |}.

End Text.

(** The tasks of the pool for the slide records (line 176). *)
Definition slide_tasks (slide_data_list : list (list ShapeData)) (image_dir : string) :
    list (list ShapeData * string * nat) :=
  imap (fun idx data => (data, image_dir, idx)) slide_data_list.

(** The slide of a task is rendered. *)
Definition task_renders (float_str : spec_float -> string) (b64decode : string -> outcome string)
    (pil_png : string -> string -> written string) (ignore_images : bool)
    (task : nat * (list ShapeData * string * nat)) : Prop :=
  exists c, outcome_fixed (slide_task float_str b64decode pil_png ignore_images (snd task)) (Ret c).

Module Race.

(** Pillow refusing every image with an exception that is not an
    [OSError] and that names the file. *)
Definition refused (image_path : string) : exn :=
  Exn ValueError ("cannot write " ++ image_path).

Definition pil_refuses (image_bytes image_path : string) : written string :=
  Failed (refused image_path) None.

End Race.

(** * The image optimizer (src/util/optimize_png.py)

    The optimizer rewrites the PNG files of a folder in place and prints
    what it did.  Its world is the files on disk and the lines printed on
    standard output; Pillow is a parameter. *)

Module OptimizePng.

Record world : Type := World {
  files : gmap string string;
  stdout : list string
}.

Definition M (A : Type) : Type := world -> outcome A * world.

Definition ret {A} (a : A) : M A := fun w => (Ret a, w).
Definition bind {A B} (m : M A) (k : A -> M B) : M B :=
  fun w => match m w with
           | (Ret a, w') => k a w'
           | (Raise e, w') => (Raise e, w')
           end.
Definition lift {A} (o : outcome A) : M A := fun w => (o, w).

(** [try: m  except Exception as e: h e] *)
Definition try_except {A} (m : M A) (h : exn -> M A) : M A :=
  fun w => match m w with
           | (Ret a, w') => (Ret a, w')
           | (Raise e, w') => h e w'
           end.

Definition print (line : string) : M unit :=
  fun w => (Ret tt, World (files w) (stdout w ++ [line])).

(** What [img.save] did: it wrote the bytes of the PNG, or it raised,
    leaving the file as it was ([None]) or with what it had written of it. *)
Inductive saved : Type :=
  | Saved (png : string)
  | Failed (e : exn) (left_behind : option string).

(** [str.lower] on the letters A to Z, and [str.endswith]. *)
Definition lower_char (c : ascii) : ascii :=
  let n := nat_of_ascii c in
  if ((65 <=? n) && (n <=? 90))%nat then ascii_of_nat (n + 32) else c.

Fixpoint lower (s : string) : string :=
  match s with
  | EmptyString => EmptyString
  | String c s' => String (lower_char c) (lower s')
  end.

Fixpoint skip (n : nat) (s : string) : string :=
  match n, s with
  | S n', String _ s' => skip n' s'
  | _, _ => s
  end.

Definition endswith (s suffix : string) : bool :=
  (String.length suffix <=? String.length s)%nat &&
  String.eqb (skip (String.length s - String.length suffix) s) suffix.

(** The line printed for a file that could not be processed, and the
    report that ends the run. *)
Definition error_line (file_path : string) (e : exn) : string :=
  "Error processing " ++ file_path ++ ": " ++ exn_msg e.

Definition report (successful total : nat) : string :=
  "Processed " ++ str_nat successful ++ " out of " ++ str_nat total ++
  " images successfully.".

(** [sum] of a list of booleans. *)
Definition sum (results : list bool) : nat := length (List.filter id results).

(** What [os.walk] lists: the directories under a folder, each with the
    names of its subdirectories and of its files. *)
Definition Walk : Type := list (string * list string * list string).

Section Pillow.

(** An image in memory, and the operations of Pillow that the optimizer
    calls: each gives a new image or raises. *)
Variable Img : Type.
Variable image_open : string -> outcome Img.
Variable mode : Img -> string.
Variable size : Img -> Z * Z.
Variable convert : Img -> string -> outcome Img.
Variable thumbnail : Img -> Z * Z -> outcome Img.
Variable posterize : Img -> Z -> outcome Img.
Variable autocontrast : Img -> outcome Img.

(** [img.save(file_path, "PNG", optimize=True, quality=70, compress_level=9)] *)
Variable save_png : Img -> saved.

(** The file system as [os.walk] and [os.path.isdir] read it. *)
Variable os_walk : string -> Walk.
Variable isdir : string -> bool.

(** [Image.open(file_path)] *)
Definition open (file_path : string) : M Img :=
  fun w => match files w !! file_path with
           | Some bytes => (image_open bytes, w)
           | None => (Raise (Exn FileNotFoundError
                               ("[Errno 2] No such file or directory: '" ++ file_path ++ "'")), w)
           end.

Definition save (img : Img) (file_path : string) : M unit :=
  fun w => match save_png img with
           | Saved png => (Ret tt, World (<[file_path := png]> (files w)) (stdout w))
           | Failed e None => (Raise e, w)
           | Failed e (Some part) => (Raise e, World (<[file_path := part]> (files w)) (stdout w))
           end.

(** [optimize_image] (lines 8 to 28). *)
Definition optimize_image (file_path : string) (threshold : Z) : M bool :=
  try_except
    (bind (open file_path) (fun img =>
     bind (if String.eqb (mode img) "RGBA" then lift (convert img "RGB") else ret img)
          (fun img =>
     bind (if Z.max (fst (size img)) (snd (size img)) >? threshold
           then lift (thumbnail img (threshold, threshold)) else ret img)
          (fun img =>
     bind (lift (posterize img 4)) (fun img =>
     bind (lift (autocontrast img)) (fun img =>
     bind (save img file_path) (fun _ =>
     ret true)))))))
    (fun e =>
       bind (print (error_line file_path e)) (fun _ =>
       ret false)).

(** The next step on a value, or the exception that was raised for it. *)
Definition and_then {A B} (o : outcome A) (k : A -> outcome B) : outcome B :=
  match o with
  | Ret a => k a
  | Raise e => Raise e
  end.

(** The image that [optimize_image] hands to [save] (lines 10 to 21), from
    the bytes of the file: opened, converted to RGB when it has an alpha
    channel, reduced when it is larger than the threshold, posterized to four
    bits and with its contrast stretched; or the exception of the first of
    these steps that raises. *)
Definition prepared (threshold : Z) (bytes : string) : outcome Img :=
  and_then (image_open bytes) (fun img =>
  and_then (if String.eqb (mode img) "RGBA" then convert img "RGB" else Ret img) (fun img =>
  and_then (if Z.max (fst (size img)) (snd (size img)) >? threshold
            then thumbnail img (threshold, threshold) else Ret img) (fun img =>
  and_then (posterize img 4) (fun img =>
  autocontrast img)))).

(** The comprehension of lines 32 to 37. *)
Definition image_files (walk : Walk) : list string :=
  flat_map (fun '(root, _, names) =>
              map (fun file => path_join root file)
                  (List.filter (fun file => endswith (lower file) ".png") names))
           walk.

(** The workers of the executor: the tasks complete in the order of the
    scheduler, and each result is kept at the index of its task. *)
Fixpoint run_workers {A B} (f : A -> M B) (order : list (nat * A))
    (done : list (option (outcome B))) (w : world) : list (option (outcome B)) * world :=
  match order with
  | [] => (done, w)
  | (i, a) :: rest =>
      let (o, w') := f a w in run_workers f rest (<[i := Some o]> done) w'
  end.

(** The results in the order of the tasks, up to the first exception. *)
Fixpoint collect {B} (done : list (option (outcome B))) : outcome (list B) :=
  match done with
  | [] => Ret []
  | Some (Raise e) :: _ => Raise e
  | Some (Ret b) :: rest =>
      match collect rest with
      | Ret bs => Ret (b :: bs)
      | Raise e => Raise e
      end
  | None :: rest => collect rest
  end.

(** [list(executor.map(f, tasks))].  A task that raised would also cancel
    the tasks not started yet; [optimize_image] never raises. *)
Definition executor_map {A B} (f : A -> M B) (tasks : list A) (sched : nat -> nat) : M (list B) :=
  fun w =>
    let (done, w') :=
      run_workers f (completion_order sched 0 (length tasks) (imap pair tasks))
        (replicate (length tasks) None) w in
    (collect done, w').

(** [process_images] (lines 31 to 51). *)
Definition process_images (input_folder : string) (threshold : Z) (sched : nat -> nat) : M unit :=
  let paths := image_files (os_walk input_folder) in
  bind (executor_map (fun task => optimize_image (fst task) (snd task))
          (map (fun file => (file, threshold)) paths) sched)
       (fun results =>
  let successful := sum results in
  print (report successful (length paths))).

(** [main] (lines 54 to 72), from the parsed arguments. *)
Definition main (input_folder : string) (threshold : Z) (sched : nat -> nat) : M unit :=
  if negb (isdir input_folder)
  then print ("Error: " ++ input_folder ++ " is not a valid directory")
  else process_images input_folder threshold sched.

End Pillow.

End OptimizePng.

(** The result of a task that ended with [False], and their number among
    the results kept so far. *)
Definition is_failure (x : option (outcome bool)) : bool :=
  match x with
  | Some (Ret false) => true
  | _ => false
  end.

Definition failures (done : list (option (outcome bool))) : nat :=
  length (List.filter is_failure done).

(** A task that has not ended yet or that ended with a value: no
    exception is kept for it. *)
Definition no_exception {B} (x : option (outcome B)) : Prop :=
  x = None \/ exists b, x = Some (Ret b).

Definition returned {B} (x : option (outcome B)) : Prop :=
  exists b, x = Some (Ret b).

(** The computation only adds records to the log, and each record it adds
    is one of [P]. *)
Definition logs {A} (P : log_level * string -> Prop) (m : M A) : Prop :=
  forall w, exists l, log (snd (m w)) = (log w ++ l)%list /\ Forall P l.

(** A record of the rendering: the warning of a picture that Pillow fails
    on. *)
Definition rendering_record (r : log_level * string) : Prop :=
  exists i j e, r = (WARNING, image_failed_warning i j e).

(** The text of a fill color: absent, [transparent], or [#rrggbb]. *)
Definition fill_text (c : option string) : Prop :=
  c = None \/ c = Some "transparent" \/
  exists r g b : Byte.byte, c = Some ("#" ++ format_02x r ++ format_02x g ++ format_02x b).

(** The computation, when it returns, has added the records [l] to the
    log, no more and no less. *)
Definition logs_exactly {A} (l : list (log_level * string)) (m : M A) : Prop :=
  forall w a w', m w = (Ret a, w') -> log w' = (log w ++ l)%list.

(** The warning that the extraction logs for a shape: one, when the shape
    has a text frame that cannot be read. *)
Definition frame_warning (shape : Shape) : list (log_level * string) :=
  if shape_has_text_frame shape then
    match fst (read_text_frame (shape_text_frame shape) (World ∅ [])) with
    | Raise e => [(WARNING, extract_warning e)]
    | Ret _ => []
    end
  else [].

Definition frame_warnings (prs : Presentation) : list (log_level * string) :=
  flat_map (flat_map frame_warning) prs.

(** The warning that the renderer logs for a shape: one, when the shape is
    a picture whose file is to be written and Pillow fails on it with an
    [OSError]. *)
Definition picture_warning (b64decode : string -> outcome string)
    (pil_png : string -> string -> written string) (image_dir : string) (slide_index : nat)
    (ignore_images : bool) (shape_index : nat) (shape_data : ShapeData) :
    list (log_level * string) :=
  if decide (shape_type shape_data = Some PICTURE) then
    if ignore_images then []
    else
      match image shape_data with
      | Some b64 =>
          match b64decode b64 with
          | Ret image_bytes =>
              match pil_png image_bytes
                      (path_join image_dir (image_filename slide_index shape_index)) with
              | Failed e _ =>
                  if is_OSError e
                  then [(WARNING, image_failed_warning slide_index shape_index e)]
                  else []
              | Written _ => []
              end
          | Raise _ => []
          end
      | None => []
      end
  else [].

Fixpoint shapes_warnings (b64decode : string -> outcome string)
    (pil_png : string -> string -> written string) (image_dir : string) (slide_index : nat)
    (ignore_images : bool) (shape_index : nat) (slide_data : list ShapeData) :
    list (log_level * string) :=
  match slide_data with
  | [] => []
  | shape_data :: rest =>
      (picture_warning b64decode pil_png image_dir slide_index ignore_images shape_index
         shape_data ++
       shapes_warnings b64decode pil_png image_dir slide_index ignore_images (S shape_index)
         rest)%list
  end.

(** The warnings of the task of a slide. *)
Definition task_warnings (b64decode : string -> outcome string)
    (pil_png : string -> string -> written string) (ignore_images : bool)
    (task : nat * (list ShapeData * string * nat)) : list (log_level * string) :=
  let '(_, (slide_data, image_dir, slide_index)) := task in
  shapes_warnings b64decode pil_png image_dir slide_index ignore_images 0 slide_data.

(** The computation adds the records [l] to the log, no more and no
    less, however it ends. *)
Definition logs_always {A} (l : list (log_level * string)) (m : M A) : Prop :=
  forall w, log (snd (m w)) = (log w ++ l)%list.

(** The records that the task of a slide logs: the warnings of its shapes
    up to the first shape whose rendering raises, which ends the task and
    logs nothing. *)
Fixpoint shapes_records (float_str : spec_float -> string)
    (b64decode : string -> outcome string) (pil_png : string -> string -> written string)
    (image_dir : string) (slide_index : nat) (ignore_images : bool) (shape_index : nat)
    (slide_data : list ShapeData) : list (log_level * string) :=
  match slide_data with
  | [] => []
  | shape_data :: rest =>
      match fst (process_shape_data float_str b64decode pil_png shape_index shape_data
                   image_dir slide_index ignore_images (World ∅ [])) with
      | Ret _ =>
          (picture_warning b64decode pil_png image_dir slide_index ignore_images shape_index
             shape_data ++
           shapes_records float_str b64decode pil_png image_dir slide_index ignore_images
             (S shape_index) rest)%list
      | Raise _ => []
      end
  end.

Definition task_records (float_str : spec_float -> string)
    (b64decode : string -> outcome string) (pil_png : string -> string -> written string)
    (ignore_images : bool) (task : nat * (list ShapeData * string * nat)) :
    list (log_level * string) :=
  let '(_, (slide_data, image_dir, slide_index)) := task in
  shapes_records float_str b64decode pil_png image_dir slide_index ignore_images 0 slide_data.

(** * Properties *)

(** ** Binary64 arithmetic: rounding in the normal range *)

Lemma digits2_pos_bounds (p : positive) :
  2 ^ (Zpos (digits2_pos p) - 1) <= Zpos p < 2 ^ Zpos (digits2_pos p).
Proof.
  induction p as [p IH | p IH |]; cbn [digits2_pos].
  - rewrite Pos2Z.inj_succ.
    replace (Z.succ (Zpos (digits2_pos p)) - 1) with (Z.succ (Zpos (digits2_pos p) - 1)) by lia.
    rewrite !Z.pow_succ_r by lia. lia.
  - rewrite Pos2Z.inj_succ.
    replace (Z.succ (Zpos (digits2_pos p)) - 1) with (Z.succ (Zpos (digits2_pos p) - 1)) by lia.
    rewrite !Z.pow_succ_r by lia. lia.
  - cbn. lia.
Qed.

Lemma Zdigits2_bounds (m : Z) :
  0 < m -> 2 ^ (Zdigits2 m - 1) <= m < 2 ^ Zdigits2 m.
Proof.
  destruct m as [|p|p]; try lia. intros _. apply digits2_pos_bounds.
Qed.

Lemma Zdigits2_unique (m k : Z) :
  2 ^ (k - 1) <= m < 2 ^ k -> 0 < k -> Zdigits2 m = k.
Proof.
  intros [Hlo Hhi] Hk.
  assert (Hm : 0 < m) by (pose proof (Z.pow_pos_nonneg 2 (k - 1)); lia).
  pose proof (Zdigits2_bounds m Hm) as [Hlo' Hhi'].
  assert (Hd : 0 < Zdigits2 m) by (destruct m; cbn; lia).
  destruct (Z.lt_trichotomy (Zdigits2 m) k) as [Hlt | [Heq | Hgt]]; [ | exact Heq | ].
  - assert (2 ^ Zdigits2 m <= 2 ^ (k - 1)) by (apply Z.pow_le_mono_r; lia). lia.
  - assert (2 ^ k <= 2 ^ (Zdigits2 m - 1)) by (apply Z.pow_le_mono_r; lia). lia.
Qed.

Lemma shr_1_m (r : shr_record) : 0 <= shr_m r -> shr_m (shr_1 r) = shr_m r / 2.
Proof.
  destruct r as [m r s]; cbn [shr_m]. intros Hm.
  destruct m as [|p|p]; try lia; [reflexivity|].
  destruct p as [p|p|]; cbn [shr_1 shr_m].
  - rewrite Pos2Z.inj_xI. apply Z.div_unique with 1; lia.
  - rewrite Pos2Z.inj_xO. apply Z.div_unique with 0; lia.
  - reflexivity.
Qed.

Lemma iter_pos_shr_1_m (p : positive) :
  forall r, 0 <= shr_m r -> shr_m (SpecFloat.iter_pos shr_1 p r) = shr_m r / 2 ^ Zpos p.
Proof.
  induction p as [p IH | p IH |]; intros r Hr; cbn [SpecFloat.iter_pos].
  - assert (H1 : 0 <= shr_m (shr_1 r)) by (rewrite shr_1_m by lia; apply Z.div_pos; lia).
    assert (H2 : 0 <= shr_m (SpecFloat.iter_pos shr_1 p (shr_1 r)))
      by (rewrite IH by lia; apply Z.div_pos; [lia | apply Z.pow_pos_nonneg; lia]).
    rewrite IH by lia. rewrite IH by lia. rewrite shr_1_m by lia.
    assert (Hp : 0 < 2 ^ Zpos p) by (apply Z.pow_pos_nonneg; lia).
    rewrite !Z.div_div by lia.
    f_equal. rewrite <- Z.pow_add_r, <- Z.pow_succ_r by lia. f_equal. lia.
  - assert (H2 : 0 <= shr_m (SpecFloat.iter_pos shr_1 p r))
      by (rewrite IH by lia; apply Z.div_pos; [lia | apply Z.pow_pos_nonneg; lia]).
    rewrite IH by lia. rewrite IH by lia.
    assert (Hp : 0 < 2 ^ Zpos p) by (apply Z.pow_pos_nonneg; lia).
    rewrite !Z.div_div by lia.
    f_equal. rewrite <- Z.pow_add_r by lia. f_equal. lia.
  - rewrite shr_1_m by lia. reflexivity.
Qed.

Lemma loc_of_shr_record_of_loc m l : loc_of_shr_record (shr_record_of_loc m l) = l.
Proof. destruct l as [|[ | | ]]; reflexivity. Qed.

Lemma shr_m_of_loc m l : shr_m (shr_record_of_loc m l) = m.
Proof. destruct l as [|[ | | ]]; reflexivity. Qed.

Lemma round_nearest_even_bounds m l : m <= round_nearest_even m l <= m + 1.
Proof.
  destruct l as [|[ | | ]]; cbn [round_nearest_even]; try lia.
  destruct (Z.even m); lia.
Qed.

Lemma fexp_normal (k : Z) : -1021 <= k -> fexp 53 1024 k = k - 53.
Proof. intros H. unfold fexp. change (emin 53 1024) with (-1074). lia. Qed.

Lemma shr_fexp_normal (m e : Z) (l : location) (d : Z) :
  0 < m -> Zdigits2 m = d -> 53 <= d -> -1021 <= d + e ->
  exists r, shr_fexp 53 1024 m e l = (r, e + (d - 53)) /\
            shr_m r = m / 2 ^ (d - 53) /\
            (d = 53 -> loc_of_shr_record r = l).
Proof.
  intros Hm Hd Hd53 Hrange. unfold shr_fexp. rewrite Hd, fexp_normal by lia.
  replace (d + e - 53 - e) with (d - 53) by lia.
  destruct (d - 53) as [|p|p] eqn:Hn; try lia.
  - exists (shr_record_of_loc m l). cbn [shr]. rewrite Z.add_0_r, shr_m_of_loc.
    rewrite Z.pow_0_r, Z.div_1_r. split; [reflexivity|]. split; [reflexivity|].
    intros _. apply loc_of_shr_record_of_loc.
  - exists (SpecFloat.iter_pos shr_1 p (shr_record_of_loc m l)). cbn [shr].
    split; [reflexivity|]. split; [|lia].
    rewrite iter_pos_shr_1_m by (rewrite shr_m_of_loc; lia).
    now rewrite shr_m_of_loc.
Qed.

(** Rounding of a mantissa of at least 53 digits in the normal range. *)
Lemma binary_round_aux_normal (s : bool) (m e : Z) (l : location) (d : Z) :
  0 < m -> Zdigits2 m = d -> 53 <= d -> -1021 <= d + e -> d + e <= 1023 ->
  exists (m3 : positive) (N : Z),
    binary_round_aux 53 1024 s m e l = S754_finite s m3 (e + N) /\
    d - 53 <= N <= d - 52 /\
    2 ^ 52 <= Zpos m3 < 2 ^ 53 /\
    (Zpos m3 - 1) * 2 ^ N <= m /\
    m + 1 <= (Zpos m3 + 1) * 2 ^ N.
Proof.
  intros Hm Hd Hd53 Hlo Hhi.
  destruct (shr_fexp_normal m e l d Hm Hd Hd53 Hlo) as (r & Hr & Hrm & _).
  unfold binary_round_aux. rewrite Hr.
  set (m1 := shr_m r) in *.
  set (n := d - 53) in *.
  assert (Hn : 0 <= n) by (unfold n; lia).
  assert (Hpn : 0 < 2 ^ n) by (apply Z.pow_pos_nonneg; lia).
  pose proof (Zdigits2_bounds m Hm) as Hb. rewrite Hd in Hb.
  assert (Hsplit : 2 ^ (d - 1) = 2 ^ 52 * 2 ^ n /\ 2 ^ d = 2 ^ 53 * 2 ^ n).
  { split; rewrite <- Z.pow_add_r by lia; f_equal; unfold n; lia. }
  destruct Hsplit as [E1 E2]. rewrite E1, E2 in Hb.
  change (2 ^ 52) with 4503599627370496 in *.
  change (2 ^ 53) with 9007199254740992 in *.
  remember (2 ^ n) as P eqn:HP.
  assert (Hdiv : m1 * P <= m < (m1 + 1) * P).
  { rewrite Hrm. pose proof (Z.div_mod m P) as Hdm.
    pose proof (Z.mod_pos_bound m P Hpn). lia. }
  assert (Hm1 : 2 ^ 52 <= m1 < 2 ^ 53).
  { split.
    - rewrite Hrm. apply Z.div_le_lower_bound; lia.
    - rewrite Hrm. apply Z.div_lt_upper_bound; lia. }
  pose proof (round_nearest_even_bounds m1 (loc_of_shr_record r)) as Hrne.
  set (m2 := round_nearest_even m1 (loc_of_shr_record r)) in *.
  destruct (Z.eq_dec m2 (2 ^ 53)) as [Hroll | Hnoroll].
  - (* the mantissa rolls over to the next binade *)
    assert (Hd2 : Zdigits2 m2 = 54) by (rewrite Hroll; reflexivity).
    destruct (shr_fexp_normal m2 (e + n) loc_Exact 54) as (r2 & Hr2 & Hr2m & _); try lia.
    rewrite Hr2, Hr2m, Hroll.
    change (2 ^ 53 / 2 ^ (54 - 53)) with (Zpos 4503599627370496).
    replace (e + n + (54 - 53) <=? 1024 - 53) with true by (symmetry; apply Z.leb_le; unfold n; lia).
    exists 4503599627370496%positive, (n + 1).
    split; [f_equal; lia|]. split; [unfold n; lia|].
    split; [lia|].
    rewrite Z.pow_add_r, Z.pow_1_r, <- HP by lia.
    change (2 ^ 53) with 9007199254740992 in Hroll.
    assert (Hm1' : m1 = 9007199254740991) by lia.
    rewrite Hm1' in Hdiv. lia.
  - assert (Hd2 : Zdigits2 m2 = 53) by (apply Zdigits2_unique; lia).
    destruct (shr_fexp_normal m2 (e + n) loc_Exact 53) as (r2 & Hr2 & Hr2m & _); try lia.
    rewrite Hr2, Hr2m. rewrite Z.sub_diag, Z.pow_0_r, Z.div_1_r.
    destruct m2 as [|p2|p2] eqn:Hm2; try lia.
    replace (e + n + 0 <=? 1024 - 53) with true by (symmetry; apply Z.leb_le; unfold n; lia).
    exists p2, n.
    split; [f_equal; lia|]. split; [unfold n; lia|].
    split; [lia|]. rewrite <- HP. nia.
Qed.

Lemma div_core_quotient (a b s : Z) :
  0 < a -> 0 < b -> 0 <= s -> Zdigits2 a + s = Zdigits2 b + 53 ->
  let q := a * 2 ^ s / b in
  (Zdigits2 q = 53 \/ Zdigits2 q = 54) /\ 0 < q /\
  q * b <= a * 2 ^ s < (q + 1) * b.
Proof.
  intros Ha Hb Hs Hd q.
  pose proof (Zdigits2_bounds a Ha) as [Ha1 Ha2].
  pose proof (Zdigits2_bounds b Hb) as [Hb1 Hb2].
  assert (Hda : 0 < Zdigits2 a) by (destruct a; cbn; lia).
  assert (Hdb : 0 < Zdigits2 b) by (destruct b; cbn; lia).
  set (d1 := Zdigits2 a) in *. set (d2 := Zdigits2 b) in *.
  assert (Hps : 0 < 2 ^ s) by (apply Z.pow_pos_nonneg; lia).
  assert (Hquot : q * b <= a * 2 ^ s < (q + 1) * b).
  { unfold q. pose proof (Z.div_mod (a * 2 ^ s) b).
    pose proof (Z.mod_pos_bound (a * 2 ^ s) b Hb). lia. }
  (* 2^52 * b < a * 2^s < 2^54 * b *)
  assert (Hlow : 2 ^ 52 * 2 ^ d2 <= a * 2 ^ s).
  { replace (2 ^ 52 * 2 ^ d2) with (2 ^ (d1 - 1) * 2 ^ s)
      by (rewrite <- !Z.pow_add_r by lia; f_equal; lia).
    apply Z.mul_le_mono_nonneg_r; lia. }
  assert (Hhigh : a * 2 ^ s < 2 ^ 54 * 2 ^ (d2 - 1)).
  { replace (2 ^ 54 * 2 ^ (d2 - 1)) with (2 ^ d1 * 2 ^ s)
      by (rewrite <- !Z.pow_add_r by lia; f_equal; lia).
    apply Z.mul_lt_mono_pos_r; lia. }
  change (2 ^ 52) with 4503599627370496 in *.
  change (2 ^ 54) with 18014398509481984 in *.
  assert (Hq : 4503599627370496 <= q < 18014398509481984).
  { split.
    - unfold q. apply Z.div_le_lower_bound; [lia|]. nia.
    - unfold q. apply Z.div_lt_upper_bound; [lia|]. nia. }
  split; [|split; [lia | exact Hquot]].
  destruct (Z_lt_le_dec q 9007199254740992).
  - left. apply Zdigits2_unique; [|lia].
    change (2 ^ (53 - 1)) with 4503599627370496.
    change (2 ^ 53) with 9007199254740992. lia.
  - right. apply Zdigits2_unique; [|lia].
    change (2 ^ (54 - 1)) with 9007199254740992.
    change (2 ^ 54) with 18014398509481984. lia.
Qed.

Lemma int_true_divide_normal (v b : Z) :
  v <> 0 -> 0 < b ->
  let s := Zdigits2 b + 53 - Zdigits2 (Z.abs v) in
  0 < s <= 1000 ->
  exists (mx : positive) (N : Z),
    Float.int_true_divide v b = Ret (S754_finite (v <? 0) mx (N - s)) /\
    0 <= N <= 2 /\
    2 ^ 52 <= Zpos mx < 2 ^ 53 /\
    (Zpos mx - 1) * 2 ^ N * b <= Z.abs v * 2 ^ s /\
    Z.abs v * 2 ^ s < (Zpos mx + 1) * 2 ^ N * b.
Proof.
  intros Hv Hb s Hs.
  assert (Ha : 0 < Z.abs v) by lia.
  destruct (div_core_quotient (Z.abs v) b s Ha Hb) as (Hdq & Hq0 & Hquot); [lia | unfold s; lia |].
  set (q := Z.abs v * 2 ^ s / b) in *.
  unfold Float.int_true_divide.
  replace (b =? 0) with false by (symmetry; apply Z.eqb_neq; lia).
  replace (v =? 0) with false by (symmetry; apply Z.eqb_neq; lia).
  replace (b <? 0) with false by (symmetry; apply Z.ltb_ge; lia).
  rewrite xorb_false_r.
  unfold SFdiv_core_binary.
  rewrite !Z.add_0_r, Z.sub_0_r.
  rewrite (Z.abs_eq b) by lia.
  assert (He : Z.min (fexp Float.prec Float.emax (Zdigits2 (Z.abs v) - Zdigits2 b)) 0 = - s).
  { unfold Float.prec, Float.emax. rewrite fexp_normal by (unfold s in Hs; lia).
    unfold s in *. lia. }
  rewrite He. replace (0 - - s) with s by lia.
  destruct s as [|ps|ps] eqn:Es; try lia.
  rewrite Z.shiftl_mul_pow2 by lia.
  pose proof (Z.div_eucl_eq (Z.abs v * 2 ^ Z.pos ps) b) as Hde.
  assert (Hqd : fst (Z.div_eucl (Z.abs v * 2 ^ Z.pos ps) b) = q) by reflexivity.
  destruct (Z.div_eucl (Z.abs v * 2 ^ Z.pos ps) b) as [q' r']. cbn [fst] in Hqd. subst q'.
  destruct Hdq as [Hd | Hd].
  - destruct (binary_round_aux_normal (v <? 0) q (- Z.pos ps) (new_location b r') 53)
      as (m3 & N & HR & HN & Hm3 & H1 & H2); try lia.
    unfold Float.prec, Float.emax. rewrite HR.
    exists m3, N. split; [do 2 f_equal; lia|]. split; [lia|]. split; [exact Hm3|].
    assert (HpN : 0 < 2 ^ N) by (apply Z.pow_pos_nonneg; lia).
    split; nia.
  - destruct (binary_round_aux_normal (v <? 0) q (- Z.pos ps) (new_location b r') 54)
      as (m3 & N & HR & HN & Hm3 & H1 & H2); try lia.
    unfold Float.prec, Float.emax. rewrite HR.
    exists m3, N. split; [do 2 f_equal; lia|]. split; [lia|]. split; [exact Hm3|].
    assert (HpN : 0 < 2 ^ N) by (apply Z.pow_pos_nonneg; lia).
    split; nia.
Qed.

Lemma of_int_100 : Float.of_int 100 = Ret (S754_finite false 7036874417766400 (-46)).
Proof. reflexivity. Qed.

Lemma mul_int_100_normal (sx : bool) (mx : positive) (ex : Z) :
  2 ^ 52 <= Zpos mx < 2 ^ 53 -> -1000 <= ex <= 900 ->
  exists (m3 : positive) (N : Z),
    Float.mul_int (S754_finite sx mx ex) 100 = Ret (S754_finite sx m3 (ex - 46 + N)) /\
    52 <= N <= 54 /\
    2 ^ 52 <= Zpos m3 < 2 ^ 53 /\
    (Zpos m3 - 1) * 2 ^ (N - 46) <= 100 * Zpos mx /\
    100 * Zpos mx < (Zpos m3 + 1) * 2 ^ (N - 46).
Proof.
  intros Hmx Hex. unfold Float.mul_int. rewrite of_int_100.
  cbn [SFmul]. rewrite xorb_false_r.
  change (2 ^ 52) with 4503599627370496 in *.
  change (2 ^ 53) with 9007199254740992 in *.
  set (m := Zpos (mx * 7036874417766400)).
  assert (Hm : m = Zpos mx * 7036874417766400) by reflexivity.
  assert (Hd : Zdigits2 m = 105 \/ Zdigits2 m = 106).
  { destruct (Z_lt_le_dec m (2 ^ 105)) as [Hlt | Hge].
    - left. apply Zdigits2_unique; [|lia]. split; [|exact Hlt].
      change (2 ^ (105 - 1)) with 20282409603651670423947251286016. lia.
    - right. apply Zdigits2_unique; [|lia]. split; [exact Hge|].
      change (2 ^ 106) with 81129638414606681695789005144064. lia. }
  assert (Hfin : forall d, Zdigits2 m = d -> 105 <= d <= 106 ->
    exists (m3 : positive) (N : Z),
      Ret (binary_round_aux Float.prec Float.emax sx m (ex + -46) loc_Exact) =
        Ret (S754_finite sx m3 (ex - 46 + N)) /\
      52 <= N <= 54 /\ 4503599627370496 <= Zpos m3 < 9007199254740992 /\
      (Zpos m3 - 1) * 2 ^ (N - 46) <= 100 * Zpos mx /\
      100 * Zpos mx < (Zpos m3 + 1) * 2 ^ (N - 46)).
  { intros d Hdm Hdr.
    destruct (binary_round_aux_normal sx m (ex + -46) loc_Exact d)
      as (m3 & N & HR & HN & Hm3 & H1 & H2); try lia.
    unfold Float.prec, Float.emax. rewrite HR.
    exists m3, N. split; [do 2 f_equal; lia|]. split; [lia|].
    change (2 ^ 52) with 4503599627370496 in Hm3.
    change (2 ^ 53) with 9007199254740992 in Hm3.
    split; [exact Hm3|].
    assert (HN2 : 2 ^ N = 2 ^ (N - 46) * 70368744177664).
    { change 70368744177664 with (2 ^ 46). rewrite <- Z.pow_add_r by lia. f_equal. lia. }
    rewrite HN2 in H1, H2.
    assert (0 < 2 ^ (N - 46)) by (apply Z.pow_pos_nonneg; lia).
    split; nia. }
  destruct Hd as [Hd | Hd]; eapply Hfin; eauto; lia.
Qed.

Lemma hundredths_spec (m : positive) (e : Z) :
  e < 0 ->
  0 <= Float.hundredths m e /\
  2 * Z.abs (Float.hundredths m e * 2 ^ (- e) - 100 * Zpos m) <= 2 ^ (- e).
Proof.
  intros He. destruct e as [|p|p]; try lia.
  cbn [Float.hundredths]. change (- Z.neg p) with (Z.pos p).
  assert (Hden : 0 < 2 ^ Zpos p) by (apply Z.pow_pos_nonneg; lia).
  set (den := 2 ^ Zpos p) in *.
  pose proof (Z.div_mod (100 * Zpos m) den) as Hdm.
  pose proof (Z.mod_pos_bound (100 * Zpos m) den Hden) as Hr.
  assert (Hq : 0 <= 100 * Zpos m / den) by (apply Z.div_pos; lia).
  set (q := 100 * Zpos m / den) in *. set (r := (100 * Zpos m) mod den) in *.
  destruct (Z.compare_spec (2 * r) den) as [Heq | Hlt | Hgt].
  - destruct (Z.even q); split; lia.
  - split; lia.
  - split; lia.
Qed.

Lemma Zdigits2_emu (v : Z) : v <> 0 -> emu_range v -> 1 <= Zdigits2 (Z.abs v) <= 45.
Proof.
  intros Hv Hr. unfold emu_range in Hr.
  assert (Ha : 0 < Z.abs v) by lia.
  pose proof (Zdigits2_bounds _ Ha) as [Hlo _].
  assert (Hd : 0 < Zdigits2 (Z.abs v)) by (destruct (Z.abs v); cbn; lia).
  split; [lia|].
  destruct (Z_le_gt_dec (Zdigits2 (Z.abs v)) 45) as [|Hgt]; [assumption|].
  assert (2 ^ 45 <= 2 ^ (Zdigits2 (Z.abs v) - 1)) by (apply Z.pow_le_mono_r; lia).
  change (2 ^ 45) with 35184372088832 in *. lia.
Qed.

Ltac pow2_numeral :=
  repeat match goal with
  | H : context [2 ^ ?k] |- _ =>
      let x := eval vm_compute in (2 ^ k) in
      match x with
      | Zpos _ => change (2 ^ k) with x in H
      end
  | |- context [2 ^ ?k] =>
      let x := eval vm_compute in (2 ^ k) in
      match x with
      | Zpos _ => change (2 ^ k) with x
      end
  end.

(** The two-decimal text of a percentage is the correct rounding of the exact
    quotient: a number of hundredths at distance at most one half from
    [10000 * |v| / ref]. *)
Lemma percent_nearest (v ref c d2 : Z) :
  emu_range v -> ref = 2000 * c -> Zdigits2 ref = d2 -> 23 <= d2 <= 24 ->
  c = 3429 \/ c = 4572 ->
  exists h : Z,
    percent v ref = Ret ((Float.sign_text (v <? 0)%Z ++ Float.fixed2 h) ++ "%")%string /\
    0 <= h /\ 2 * Z.abs (c * h - 5 * Z.abs v) <= c.
Proof.
  intros Hr Href Hd2 Hd2r Hc.
  destruct (Z.eq_dec v 0) as [-> | Hv].
  - exists 0. unfold percent, Float.int_true_divide.
    replace (ref =? 0) with false by (symmetry; apply Z.eqb_neq; lia).
    replace (ref <? 0) with false by (symmetry; apply Z.ltb_ge; lia).
    cbn. split; [reflexivity|]. lia.
  - pose proof (Zdigits2_emu v Hv Hr) as Hd1.
    destruct (int_true_divide_normal v ref) as (mx & N & Hx & HN & Hmx & Hx1 & Hx2);
      [exact Hv | lia | lia |].
    rewrite Hd2 in *.
    set (s := d2 + 53 - Zdigits2 (Z.abs v)) in *.
    destruct (mul_int_100_normal (v <? 0) mx (N - s) Hmx) as (m3 & N' & Hy & HN' & Hm3 & Hy1 & Hy2);
      [lia|].
    set (e3 := N - s - 46 + N') in *.
    assert (He3 : e3 < 0) by (unfold e3, s; lia).
    destruct (hundredths_spec m3 e3 He3) as [Hh0 Hh].
    exists (Float.hundredths m3 e3).
    split; [unfold percent; rewrite Hx, Hy; reflexivity|].
    split; [exact Hh0|].
    set (h := Float.hundredths m3 e3) in *.
    set (U := 2 ^ (- e3)) in *.
    assert (HU : 0 < U) by (apply Z.pow_pos_nonneg; lia).
    assert (Hs : 2 ^ s = U * 2 ^ (N' - 46) * 2 ^ N).
    { unfold U. rewrite <- !Z.pow_add_r by (unfold e3, s; lia). f_equal. unfold e3. lia. }
    rewrite Hs in Hx1, Hx2.
    set (a := Z.abs v) in *.
    assert (HaU : a * U <= 27273042329600 * U) by (apply Z.mul_le_mono_nonneg_r; [lia | exact Hr]).
    assert (Ha0 : 0 < a) by (unfold a; lia).
    assert (HaU0 : 0 < a * U) by (apply Z.mul_pos_pos; lia).
    remember (a * U) as Y eqn:HY.
    assert (HXdef : h * U = h * U) by reflexivity.
    remember (h * U) as X eqn:HX in Hh, HXdef at 1.
    assert (Hgoal : 2 * (c * X - 5 * Y) < (c + 1) * U /\ 2 * (5 * Y - c * X) < (c + 1) * U).
    { clear HX HXdef. subst ref.
      replace (a * (U * 2 ^ (N' - 46) * 2 ^ N)) with (Y * 2 ^ (N' - 46) * 2 ^ N) in Hx1, Hx2
        by (rewrite HY; ring).
      clear HY.
      assert (HNc : N = 0 \/ N = 1 \/ N = 2) by lia.
      assert (HNc' : N' = 52 \/ N' = 53 \/ N' = 54) by lia.
      clear Hs Hx Hy Hh0 He3 Hd1 Hd2 Hd2r.
      destruct Hc as [-> | ->];
        destruct HNc as [-> | [-> | ->]]; destruct HNc' as [-> | [-> | ->]];
        pow2_numeral; lia. }
    destruct Hgoal as [G1 G2]. rewrite HY, HXdef in G1, G2.
    assert (G1' : 2 * (c * h - 5 * a) < c + 1).
    { apply (Z.mul_lt_mono_pos_r U); [exact HU|].
      replace (2 * (c * h - 5 * a) * U) with (2 * (c * (h * U) - 5 * (a * U))) by ring.
      exact G1. }
    assert (G2' : 2 * (5 * a - c * h) < c + 1).
    { apply (Z.mul_lt_mono_pos_r U); [exact HU|].
      replace (2 * (5 * a - c * h) * U) with (2 * (5 * (a * U) - c * (h * U))) by ring.
      exact G2. }
    destruct Hc as [-> | ->]; lia.
Qed.

Lemma percent_of_width (v : Z) :
  emu_range v ->
  exists h, percent v 9144000 = Ret (percent_text v h) /\ nearest_hundredths v 9144000 h.
Proof.
  intros Hv.
  destruct (percent_nearest v 9144000 4572 24 Hv) as (h & Hp & Hh & Hn);
    [reflexivity | reflexivity | lia | right; reflexivity |].
  exists h. split; [exact Hp|]. split; [exact Hh|]. lia.
Qed.

Lemma percent_of_height (v : Z) :
  emu_range v ->
  exists h, percent v 6858000 = Ret (percent_text v h) /\ nearest_hundredths v 6858000 h.
Proof.
  intros Hv.
  destruct (percent_nearest v 6858000 3429 23 Hv) as (h & Hp & Hh & Hn);
    [reflexivity | reflexivity | lia | left; reflexivity |].
  exists h. split; [exact Hp|]. split; [exact Hh|]. lia.
Qed.

(** ** The position box *)

Lemma fixed2_two_decimals (h : Z) : 0 <= h -> two_decimals h (Float.fixed2 h).
Proof.
  intros Hh. exists (h / 10 mod 10), (h mod 10).
  pose proof (Z.mod_pos_bound (h / 10) 10 ltac:(lia)).
  pose proof (Z.mod_pos_bound h 10 ltac:(lia)).
  pose proof (Z.div_mod h 10 ltac:(lia)).
  pose proof (Z.div_mod (h / 10) 10 ltac:(lia)).
  assert (h / 10 / 10 = h / 100) by (rewrite Z.div_div by lia; reflexivity).
  split; [lia|]. split; [lia|]. split; [lia|]. reflexivity.
Qed.

Lemma common_style_in_range (shape_data : ShapeData) :
  bounds_in_range shape_data ->
  exists hl ht hw hh : Z,
    (forall w, common_style shape_data w =
       (Ret (position_box (percent_text (left shape_data) hl) (percent_text (top shape_data) ht)
                          (percent_text (width shape_data) hw) (percent_text (height shape_data) hh)), w)) /\
    nearest_hundredths (left shape_data) 9144000 hl /\
    nearest_hundredths (top shape_data) 6858000 ht /\
    nearest_hundredths (width shape_data) 9144000 hw /\
    nearest_hundredths (height shape_data) 6858000 hh.
Proof.
  intros (Hl & Ht & Hw & Hh).
  destruct (percent_of_width _ Hl) as (hl & El & Nl).
  destruct (percent_of_height _ Ht) as (ht & Et & Nt).
  destruct (percent_of_width _ Hw) as (hw & Ew & Nw).
  destruct (percent_of_height _ Hh) as (hh & Eh & Nh).
  exists hl, ht, hw, hh. split; [|tauto].
  intros w. unfold common_style, bind, lift, ret. rewrite El, Et, Ew, Eh. reflexivity.
Qed.

(** The two fragments that carry the position box. *)

Section Fragments.

Variable float_str : spec_float -> string.
Variable b64decode : string -> outcome string.
Variable pil_png : string -> string -> written string.

Abbreviation render := (process_shape_data float_str b64decode pil_png).

Lemma render_picture (shape_index : nat) (shape_data : ShapeData) (image_dir : string)
    (slide_index : nat) (ignore_images : bool) (style : string) (w : world) :
  shape_type shape_data = Some PICTURE ->
  common_style shape_data w = (Ret style, w) ->
  render shape_index shape_data image_dir slide_index ignore_images w =
    if ignore_images then (Ret (img_tag (image_filename slide_index shape_index) style), w)
    else
      match save_image b64decode pil_png shape_index shape_data image_dir slide_index
              (image_filename slide_index shape_index) w with
      | (Ret None, w') => (Ret (img_tag (image_filename slide_index shape_index) style), w')
      | (Ret (Some fragment), w') => (Ret fragment, w')
      | (Raise e, w') => (Raise e, w')
      end.
Proof.
  intros Hp Hs. unfold process_shape_data, bind. rewrite Hs.
  destruct (decide (shape_type shape_data = Some PICTURE)) as [_|Hn]; [|contradiction].
  destruct ignore_images; [reflexivity|].
  destruct (save_image _ _ _ _ _ _ _ w) as [[[fragment|]|e] w']; reflexivity.
Qed.

Lemma save_image_written (shape_index : nat) (shape_data : ShapeData) (image_dir : string)
    (slide_index : nat) (filename b64 image_bytes png : string) (w : world) :
  image shape_data = Some b64 ->
  b64decode b64 = Ret image_bytes ->
  pil_png image_bytes (path_join image_dir filename) = Written png ->
  save_image b64decode pil_png shape_index shape_data image_dir slide_index filename w =
    (Ret None, World (<[path_join image_dir filename := png]> (files w)) (log w)).
Proof.
  intros Hi Hd Hp. unfold save_image, bind, lift, try_except, write_file, ret.
  now rewrite Hi, Hd, Hp.
Qed.

Lemma save_image_failed (shape_index : nat) (shape_data : ShapeData) (image_dir : string)
    (slide_index : nat) (filename b64 image_bytes : string) (e : exn)
    (left_behind : option string) (w : world) :
  image shape_data = Some b64 ->
  b64decode b64 = Ret image_bytes ->
  pil_png image_bytes (path_join image_dir filename) = Failed e left_behind ->
  save_image b64decode pil_png shape_index shape_data image_dir slide_index filename w =
    if is_OSError e
    then (Ret (Some (image_failed_text slide_index shape_index)),
          World (left_on_disk (path_join image_dir filename) left_behind w)
                (log w ++ [(WARNING, image_failed_warning slide_index shape_index e)]))
    else (Raise e, World (left_on_disk (path_join image_dir filename) left_behind w) (log w)).
Proof.
  intros Hi Hd Hp.
  unfold save_image, bind, lift, try_except, fail_writing, write_file, raise, logging, ret,
    left_on_disk.
  rewrite Hi, Hd, Hp.
  destruct left_behind as [part|]; cbn [bind]; destruct (is_OSError e); try reflexivity.
  now destruct w.
Qed.

Lemma render_text_frame (shape_index : nat) (shape_data : ShapeData) (image_dir : string)
    (slide_index : nat) (ignore_images : bool) (style : string)
    (paragraphs : list ParagraphData) (w : world) :
  shape_type shape_data <> Some PICTURE ->
  has_text_frame shape_data = true ->
  text_frame shape_data = Some paragraphs ->
  common_style shape_data w = (Ret style, w) ->
  render shape_index shape_data image_dir slide_index ignore_images w =
    (Ret (text_div style (bg_color shape_data) (text_content float_str paragraphs)), w).
Proof.
  intros Hp Ht Hf Hs. unfold process_shape_data, bind. rewrite Hs.
  destruct (decide (shape_type shape_data = Some PICTURE)) as [Hy|_]; [contradiction|].
  now rewrite Ht, Hf.
Qed.

End Fragments.

(** Far outside the coordinate range of the format a double cannot hold
    the percentage: it becomes an infinity, and beyond that the division
    itself raises. *)
Example percent_out_of_range :
  percent (10 ^ 314) 9144000 = Ret "inf%" /\
  percent (10 ^ 320) 9144000 =
    Raise (Exn OverflowError "integer division result too large for a float").
Proof. split; vm_compute; reflexivity. Qed.

(** C1: for every shape whose bounds lie in the coordinate range of the
    format, the position box is [left:L;top:T;width:W;height:H;] where each
    text is the percentage of the value over 9144000 (left, width) or 6858000
    (top, height) printed with exactly two decimals and [%], the printed
    number being a correct rounding of the exact percentage and carrying the
    sign of the value: nothing is clamped.  At the edges of the canvas
    [left = 0] gives [0.00%] and [left = 9144000] gives [100.00%]; a shape
    outside the canvas gives a negative or larger than 100 percentage. *)
Theorem C1_position_box_percentages (shape_data : ShapeData) :
  bounds_in_range shape_data ->
  position_box_rounded shape_data /\
  percent 0 9144000 = Ret "0.00%" /\
  percent 9144000 9144000 = Ret "100.00%" /\
  percent (-914400) 9144000 = Ret "-10.00%" /\
  percent 18288000 9144000 = Ret "200.00%" /\
  percent (-685800) 6858000 = Ret "-10.00%" /\
  percent 13716000 6858000 = Ret "200.00%".
Proof.
  intros Hb. split.
  - destruct (common_style_in_range shape_data Hb) as (hl & ht & hw & hh & Hs & Nl & Nt & Nw & Nh).
    exists hl, ht, hw, hh. cbv zeta. split; [exact Hs|].
    pose proof (fixed2_two_decimals hl (proj1 Nl)).
    pose proof (fixed2_two_decimals ht (proj1 Nt)).
    pose proof (fixed2_two_decimals hw (proj1 Nw)).
    pose proof (fixed2_two_decimals hh (proj1 Nh)).
    do 4 (split; [tauto|]). split.
    + intros float_str b64decode pil_png shape_index image_dir slide_index ignore_images
        paragraphs w Hp Ht Hf.
      now apply render_text_frame.
    + intros float_str b64decode pil_png shape_index image_dir slide_index w Hp.
      now rewrite (render_picture _ _ _ _ _ _ _ true _ w Hp (Hs w)).
  - repeat split; vm_compute; reflexivity.
Qed.

Lemma C1_position_box_percentages_witness :
  bounds_in_range (Sample.picture (-914400)) /\
  position_box_rounded (Sample.picture (-914400)).
Proof.
  assert (Hb : bounds_in_range (Sample.picture (-914400)))
    by (unfold bounds_in_range, emu_range; cbn; lia).
  split; [exact Hb|].
  exact (proj1 (C1_position_box_percentages (Sample.picture (-914400)) Hb)).
Defined.

(** ** Strings: occurrences and the neighbours of the colons *)

Lemma append_assoc (a b c : string) : (a ++ b) ++ c = a ++ (b ++ c).
Proof.
  induction a as [|x a IH]; [reflexivity|].
  change (String x ((a ++ b) ++ c) = String x (a ++ (b ++ c))). now rewrite IH.
Qed.

Lemma append_empty_r (a : string) : a ++ "" = a.
Proof.
  induction a as [|x a IH]; [reflexivity|].
  change (String x (a ++ "") = String x a). now rewrite IH.
Qed.

Lemma contains_here (needle post : string) : contains needle (needle ++ post).
Proof. exists "", post. reflexivity. Qed.

Lemma contains_append_l (needle pre hay : string) :
  contains needle hay -> contains needle (pre ++ hay).
Proof.
  intros (p & q & ->). exists (pre ++ p), q. now rewrite append_assoc.
Qed.

Lemma contains_append_r (needle hay post : string) :
  contains needle hay -> contains needle (hay ++ post).
Proof.
  intros (p & q & ->). exists p, (q ++ post). now rewrite !append_assoc.
Qed.

Lemma contains_longer (short long hay : string) :
  contains short long -> contains long hay -> contains short hay.
Proof.
  intros (p & q & ->) (p' & q' & ->).
  exists (p' ++ p), (q ++ q'). now rewrite !append_assoc.
Qed.

Lemma colon_ctx_app (a : string) :
  forall (h : list ascii) (b : string),
    exists l, colon_ctx h (a ++ b) = (l ++ colon_ctx (rev (list_ascii_of_string a) ++ h) b)%list.
Proof.
  induction a as [|c a IH]; intros h b.
  - exists []%list. reflexivity.
  - destruct (IH (c :: h) b) as [l Hl].
    change (String c a ++ b) with (String c (a ++ b)). cbn [colon_ctx].
    rewrite Hl. eexists. rewrite app_assoc. f_equal.
    cbn [list_ascii_of_string rev]. now rewrite <- app_assoc.
Qed.

Lemma colon_ctx_free (v : string) :
  colon_free v = true ->
  forall (h : list ascii) (b : string),
    colon_ctx h (v ++ b) = colon_ctx (rev (list_ascii_of_string v) ++ h)%list b.
Proof.
  induction v as [|c v IH]; intros Hv h b.
  - reflexivity.
  - cbn [colon_free] in Hv. apply andb_true_iff in Hv as [Hc Hv].
    change (String c v ++ b) with (String c (v ++ b)). cbn [colon_ctx].
    apply negb_true_iff in Hc. rewrite Hc.
    cbn [app]. rewrite IH by exact Hv.
    cbn [list_ascii_of_string rev]. now rewrite <- app_assoc.
Qed.

(** A colon of the needle, with its left neighbours, is a colon of the hay. *)
Lemma contains_colon_ctx (needle hay : string) (x : list ascii * list ascii -> Prop) :
  contains needle hay ->
  (forall h post, Exists x (colon_ctx h (needle ++ post))) ->
  Exists x (colon_ctx [] hay).
Proof.
  intros (pre & post & ->) Hn.
  destruct (colon_ctx_app pre [] (needle ++ post)) as [l ->].
  apply Exists_app. right. apply Hn.
Qed.

(** ** The style of a run *)

Lemma colon_ctx_cons (h : list ascii) (c : ascii) (s b : string) :
  colon_ctx h (String c s ++ b) =
  ((if Ascii.eqb c ":" then [(firstn 2 h, firstn 2 (list_ascii_of_string (s ++ b)))] else [])
   ++ colon_ctx (c :: h) (s ++ b))%list.
Proof. reflexivity. Qed.

Lemma colon_ctx_nil_l (h : list ascii) (b : string) : colon_ctx h ("" ++ b) = colon_ctx h b.
Proof. reflexivity. Qed.

Lemma list_ascii_cons (c : ascii) (s b : string) :
  list_ascii_of_string (String c s ++ b) = c :: list_ascii_of_string (s ++ b).
Proof. reflexivity. Qed.

Lemma rev_cons_app {A} (x : A) (l h : list A) : (rev l ++ x :: h = rev (x :: l) ++ h)%list.
Proof. cbn [rev]. now rewrite <- app_assoc. Qed.

(** Reads a string made of literals and colon-free values from left to
    right and lists the neighbours of its colons. *)
Ltac read_colons :=
  repeat first
    [ rewrite colon_ctx_cons; cbn [Ascii.eqb Bool.eqb app]
    | rewrite colon_ctx_nil_l
    | rewrite list_ascii_cons
    | rewrite colon_ctx_free by assumption ];
  cbn [firstn colon_ctx app Ascii.eqb Bool.eqb andb list_ascii_of_string].

Ltac right_nest := rewrite ?append_assoc, ?append_empty_r.

Lemma weight_colon (h : list ascii) (post : string) :
  Exists (fun p => fst p = ["t"; "h"]%char) (colon_ctx h ("font-weight:" ++ post)).
Proof. read_colons. apply Exists_cons_hd. reflexivity. Qed.

Lemma style_colon (h : list ascii) (post : string) :
  Exists (fun p => fst p = ["e"; "l"]%char) (colon_ctx h ("font-style:" ++ post)).
Proof. read_colons. apply Exists_cons_hd. reflexivity. Qed.

Lemma color_colon (h : list ascii) (post : string) :
  Exists (fun p => fst p = ["r"; "o"]%char) (colon_ctx h ("color:" ++ post)).
Proof. read_colons. apply Exists_cons_hd. reflexivity. Qed.

Lemma weight_normal_colon (h : list ascii) (post : string) :
  Exists (fun p => p = (["t"; "h"], [" "; "n"])%char) (colon_ctx h ("font-weight: normal" ++ post)).
Proof. read_colons. apply Exists_cons_hd. reflexivity. Qed.

Lemma style_normal_colon (h : list ascii) (post : string) :
  Exists (fun p => p = (["e"; "l"], [" "; "n"])%char) (colon_ctx h ("font-style: normal" ++ post)).
Proof. read_colons. apply Exists_cons_hd. reflexivity. Qed.



Ltac pick_case :=
  first [ solve [repeat split; reflexivity] | left; pick_case | right; pick_case ].

Lemma run_style_colons (float_str : spec_float -> string) (run : RunData) :
  plain_values float_str run ->
  Forall (style_colon_ok run) (colon_ctx [] (run_style float_str run)).
Proof.
  destruct run as [t name size b i c link]. unfold plain_values, style_colon_ok.
  cbn [font_name font_size color bold italic]. intros (Hn & Hs & Hc).
  unfold run_style, font_family_decl, font_size_decl, font_weight_decl, font_style_decl,
    color_decl, bool_truthy.
  cbn [font_name font_size color bold italic].
  set (family := str_opt id name) in *. clearbody family.
  set (colour := str_opt id c) in *. clearbody colour.
  (destruct size as [sz|]; [destruct (Float.truthy sz)|]); cbn [str_opt] in *;
  destruct b as [[|]|]; destruct i as [[|]|]; destruct (str_truthy c);
  right_nest; read_colons;
  repeat (apply List.Forall_cons; [cbn [fst]; pick_case|]); apply List.Forall_nil.
Qed.

Lemma colon_in_style (float_str : spec_float -> string) (run : RunData)
    (needle : string) (x : list ascii * list ascii -> Prop) :
  plain_values float_str run ->
  (forall h post, Exists x (colon_ctx h (needle ++ post))) ->
  contains needle (run_style float_str run) ->
  exists p, x p /\ style_colon_ok run p.
Proof.
  intros Hp Hn Hc.
  pose proof (contains_colon_ctx _ _ x Hc Hn) as He.
  apply List.Exists_exists in He as (p & Hin & Hx).
  exists p. split; [exact Hx|].
  pose proof (run_style_colons float_str run Hp) as Hf.
  rewrite List.Forall_forall in Hf. now apply Hf.
Qed.

Lemma weight_in_style (float_str : spec_float -> string) (run : RunData) :
  bold run = Some true -> contains "font-weight: bold; " (run_style float_str run).
Proof.
  intros Hb. unfold run_style, font_weight_decl, bool_truthy. rewrite Hb.
  apply contains_append_l, contains_append_l, contains_here.
Qed.

Lemma italic_in_style (float_str : spec_float -> string) (run : RunData) :
  italic run = Some true -> contains "font-style: italic; " (run_style float_str run).
Proof.
  intros Hb. unfold run_style, font_style_decl, bool_truthy. rewrite Hb.
  apply contains_append_l, contains_append_l, contains_append_l, contains_here.
Qed.

Lemma color_in_style (float_str : spec_float -> string) (run : RunData) :
  str_truthy (color run) = true -> contains "color:" (run_style float_str run).
Proof.
  intros Hb. unfold run_style, color_decl. rewrite Hb.
  do 4 apply contains_append_l. exists "", (" " ++ str_opt id (color run) ++ "; "). reflexivity.
Qed.

Ltac style_cases H :=
  destruct H as [H | [H | [[H ?] | [[H ?] | [H ?]]]]];
  try (subst; cbn [fst] in *; congruence).

Lemma run_style_meets_spec (float_str : spec_float -> string) (run : RunData) :
  plain_values float_str run -> run_style_spec float_str run.
Proof.
  intros Hp. unfold run_style_spec, declares.
  change ("font-weight" ++ ":") with "font-weight:".
  change ("font-style" ++ ":") with "font-style:".
  change ("color" ++ ":") with "color:".
  assert (Hw : contains "font-weight:" (run_style float_str run) -> bold run = Some true).
  { intros Hc. destruct (colon_in_style _ _ _ _ Hp weight_colon Hc) as (p & Hx & Hq).
    style_cases Hq. }
  assert (Hi : contains "font-style:" (run_style float_str run) -> italic run = Some true).
  { intros Hc. destruct (colon_in_style _ _ _ _ Hp style_colon Hc) as (p & Hx & Hq).
    style_cases Hq. }
  assert (Hcl : contains "color:" (run_style float_str run) -> str_truthy (color run) = true).
  { intros Hc. destruct (colon_in_style _ _ _ _ Hp color_colon Hc) as (p & Hx & Hq).
    style_cases Hq. }
  repeat split.
  - intros Hc. apply Hw. apply (contains_longer _ _ _ (contains_here "font-weight:" " bold;") Hc).
  - intros Hb. apply (contains_longer _ "font-weight: bold; "); [|now apply weight_in_style].
    exists "", " ". reflexivity.
  - exact Hw.
  - intros Hb. apply (contains_longer _ "font-weight: bold; "); [|now apply weight_in_style].
    exists "", " bold; ". reflexivity.
  - intros Hc. apply Hi. apply (contains_longer _ _ _ (contains_here "font-style:" " italic;") Hc).
  - intros Hb. apply (contains_longer _ "font-style: italic; "); [|now apply italic_in_style].
    exists "", " ". reflexivity.
  - exact Hi.
  - intros Hb. apply (contains_longer _ "font-style: italic; "); [|now apply italic_in_style].
    exists "", " italic; ". reflexivity.
  - exact Hcl.
  - apply color_in_style.
  - intros Hc. destruct (colon_in_style _ _ _ _ Hp weight_normal_colon Hc) as (p & Hx & Hq).
    style_cases Hq.
  - intros Hc. destruct (colon_in_style _ _ _ _ Hp style_normal_colon Hc) as (p & Hx & Hq).
    style_cases Hq.
Qed.

(** C7, as the code has it: for a run whose font name, size text and
    color text hold no colon, the style is the font family, the size when
    set, then [font-weight: bold; ] exactly when bold is true,
    [font-style: italic; ] exactly when italic is true and [color: c; ]
    exactly when the run has a color: the style contains the bold declaration
    iff bold is true, the italic one iff italic is true, a color declaration
    iff the run has a color, and never a [normal].  Such a run with bold true,
    italic false and no color gets [font-weight: bold;] and neither a
    font-style nor a color declaration. *)
Theorem C7_run_style_declarations (float_str : spec_float -> string) (run : RunData) :
  plain_values float_str run ->
  run_style float_str run =
    font_family_decl run ++ font_size_decl float_str run ++
    (if bool_decide (bold run = Some true) then "font-weight: bold; " else "") ++
    (if bool_decide (italic run = Some true) then "font-style: italic; " else "") ++
    (if str_truthy (color run) then "color: " ++ str_opt id (color run) ++ "; " else "") /\
  run_style_spec float_str run /\
  (bold run = Some true -> italic run = Some false -> color run = None ->
   contains "font-weight: bold;" (run_style float_str run) /\
   ~ declares "font-style" (run_style float_str run) /\
   ~ declares "color" (run_style float_str run)).
Proof.
  intros Hp. split; [|split].
  - unfold run_style, font_weight_decl, font_style_decl, color_decl, bool_truthy.
    destruct (bold run) as [[|]|]; destruct (italic run) as [[|]|]; reflexivity.
  - now apply run_style_meets_spec.
  - intros Hb Hi Hc.
    destruct (run_style_meets_spec float_str run Hp) as (H1 & _ & _ & H4 & H5 & _).
    split; [now apply H1|]. split.
    + intros Hd. apply H4 in Hd. congruence.
    + intros Hd. apply H5 in Hd. rewrite Hc in Hd. discriminate.
Qed.

Lemma C7_run_style_declarations_witness :
  plain_values Sample.float_str Sample.bold_run /\
  run_style Sample.float_str Sample.bold_run = "font-family: None; font-weight: bold; " /\
  contains "font-weight: bold;" (run_style Sample.float_str Sample.bold_run) /\
  ~ declares "font-style" (run_style Sample.float_str Sample.bold_run) /\
  ~ declares "color" (run_style Sample.float_str Sample.bold_run).
Proof.
  assert (Hp : plain_values Sample.float_str Sample.bold_run) by (repeat split).
  split; [exact Hp|]. split; [reflexivity|].
  exact (proj2 (proj2 (C7_run_style_declarations Sample.float_str Sample.bold_run Hp))
           eq_refl eq_refl eq_refl).
Defined.

(** C7 as stated fails: the font name of a run is copied into its style
    as it is.  A run that is not bold, not italic and has no color, with a
    font name that spells the three declarations, gets a style that contains
    [font-weight: bold;] and [font-style: italic;] and declares a color. *)
Lemma C7_counterexample :
  let style := run_style Sample.float_str Sample.spelled_run in
  bold Sample.spelled_run = Some false /\
  italic Sample.spelled_run = None /\
  color Sample.spelled_run = None /\
  style = "font-family: x; font-weight: bold; font-style: italic; color: red; " /\
  contains "font-weight: bold;" style /\
  contains "font-style: italic;" style /\
  declares "color" style /\
  ~ (contains "font-weight: bold;" style <-> bold Sample.spelled_run = Some true).
Proof.
  cbv zeta.
  split; [reflexivity|]. split; [reflexivity|]. split; [reflexivity|].
  split; [reflexivity|].
  assert (Hw : contains "font-weight: bold;"
                 (run_style Sample.float_str Sample.spelled_run)).
  { exists "font-family: x; ", " font-style: italic; color: red; ". reflexivity. }
  split; [exact Hw|]. split; [|split].
  - exists "font-family: x; font-weight: bold; ", " color: red; ". reflexivity.
  - exists "font-family: x; font-weight: bold; font-style: italic; ", " red; ". reflexivity.
  - intros [H _]. specialize (H Hw). discriminate.
Qed.

(** C9: the style of a run always starts with its font-family
    declaration, whatever the font name; a run without a font name gets the
    text [font-family: None; ], while a size, a weight, a slant and a color
    that are not set leave nothing in the style. *)
Theorem C9_font_family_always_declared (float_str : spec_float -> string) (run : RunData) :
  (exists rest, run_style float_str run =
                "font-family: " ++ str_opt id (font_name run) ++ "; " ++ rest) /\
  declares "font-family" (run_style float_str run) /\
  contains ("style='" ++ run_style float_str run ++ "'") (render_run float_str run) /\
  (font_name run = None ->
   contains "font-family: None;" (run_style float_str run) /\
   (font_size run = None -> bold run = None -> italic run = None -> color run = None ->
    run_style float_str run = "font-family: None; ")).
Proof.
  assert (Hrest : exists rest, run_style float_str run =
                    "font-family: " ++ str_opt id (font_name run) ++ "; " ++ rest).
  { eexists. unfold run_style, font_family_decl. rewrite !append_assoc. reflexivity. }
  split; [exact Hrest|]. split; [|split].
  - destruct Hrest as [rest ->]. exists "", (" " ++ str_opt id (font_name run) ++ "; " ++ rest).
    reflexivity.
  - unfold render_run. destruct (str_truthy (hyperlink run)).
    + exists ("<a href='" ++ str_opt id (hyperlink run) ++ "' "), (">" ++ text run ++ "</a>").
      rewrite !append_assoc. reflexivity.
    + exists "<span ", (">" ++ text run ++ "</span>"). rewrite !append_assoc. reflexivity.
  - intros Hn. split.
    + destruct Hrest as [rest ->]. rewrite Hn. exists "", (" " ++ rest). reflexivity.
    + intros Hs Hb Hi Hc.
      unfold run_style, font_family_decl, font_size_decl, font_weight_decl, font_style_decl,
        color_decl. rewrite Hn, Hs, Hb, Hi, Hc. reflexivity.
Qed.

Lemma C9_font_family_always_declared_witness :
  font_name Sample.bare_run = None /\
  contains "font-family: None;" (run_style Sample.float_str Sample.bare_run) /\
  run_style Sample.float_str Sample.bare_run = "font-family: None; ".
Proof.
  split; [reflexivity|].
  destruct (proj2 (proj2 (proj2 (C9_font_family_always_declared Sample.float_str Sample.bare_run)))
              eq_refl) as [Hc Hs].
  split; [exact Hc|]. exact (Hs eq_refl eq_refl eq_refl eq_refl).
Defined.

(** ** Fill colors *)

Lemma format_02x_two_digits (b : Byte.byte) :
  exists c1 c2 : ascii,
    format_02x b = String c1 (String c2 "") /\
    lower_hex_char c1 = true /\ lower_hex_char c2 = true.
Proof.
  exists (hex_digit (Byte.to_N b / 16)), (hex_digit (Byte.to_N b mod 16)).
  split; [reflexivity|]. destruct b; split; reflexivity.
Qed.

(** C2: a solid fill with an RGB color is extracted as its lowercase
    [#rrggbb] text and a BACKGROUND fill as [transparent], and both are
    rendered as such; a fill of any other type is extracted as [None] under a
    key that is always present, so [dict.get] never falls back on its default
    and the shape is rendered with [background-color: None;], not with
    [background-color: transparent;]. *)
Theorem C2_fill_color_rendered (shape : Shape) (w : world) :
  (forall r g b : Byte.byte,
     get_fill_color (with_fill shape (fill_object (Some SOLID) (Some (r, g, b)))) w =
       (Ret (Some ("#" ++ format_02x r ++ format_02x g ++ format_02x b)), w)) /\
  (forall c, get_fill_color (with_fill shape (fill_object (Some BACKGROUND) c)) w =
               (Ret (Some "transparent"), w)) /\
  Forall (fun t => forall c, get_fill_color (with_fill shape (fill_object t c)) w = (Ret None, w))
    [Some GRADIENT; Some PATTERNED; Some PICTURE_FILL; Some TEXTURED; Some GROUP_FILL; None] /\
  (forall b64encode shape_data w',
     extract_shape b64encode shape w = (Ret shape_data, w') -> fill_color shape_data <> None) /\
  (forall shape_data hex,
     fill_color shape_data = Some (Some hex) ->
     bg_color shape_data = "background-color: " ++ hex ++ ";") /\
  (forall shape_data,
     fill_color shape_data = Some None -> bg_color shape_data = "background-color: None;") /\
  (forall shape_data,
     fill_color shape_data = None -> bg_color shape_data = "background-color: transparent;") /\
  (forall r g b : Byte.byte,
     String.length (format_02x r ++ format_02x g ++ format_02x b) = 6%nat /\
     lower_hex (format_02x r ++ format_02x g ++ format_02x b) = true) /\
  format_02x Byte.xff ++ format_02x Byte.x00 ++ format_02x Byte.x0a = "ff000a" /\
  fst ((let* shape_data := extract_shape Sample.b64encode Sample.gradient_box in
        process_shape_data Sample.float_str Sample.b64decode Sample.pil_ok
          0 shape_data "out/images" 0 false) Sample.w0) =
    Ret ("<div class='absolute flex flex-col items-start justify-start' " ++
         "style='left:0.00%;top:0.00%;width:100.00%;height:100.00%;background-color: None;'></div>").
Proof.
  split; [|split; [|split; [|split; [|split; [|split; [|split; [|split; [|split]]]]]]]].
  - intros r g b. reflexivity.
  - intros c. reflexivity.
  - repeat constructor.
  - intros b64encode shape_data w' He. unfold extract_shape, bind, ret in He.
    repeat match type of He with
           | context [match ?m ?x with _ => _ end] => destruct (m x) as [[?|?] ?]; try discriminate
           end.
    injection He as <- _. discriminate.
  - intros shape_data hex Hf. unfold bg_color. now rewrite Hf.
  - intros shape_data Hf. unfold bg_color. now rewrite Hf.
  - intros shape_data Hf. unfold bg_color. now rewrite Hf.
  - intros r g b.
    destruct (format_02x_two_digits r) as (r1 & r2 & -> & Hr1 & Hr2).
    destruct (format_02x_two_digits g) as (g1 & g2 & -> & Hg1 & Hg2).
    destruct (format_02x_two_digits b) as (b1 & b2 & -> & Hb1 & Hb2).
    split; [reflexivity|]. cbv [String.append lower_hex].
    now rewrite Hr1, Hr2, Hg1, Hg2, Hb1, Hb2.
  - reflexivity.
  - vm_compute. reflexivity.
Qed.

(** ** The colors that extraction gives to the runs *)

Lemma colon_free_app (a b : string) : colon_free (a ++ b) = colon_free a && colon_free b.
Proof.
  induction a as [|c a IH]; [reflexivity|].
  change (String c a ++ b) with (String c (a ++ b)). cbn [colon_free].
  now rewrite IH, andb_assoc.
Qed.

Lemma lower_hex_char_no_colon (c : ascii) :
  lower_hex_char c = true -> Ascii.eqb c ":" = false.
Proof.
  destruct c as [[] [] [] [] [] [] [] []]; intros H; try reflexivity; discriminate H.
Qed.

Lemma format_02x_colon_free (b : Byte.byte) : colon_free (format_02x b) = true.
Proof.
  destruct (format_02x_two_digits b) as (c1 & c2 & -> & H1 & H2). cbn [colon_free].
  now rewrite (lower_hex_char_no_colon _ H1), (lower_hex_char_no_colon _ H2).
Qed.

Lemma rgb_to_hex_colon_free (c : option RGBColor) :
  colon_free (str_opt id (rgb_to_hex c)) = true.
Proof.
  destruct c as [[[r g] b]|]; [|reflexivity]. cbn [rgb_to_hex str_opt id].
  rewrite !colon_free_app, !format_02x_colon_free. reflexivity.
Qed.

Lemma color_to_hex_colon_free (c : option ColorFormat) (w w' : world) (hex : option string) :
  color_to_hex c w = (Ret hex, w') -> colon_free (str_opt id hex) = true.
Proof.
  unfold color_to_hex, bind, lift, ret, raise. intros H.
  destruct c as [c|]; [|injection H as <- _; reflexivity].
  destruct (rgb c) as [[v|]|e].
  - injection H as <- _. apply (rgb_to_hex_colon_free (Some v)).
  - injection H as <- _. reflexivity.
  - destruct (is_AttributeError e); [injection H as <- _; reflexivity | discriminate].
Qed.

(** The color of an extracted run is absent or is [#rrggbb]: it holds no
    colon, as [plain_values] asks. *)
Lemma extract_run_color_plain (run : Run) (w w' : world) (run_data : RunData) :
  extract_run run w = (Ret run_data, w') ->
  colon_free (str_opt id (color run_data)) = true.
Proof.
  unfold extract_run. intros H.
  repeat match type of H with
         | bind ?m ?k ?w0 = _ =>
             let o := fresh "o" in let w1 := fresh "w" in let E := fresh "E" in
             unfold bind at 1 in H; destruct (m w0) as [o w1] eqn:E;
             destruct o; [|discriminate H];
             try (apply color_to_hex_colon_free in E)
         end.
  injection H as <- _. cbn [color]. assumption.
Qed.

(** ** Pictures *)

Lemma picture_rendered_as_img
    (float_str : spec_float -> string) (b64decode : string -> outcome string)
    (pil_png : string -> string -> written string)
    (shape_index : nat) (shape_data : ShapeData) (image_dir : string) (slide_index : nat) :
  shape_type shape_data = Some PICTURE ->
  bounds_in_range shape_data ->
  picture_img_spec float_str b64decode pil_png shape_index shape_data image_dir slide_index.
Proof.
  intros Hp Hb.
  destruct (common_style_in_range shape_data Hb) as (hl & ht & hw & hh & Hs & _).
  eexists. split; [exact Hs|]. split; [reflexivity|]. split.
  - intros w. rewrite (render_picture _ _ _ _ _ _ _ true _ w Hp (Hs w)). reflexivity.
  - intros b64 image_bytes png w Hi Hd Hpng.
    rewrite (render_picture _ _ _ _ _ _ _ false _ w Hp (Hs w)).
    erewrite save_image_written by eassumption. reflexivity.
Qed.



(** C10: for a shape whose kind is Picture the picture branch is taken
    first: what the renderer returns and does is the same as for the record
    without its text frame and fill color, and when the image file is written
    (or image files are not written at all) the fragment is the [<img>]
    element alone. *)
Theorem C10_picture_branch_first
    (float_str : spec_float -> string) (b64decode : string -> outcome string)
    (pil_png : string -> string -> written string)
    (shape_index : nat) (shape_data : ShapeData) (image_dir : string) (slide_index : nat) :
  shape_type shape_data = Some PICTURE ->
  (forall ignore_images w,
     process_shape_data float_str b64decode pil_png shape_index shape_data image_dir slide_index
       ignore_images w =
     process_shape_data float_str b64decode pil_png shape_index (without_text_and_fill shape_data)
       image_dir slide_index ignore_images w) /\
  (bounds_in_range shape_data ->
   picture_img_spec float_str b64decode pil_png shape_index shape_data image_dir slide_index).
Proof.
  intros Hp. split.
  - intros ignore_images w. unfold process_shape_data, bind.
    change (common_style (without_text_and_fill shape_data)) with (common_style shape_data).
    destruct (common_style shape_data w) as [[style|e] w1]; [|reflexivity].
    cbn [shape_type without_text_and_fill].
    destruct (decide (shape_type shape_data = Some PICTURE)) as [_|Hn]; [|contradiction].
    reflexivity.
  - intros Hb. now apply picture_rendered_as_img.
Qed.

Lemma C10_picture_branch_first_witness :
  shape_type (Sample.picture 0) = Some PICTURE /\
  has_text_frame (Sample.picture 0) = true /\
  bounds_in_range (Sample.picture 0) /\
  picture_img_spec Sample.float_str Sample.b64decode Sample.pil_ok 1 (Sample.picture 0) "out/images" 0.
Proof.
  assert (Hb : bounds_in_range (Sample.picture 0))
    by (unfold bounds_in_range, emu_range; cbn; lia).
  split; [reflexivity|]. split; [reflexivity|]. split; [exact Hb|].
  exact (proj2 (C10_picture_branch_first Sample.float_str Sample.b64decode Sample.pil_ok
                  1 (Sample.picture 0) "out/images" 0 eq_refl) Hb).
Defined.

(** C5: the placeholder is given for an [OSError] only.  When writing
    image files is enabled and Pillow fails on a picture with the exception
    [e], then, if [e] is an [OSError] (or one of its subclasses), the renderer
    logs a warning and returns the placeholder paragraph that names the slide
    and the shape counted from one, and the rest of the slide is rendered
    after it; if [e] is any other exception, the renderer returns no
    placeholder and logs nothing: [e] leaves it, and the shapes that follow on
    the slide are not rendered.  Either way no file is touched but the one of
    the picture, which holds what the failed save has left of it.  A picture
    that Pillow refuses as a decompression bomb (not an [OSError]) makes the
    rendering of its slide raise, and the document is then written with no
    slide at all. *)
Theorem C5_placeholder_for_oserror_only
    (float_str : spec_float -> string) (b64decode : string -> outcome string)
    (pil_png : string -> string -> written string)
    (shape_index : nat) (shape_data : ShapeData) (image_dir : string) (slide_index : nat)
    (b64 image_bytes : string) (e : exn) (left_behind : option string) :
  shape_type shape_data = Some PICTURE ->
  bounds_in_range shape_data ->
  image shape_data = Some b64 ->
  b64decode b64 = Ret image_bytes ->
  pil_png image_bytes (path_join image_dir (image_filename slide_index shape_index)) =
    Failed e left_behind ->
  (is_OSError e = true ->
   placeholder_spec float_str b64decode pil_png shape_index shape_data image_dir slide_index
     e left_behind) /\
  (is_OSError e = false ->
   failure_escapes float_str b64decode pil_png shape_index shape_data image_dir slide_index
     e left_behind) /\
  is_OSError Sample.bomb = false /\
  fst (process_slide Sample.float_str Sample.b64decode Sample.pil_bomb
         [Sample.text_shape (Some None); Sample.picture 0] "out/images" 0 false Sample.w0) =
    Raise Sample.bomb /\
  files (snd (pptx_to_html Sample.float_str Sample.b64encode Sample.b64decode Sample.pil_bomb
                Sample.first_first Sample.fs_ok "deck.pptx" Sample.text_then_photo
                "out/deck.html" false Sample.w0)) !! "out/deck.html" =
    Some (assemble []).
Proof.
  intros Hp Hb Hi Hd Hpil.
  destruct (common_style_in_range shape_data Hb) as (hl & ht & hw & hh & Hs & _).
  assert (Hr : forall w,
    process_shape_data float_str b64decode pil_png shape_index shape_data image_dir slide_index false w =
      if is_OSError e
      then (Ret (image_failed_text slide_index shape_index),
            World (left_on_disk (path_join image_dir (image_filename slide_index shape_index))
                     left_behind w)
                  (log w ++ [(WARNING, image_failed_warning slide_index shape_index e)]))
      else (Raise e,
            World (left_on_disk (path_join image_dir (image_filename slide_index shape_index))
                     left_behind w) (log w))).
  { intros w. rewrite (render_picture _ _ _ _ _ _ _ false _ w Hp (Hs w)).
    erewrite save_image_failed by eassumption. now destruct (is_OSError e). }
  split; [|split; [|split; [reflexivity | split; vm_compute; reflexivity]]].
  - intros He. rewrite He in Hr. split; [exact Hr|]. split; [reflexivity|].
    intros rest w. cbn [process_shapes]. unfold bind at 1. rewrite Hr. reflexivity.
  - intros He. rewrite He in Hr. split; [exact Hr|].
    intros rest w. cbn [process_shapes]. unfold bind at 1. rewrite Hr. reflexivity.
Qed.

Lemma C5_placeholder_for_oserror_only_witness :
  (shape_type (Sample.picture 0) = Some PICTURE /\
   bounds_in_range (Sample.picture 0) /\
   is_OSError Sample.bomb = false /\
   failure_escapes Sample.float_str Sample.b64decode Sample.pil_bomb
     1 (Sample.picture 0) "out/images" 0 Sample.bomb None) /\
  (is_OSError Sample.truncated = true /\
   placeholder_spec Sample.float_str Sample.b64decode Sample.pil_truncated
     1 (Sample.picture 0) "out/images" 0 Sample.truncated (Some "")).
Proof.
  assert (Hb : bounds_in_range (Sample.picture 0))
    by (unfold bounds_in_range, emu_range; cbn; lia).
  split.
  - split; [reflexivity|]. split; [exact Hb|]. split; [reflexivity|].
    exact (proj1 (proj2 (C5_placeholder_for_oserror_only Sample.float_str Sample.b64decode
                           Sample.pil_bomb 1 (Sample.picture 0) "out/images" 0 _ _ _ _
                           eq_refl Hb eq_refl eq_refl eq_refl)) eq_refl).
  - split; [reflexivity|].
    exact (proj1 (C5_placeholder_for_oserror_only Sample.float_str Sample.b64decode
                    Sample.pil_truncated 1 (Sample.picture 0) "out/images" 0 _ _ _ _
                    eq_refl Hb eq_refl eq_refl eq_refl) eq_refl).
Defined.

(** ** Extraction *)

Lemma effect_free_ret {A} (a : A) : effect_free (ret a).
Proof. exists (Ret a). reflexivity. Qed.

Lemma effect_free_raise {A} (e : exn) : effect_free (@raise A e).
Proof. exists (Raise e). reflexivity. Qed.

Lemma effect_free_lift {A} (o : outcome A) : effect_free (lift o).
Proof. exists o. reflexivity. Qed.

Lemma effect_free_bind {A B} (m : M A) (k : A -> M B) :
  effect_free m -> (forall a, effect_free (k a)) -> effect_free (bind m k).
Proof.
  intros [o Ho] Hk. destruct o as [a|e].
  - destruct (Hk a) as [o' Ho']. exists o'. intros w. unfold bind. now rewrite Ho, Ho'.
  - exists (Raise e). intros w. unfold bind. now rewrite Ho.
Qed.

Lemma effect_free_mapM {A B} (f : A -> M B) (l : list A) :
  (forall x, effect_free (f x)) -> effect_free (mapM f l).
Proof.
  intros Hf. induction l as [|x l IH]; cbn [mapM].
  - apply effect_free_ret.
  - apply effect_free_bind; [apply Hf|]. intros y.
    apply effect_free_bind; [exact IH|]. intros ys. apply effect_free_ret.
Qed.

Create HintDb reads.
#[local] Hint Resolve effect_free_ret effect_free_raise effect_free_lift : reads.

Ltac reads :=
  repeat first
    [ solve [eauto with reads nocore]
    | apply effect_free_mapM; intros ?
    | apply effect_free_bind; [|intros ?]
    | match goal with
      | |- effect_free (match ?x with _ => _ end) => destruct x
      | |- effect_free (if ?x then _ else _) => destruct x
      end ].

Lemma effect_free_color_to_hex (c : option ColorFormat) : effect_free (color_to_hex c).
Proof. unfold color_to_hex. reads. Qed.
#[local] Hint Resolve effect_free_color_to_hex : reads.

Lemma effect_free_extract_run (run : Run) : effect_free (extract_run run).
Proof. unfold extract_run. reads. Qed.
#[local] Hint Resolve effect_free_extract_run : reads.

Lemma effect_free_extract_paragraph (p : Paragraph) : effect_free (extract_paragraph p).
Proof. unfold extract_paragraph. reads. Qed.
#[local] Hint Resolve effect_free_extract_paragraph : reads.

Lemma effect_free_read_text_frame (tf : TextFrame) : effect_free (read_text_frame tf).
Proof. unfold read_text_frame. reads. Qed.

Lemma bind_ext {A B} (m : M A) (k k' : A -> M B) (w : world) :
  (forall a w', k a w' = k' a w') -> bind m k w = bind m k' w.
Proof.
  intros Hk. unfold bind. destruct (m w) as [[a|e] w']; [apply Hk | reflexivity].
Qed.

Lemma mapM_app {A B} (f : A -> M B) (l1 l2 : list A) (w : world) :
  mapM f (l1 ++ l2)%list w =
  (let* a := mapM f l1 in let* b := mapM f l2 in ret (a ++ b)%list) w.
Proof.
  revert w. induction l1 as [|x l1 IH]; intros w.
  - cbn [app mapM]. unfold bind, ret. cbn.
    destruct (mapM f l2 w) as [[b|e] w']; reflexivity.
  - cbn [app mapM]. unfold bind, ret in *. destruct (f x w) as [[y|e] w1]; [|reflexivity].
    rewrite IH.
    destruct (mapM f l1 w1) as [[a|e] w2]; [|reflexivity].
    destruct (mapM f l2 w2) as [[b|e] w3]; reflexivity.
Qed.

Lemma mapM_middle {A B} (f : A -> M B) (l1 : list A) (x : A) (l2 : list A) (w : world) :
  mapM f (l1 ++ x :: l2)%list w =
  (let* a := mapM f l1 in let* r := f x in let* b := mapM f l2 in ret (a ++ r :: b)%list) w.
Proof.
  rewrite mapM_app. unfold bind, ret. destruct (mapM f l1 w) as [[a|e] w1]; [|reflexivity].
  cbn [mapM]. unfold bind, ret. destruct (f x w1) as [[r|e] w2]; [|reflexivity].
  destruct (mapM f l2 w2) as [[b|e] w3]; reflexivity.
Qed.

Lemma extract_text_frame_total (tf : TextFrame) (w : world) :
  exists ps w', extract_text_frame tf w = (Ret ps, w').
Proof.
  unfold extract_text_frame, try_except.
  destruct (read_text_frame tf w) as [[ps|e] w']; [eauto|].
  unfold bind, logging, ret. eauto.
Qed.

Lemma extract_text_frame_failed (tf : TextFrame) (e : exn) (w0 : world) :
  fst (read_text_frame tf w0) = Raise e ->
  forall w, extract_text_frame tf w = (Ret [], with_warning w e).
Proof.
  intros Hf w. destruct (effect_free_read_text_frame tf) as [o Ho].
  rewrite Ho in Hf. cbn [fst] in Hf. subst o.
  unfold extract_text_frame, try_except. rewrite Ho. reflexivity.
Qed.

Lemma extract_shape_failed_text (b64encode : string -> string) (shape : Shape) (e : exn)
    (w0 : world) :
  shape_has_text_frame shape = true ->
  fst (read_text_frame (shape_text_frame shape) w0) = Raise e ->
  forall w, extract_shape b64encode shape w =
            extract_shape b64encode (with_empty_text_frame shape) (with_warning w e).
Proof.
  intros Ht Hf w. unfold extract_shape.
  cbn [with_empty_text_frame shape_has_text_frame shape_text_frame shape_image
       shape_shape_type shape_left shape_top shape_width shape_height].
  change (is_picture (with_empty_text_frame shape)) with (is_picture shape).
  change (get_fill_color (with_empty_text_frame shape)) with (get_fill_color shape).
  rewrite Ht. unfold bind at 1 2. unfold bind at 5 6.
  rewrite (extract_text_frame_failed _ _ _ Hf w).
  reflexivity.
Qed.

Lemma extract_shape_text_frame (b64encode : string -> string) (shape : Shape)
    (w w' : world) (shape_data : ShapeData) :
  shape_has_text_frame shape = true ->
  shape_text_frame shape = {| paragraphs := Ret [] |} ->
  extract_shape b64encode shape w = (Ret shape_data, w') ->
  text_frame shape_data = Some [].
Proof.
  intros Ht Hf He. unfold extract_shape in He. rewrite Ht, Hf in He.
  unfold bind, ret in He.
  change (extract_text_frame {| paragraphs := Ret [] |} w) with (Ret (@nil ParagraphData), w) in He.
  cbn iota beta in He.
  repeat match type of He with
         | context [match ?m ?x with _ => _ end] => destruct (m x) as [[?|?] ?]; try discriminate
         end.
  injection He as <- _. reflexivity.
Qed.

(** C8: [extract_text_frame] never raises; when reading the text frame of
    a shape raises an exception, the extractor logs a warning, takes the empty
    list as the paragraphs of that shape, and goes on with the other fields of
    the shape, the remaining shapes of the slide and the remaining slides as
    it does for a shape with an empty text frame. *)
Theorem C8_text_frame_failure_recovered (b64encode : string -> string)
    (slides_before : list Slide) (shapes_before : list Shape) (shape : Shape)
    (shapes_after : list Shape) (slides_after : list Slide) (e : exn) (w0 : world) :
  shape_has_text_frame shape = true ->
  fst (read_text_frame (shape_text_frame shape) w0) = Raise e ->
  (forall tf w, exists ps w', extract_text_frame tf w = (Ret ps, w')) /\
  text_failure_recovered b64encode slides_before shapes_before shape shapes_after slides_after e.
Proof.
  intros Ht Hf. split; [exact extract_text_frame_total|].
  pose proof (extract_shape_failed_text b64encode shape e w0 Ht Hf) as Hs.
  split; [exact (extract_text_frame_failed _ _ _ Hf)|].
  split; [exact Hs|]. split; [|split].
  - intros w shape_data w' He. rewrite Hs in He.
    eapply extract_shape_text_frame; [| |exact He]; [exact Ht | reflexivity].
  - intros w. unfold extract_slide_data. rewrite mapM_middle.
    apply bind_ext. intros a w1.
    transitivity (let (o, w') := extract_shape b64encode shape w1 in
                  match o with
                  | Ret r => (let* b := mapM (extract_shape b64encode) shapes_after in
                              ret (a ++ r :: b)%list) w'
                  | Raise e' => (Raise e', w')
                  end); [reflexivity|].
    rewrite Hs. reflexivity.
  - intros w. apply mapM_middle.
Qed.

Lemma C8_text_frame_failure_recovered_witness :
  shape_has_text_frame Sample.broken_box = true /\
  fst (read_text_frame (shape_text_frame Sample.broken_box) Sample.w0) =
    Raise (Exn ValueError "malformed paragraph properties") /\
  text_failure_recovered Sample.b64encode [[Sample.plain_box]] [Sample.plain_box]
    Sample.broken_box
    [Sample.gradient_box] [[Sample.plain_box]]
    (Exn ValueError "malformed paragraph properties").
Proof.
  split; [reflexivity|]. split; [reflexivity|].
  exact (proj2 (C8_text_frame_failure_recovered Sample.b64encode [[Sample.plain_box]]
                  [Sample.plain_box]
                  Sample.broken_box
                  [Sample.gradient_box] [[Sample.plain_box]]
                  (Exn ValueError "malformed paragraph properties") Sample.w0 eq_refl eq_refl)).
Defined.

(** ** The worker pool *)

Section PoolFacts.

Context {A B : Type}.
Variable f : A -> M B.

Lemma elem_of_delete_other {T} (x y : T) (l : list T) (k : nat) :
  x ∈ l -> l !! k = Some y -> x <> y -> x ∈ delete k l.
Proof.
  intros Hx Hk Hne. apply list_elem_of_lookup_1 in Hx as [j Hj].
  destruct (decide (j < k)%nat) as [Hlt | Hge].
  - apply (list_elem_of_lookup_2 _ j). now rewrite list_lookup_delete_lt.
  - assert (j <> k) by (intros ->; congruence).
    apply (list_elem_of_lookup_2 _ (Nat.pred j)).
    rewrite list_lookup_delete_ge by lia.
    replace (S (Nat.pred j)) with j by lia. exact Hj.
Qed.

Lemma pick_pending (sched : nat -> nat) (step n : nat) (pending : list (nat * A)) :
  length pending = S n ->
  exists i a, pending !! (sched step mod length pending)%nat = Some (i, a).
Proof.
  intros Hl.
  destruct (lookup_lt_is_Some_2 pending (sched step mod length pending)%nat) as [[i a] H].
  - apply Nat.mod_upper_bound. lia.
  - eauto.
Qed.

(** When no task raises, the pool ends with the value of every task stored
    at the index of the task, whatever the order of completion. *)
Lemma pool_run_values (vals : list B) (sched : nat -> nat) (n : nat) :
  forall (step : nat) (pending : list (nat * A)) (st : pool_state) (w : world),
    length pending = n ->
    failure st = None ->
    length (results st) = length vals ->
    (forall i a, (i, a) ∈ pending ->
       exists b, vals !! i = Some b /\ forall w', fst (f a w') = Ret b) ->
    (forall j b, vals !! j = Some b -> j ∉ pending.*1 -> results st !! j = Some (Some b)) ->
    exists st' w',
      pool_run f sched step n pending st w = (Ret st', w') /\
      failure st' = None /\ results st' = Some <$> vals.
Proof.
  induction n as [|n IH]; intros step pending st w Hlen Hf Hres Htasks Hdone.
  - exists st, w. split; [reflexivity|]. split; [exact Hf|].
    destruct pending; [|discriminate].
    apply list_eq. intros j. rewrite list_lookup_fmap.
    destruct (vals !! j) as [b|] eqn:Hv.
    + rewrite (Hdone j b Hv); [reflexivity|]. cbn. apply not_elem_of_nil.
    + cbn. apply lookup_ge_None. apply lookup_ge_None in Hv. lia.
  - destruct (pick_pending sched step n pending Hlen) as (i & a & Hk).
    cbn [pool_run]. rewrite Hk.
    assert (Hin : (i, a) ∈ pending) by (eapply list_elem_of_lookup_2; exact Hk).
    destruct (Htasks i a Hin) as (b & Hvi & Hfa).
    specialize (Hfa w). destruct (f a w) as [o w1]. cbn [fst] in Hfa. subst o.
    unfold complete. rewrite Hf.
    apply IH.
    + rewrite length_delete by eauto. lia.
    + reflexivity.
    + cbn [results]. now rewrite length_insert.
    + intros i' a' Hin'. apply Htasks. eapply list_elem_of_delete_inv. exact Hin'.
    + intros j b' Hvj Hnot. cbn [results].
      destruct (decide (j = i)) as [-> | Hne].
      * rewrite list_lookup_insert_eq by (rewrite Hres; eapply lookup_lt_Some; exact Hvi).
        congruence.
      * rewrite list_lookup_insert_ne by congruence.
        apply Hdone; [exact Hvj|]. intros Hj.
        apply list_elem_of_fmap in Hj as ([j' a'] & Hjj & Hja). cbn in Hjj. subst j'.
        apply Hnot. apply list_elem_of_fmap. exists (j, a'). split; [reflexivity|].
        eapply elem_of_delete_other; [exact Hja | exact Hk | congruence].
Qed.

(** When a task raises, the pool ends with an exception, whatever the
    order of completion. *)
Lemma pool_run_raises (sched : nat -> nat) (n : nat) :
  forall (step : nat) (pending : list (nat * A)) (st : pool_state) (w : world),
    length pending = n ->
    (is_Some (failure st) \/
     exists i a e, (i, a) ∈ pending /\ forall w', fst (f a w') = Raise e) ->
    exists st' w',
      pool_run f sched step n pending st w = (Ret st', w') /\ is_Some (failure st').
Proof.
  induction n as [|n IH]; intros step pending st w Hlen Hfail.
  - exists st, w. split; [reflexivity|].
    destruct Hfail as [Hs | (i & a & e & Hin & _)]; [exact Hs|].
    destruct pending; [|discriminate]. now apply not_elem_of_nil in Hin.
  - destruct (pick_pending sched step n pending Hlen) as (i & a & Hk).
    cbn [pool_run]. rewrite Hk. destruct (f a w) as [o w1] eqn:Hfa.
    apply IH; [rewrite length_delete by eauto; lia|].
    unfold complete.
    destruct (failure st) as [e0|] eqn:Hst.
    { left. rewrite Hst. eauto. }
    destruct o as [b|e1].
    + right. destruct Hfail as [[e0 He0] | (i0 & a0 & e & Hin & Hraise)]; [discriminate|].
      exists i0, a0, e. split; [|exact Hraise].
      eapply elem_of_delete_other; [exact Hin | exact Hk |].
      intros Heq. injection Heq as -> ->.
      specialize (Hraise w). rewrite Hfa in Hraise. discriminate.
    + left. cbn. eauto.
Qed.

Lemma omap_id_Some (l : list B) : omap id (Some <$> l) = l.
Proof. induction l as [|x l IH]; cbn; [reflexivity | now rewrite IH]. Qed.

Lemma elem_of_imap_pair (tasks : list A) (i : nat) (a : A) :
  (i, a) ∈ imap pair tasks <-> tasks !! i = Some a.
Proof.
  split.
  - intros Hin. apply list_elem_of_lookup_1 in Hin as [j Hj].
    rewrite list_lookup_imap in Hj. destruct (tasks !! j) as [a'|] eqn:Ht; [|discriminate].
    cbn in Hj. injection Hj as -> ->. exact Ht.
  - intros Ht. apply (list_elem_of_lookup_2 _ i). rewrite list_lookup_imap, Ht. reflexivity.
Qed.

Lemma starmap_values (tasks : list A) (vals : list B) (sched : nat -> nat) (w : world) :
  length vals = length tasks ->
  (forall i a b, tasks !! i = Some a -> vals !! i = Some b -> forall w', fst (f a w') = Ret b) ->
  exists w', starmap f tasks sched w = (Ret vals, w').
Proof.
  intros Hlen Hvals. unfold starmap, bind.
  destruct (pool_run_values vals sched (length tasks) 0 (imap pair tasks)
              (PoolState (replicate (length tasks) None) None) w) as (st' & w' & Hrun & Hf & Hr).
  - apply length_imap.
  - reflexivity.
  - cbn. rewrite length_replicate. lia.
  - intros i a Hin. apply elem_of_imap_pair in Hin.
    destruct (lookup_lt_is_Some_2 vals i) as [b Hb].
    { rewrite Hlen. eapply lookup_lt_Some. exact Hin. }
    exists b. split; [exact Hb|]. eauto.
  - intros j b Hv Hnot. exfalso. apply Hnot.
    destruct (lookup_lt_is_Some_2 tasks j) as [a Ha].
    { rewrite <- Hlen. eapply lookup_lt_Some. exact Hv. }
    apply list_elem_of_fmap. exists (j, a). split; [reflexivity|].
    now apply elem_of_imap_pair.
  - rewrite Hrun, Hf, Hr, omap_id_Some. eexists. reflexivity.
Qed.

Lemma starmap_raises (tasks : list A) (sched : nat -> nat) (w : world) :
  (exists i a e, tasks !! i = Some a /\ forall w', fst (f a w') = Raise e) ->
  exists e' w', starmap f tasks sched w = (Raise e', w').
Proof.
  intros (i & a & e & Ht & Hraise). unfold starmap, bind.
  destruct (pool_run_raises sched (length tasks) 0 (imap pair tasks)
              (PoolState (replicate (length tasks) None) None) w) as (st' & w' & Hrun & [e' He']).
  - apply length_imap.
  - right. exists i, a, e. split; [|exact Hraise]. now apply elem_of_imap_pair.
  - rewrite Hrun, He'. eexists _, _. reflexivity.
Qed.

End PoolFacts.

(** ** The schedulers cover every order of completion *)

Section Schedulers.

Context {A B : Type}.

Lemma pool_run_in_order (f : A -> M B) (sched : nat -> nat) (n : nat) :
  forall (step : nat) (pending : list (nat * A)) (st : pool_state) (w : world),
    pool_run f sched step n pending st w =
    (let (st', w') := run_in_order f (completion_order sched step n pending) st w in
     (Ret st', w')).
Proof.
  induction n as [|n IH]; intros step pending st w; [reflexivity|].
  cbn [pool_run completion_order].
  destruct (pending !! (sched step mod length pending)%nat) as [[i a]|]; [|reflexivity].
  cbn [run_in_order]. destruct (f a w) as [o w1]. apply IH.
Qed.

Lemma completion_order_ext (sched sched' : nat -> nat) (n : nat) :
  forall (step : nat) (pending : list (nat * A)),
    (forall s, (step <= s)%nat -> sched s = sched' s) ->
    completion_order sched step n pending = completion_order sched' step n pending.
Proof.
  induction n as [|n IH]; intros step pending Hs; [reflexivity|].
  cbn [completion_order]. rewrite (Hs step) by lia.
  destruct (pending !! (sched' step mod length pending)%nat); [|reflexivity].
  f_equal. apply IH. intros s Hle. apply Hs. lia.
Qed.

(** Every order of the pending tasks is the order of completion of some
    scheduler. *)
Lemma every_order_is_scheduled (order : list (nat * A)) :
  forall (pending : list (nat * A)) (step : nat),
    order ≡ₚ pending ->
    exists sched, completion_order sched step (length pending) pending = order.
Proof.
  induction order as [|x order IH]; intros pending step Hp.
  - apply Permutation_nil_l in Hp as <-. exists (fun _ => O). reflexivity.
  - assert (Hx : x ∈ pending) by (rewrite <- Hp; apply list_elem_of_here).
    apply list_elem_of_lookup_1 in Hx as [k Hk].
    pose proof (lookup_lt_Some _ _ _ Hk) as Hlt.
    assert (Hrest : order ≡ₚ delete k pending).
    { apply (Permutation.Permutation_cons_inv (a := x)).
      rewrite Hp. now apply delete_Permutation. }
    destruct (IH (delete k pending) (S step) Hrest) as [sched' Hs'].
    exists (fun s => if decide (s = step) then k else sched' s).
    destruct (length pending) as [|n] eqn:Hlen; [lia|].
    cbn [completion_order]. rewrite decide_True by reflexivity.
    rewrite Hlen, Nat.mod_small by lia. rewrite Hk. f_equal.
    rewrite <- Hs'. rewrite length_delete by eauto. rewrite Hlen. cbn [Nat.sub].
    replace (n - 0)%nat with n by lia.
    apply completion_order_ext. intros s Hle. rewrite decide_False by lia. reflexivity.
Qed.

End Schedulers.

(** ** Outcomes that do not depend on the world *)

Lemma steady_transfer {A} (m : M A) (w : world) (o : outcome A) :
  steady m -> fst (m w) = o -> outcome_fixed m o.
Proof. intros [o' Ho] Hw w'. rewrite <- Hw, !Ho. reflexivity. Qed.

Lemma effect_free_steady {A} (m : M A) : effect_free m -> steady m.
Proof. intros [o Ho]. exists o. intros w. now rewrite Ho. Qed.

Lemma steady_ret {A} (a : A) : steady (ret a).
Proof. exists (Ret a). intros w. reflexivity. Qed.

Lemma steady_raise {A} (e : exn) : steady (@raise A e).
Proof. exists (Raise e). intros w. reflexivity. Qed.

Lemma steady_lift {A} (o : outcome A) : steady (lift o).
Proof. exists o. intros w. reflexivity. Qed.

Lemma steady_logging (lvl : log_level) (msg : string) : steady (logging lvl msg).
Proof. exists (Ret tt). intros w. reflexivity. Qed.

Lemma steady_write_file (path data : string) : steady (write_file path data).
Proof. exists (Ret tt). intros w. reflexivity. Qed.

Lemma steady_fail_writing {A} (path : string) (e : exn) (left_behind : option string) :
  steady (@fail_writing A path e left_behind).
Proof. exists (Raise e). intros w. now destruct left_behind. Qed.

Lemma steady_bind {A B} (m : M A) (k : A -> M B) :
  steady m -> (forall a, steady (k a)) -> steady (bind m k).
Proof.
  intros [o Ho] Hk. destruct o as [a|e].
  - destruct (Hk a) as [o' Ho']. exists o'. intros w. unfold bind.
    specialize (Ho w). destruct (m w) as [o1 w1]. cbn in Ho. subst o1. apply Ho'.
  - exists (Raise e). intros w. unfold bind.
    specialize (Ho w). destruct (m w) as [o1 w1]. cbn in Ho. subst o1. reflexivity.
Qed.

Lemma steady_try_except {A} (m : M A) (handles : exn -> bool) (h : exn -> M A) :
  steady m -> (forall e, steady (h e)) -> steady (try_except m handles h).
Proof.
  intros [o Ho] Hh. destruct o as [a|e].
  - exists (Ret a). intros w. unfold try_except.
    specialize (Ho w). destruct (m w) as [o1 w1]. cbn in Ho. subst o1. reflexivity.
  - destruct (handles e) eqn:He.
    + destruct (Hh e) as [o' Ho']. exists o'. intros w. unfold try_except.
      specialize (Ho w). destruct (m w) as [o1 w1]. cbn in Ho. subst o1. rewrite He. apply Ho'.
    + exists (Raise e). intros w. unfold try_except.
      specialize (Ho w). destruct (m w) as [o1 w1]. cbn in Ho. subst o1. now rewrite He.
Qed.

Lemma steady_mapM {A B} (f : A -> M B) (l : list A) :
  (forall x, steady (f x)) -> steady (mapM f l).
Proof.
  intros Hf. induction l as [|x l IH]; cbn [mapM].
  - apply steady_ret.
  - apply steady_bind; [apply Hf|]. intros y.
    apply steady_bind; [exact IH|]. intros ys. apply steady_ret.
Qed.

Create HintDb steady.
#[local] Hint Resolve steady_ret steady_raise steady_lift steady_logging
  steady_write_file steady_fail_writing : steady.

Ltac steady :=
  repeat first
    [ solve [eauto with steady nocore]
    | apply steady_mapM; intros ?
    | apply steady_try_except; [|intros ?]
    | apply steady_bind; [|intros ?]
    | match goal with
      | |- steady (match ?x with _ => _ end) => destruct x
      | |- steady (if ?x then _ else _) => destruct x
      end ].

Section SteadyRender.

Variable float_str : spec_float -> string.
Variable b64decode : string -> outcome string.
Variable pil_png : string -> string -> written string.

Lemma steady_process_shape_data (shape_index : nat) (shape_data : ShapeData)
    (image_dir : string) (slide_index : nat) (ignore_images : bool) :
  steady (process_shape_data float_str b64decode pil_png shape_index shape_data image_dir
            slide_index ignore_images).
Proof. unfold process_shape_data, common_style, save_image. steady. Qed.

Lemma steady_process_shapes (slide_data : list ShapeData) (image_dir : string)
    (slide_index : nat) (ignore_images : bool) :
  forall shape_index,
    steady (process_shapes float_str b64decode pil_png shape_index slide_data image_dir
              slide_index ignore_images).
Proof.
  induction slide_data as [|shape_data rest IH]; intros shape_index; cbn [process_shapes].
  - apply steady_ret.
  - apply steady_bind; [apply steady_process_shape_data|]. intros fragment.
    apply steady_bind; [apply IH|]. intros fragments. apply steady_ret.
Qed.

Lemma steady_process_slide (slide_data : list ShapeData) (image_dir : string)
    (slide_index : nat) (ignore_images : bool) :
  steady (process_slide float_str b64decode pil_png slide_data image_dir slide_index ignore_images).
Proof.
  unfold process_slide. apply steady_bind; [apply steady_process_shapes|].
  intros fragments. apply steady_ret.
Qed.

End SteadyRender.

Lemma steady_extract_text_frame (tf : TextFrame) : steady (extract_text_frame tf).
Proof.
  unfold extract_text_frame. apply steady_try_except.
  - apply effect_free_steady, effect_free_read_text_frame.
  - intros e. steady.
Qed.

Lemma steady_get_fill_color (shape : Shape) : steady (get_fill_color shape).
Proof. unfold get_fill_color. steady. Qed.

Lemma steady_extract_shape (b64encode : string -> string) (shape : Shape) :
  steady (extract_shape b64encode shape).
Proof.
  unfold extract_shape.
  apply steady_bind.
  { destruct (shape_has_text_frame shape); [|apply steady_ret].
    apply steady_bind; [apply steady_extract_text_frame | intros; apply steady_ret]. }
  intros tf. apply steady_bind; [steady|]. intros img.
  apply steady_bind; [steady|]. intros fmt.
  apply steady_bind; [apply steady_get_fill_color|]. intros fc. apply steady_ret.
Qed.

Lemma steady_extract_slides (b64encode : string -> string) (prs : Presentation) :
  steady (mapM (extract_slide_data b64encode) prs).
Proof.
  apply steady_mapM. intros slide. unfold extract_slide_data.
  apply steady_mapM. intros shape. apply steady_extract_shape.
Qed.

(** ** The document *)

Section Document.

Variable float_str : spec_float -> string.
Variable b64encode : string -> string.
Variable b64decode : string -> outcome string.
Variable pil_png : string -> string -> written string.
Variable sched : nat -> nat.
Variable write_text : string -> string -> written unit.

Abbreviation slide_outcome image_dir ignore_images w i data :=
  (fst (process_slide float_str b64decode pil_png data image_dir i ignore_images w)).

Lemma slide_tasks_lookup (slide_data_list : list (list ShapeData)) (image_dir : string)
    (i : nat) (a : list ShapeData * string * nat) :
  imap (fun idx data => (data, image_dir, idx)) slide_data_list !! i = Some a ->
  exists data, slide_data_list !! i = Some data /\ a = (data, image_dir, i).
Proof.
  rewrite list_lookup_imap. destruct (slide_data_list !! i) as [data|]; [|discriminate].
  cbn. intros [= <-]. eauto.
Qed.

Lemma render_slides_in_order (slide_data_list : list (list ShapeData)) (contents : list string)
    (image_dir : string) (ignore_images : bool) (w0 w : world) :
  length contents = length slide_data_list ->
  (forall i data c, slide_data_list !! i = Some data -> contents !! i = Some c ->
     slide_outcome image_dir ignore_images w0 i data = Ret c) ->
  exists w', render_slides float_str b64decode pil_png sched slide_data_list image_dir
               ignore_images w = (Ret contents, w').
Proof.
  intros Hlen Hc. unfold render_slides, try_except.
  destruct (starmap_values (slide_task float_str b64decode pil_png ignore_images)
              (imap (fun idx data => (data, image_dir, idx)) slide_data_list)
              contents sched w) as [w' Hs].
  - now rewrite length_imap.
  - intros i a c Ha Hci. apply slide_tasks_lookup in Ha as (data & Hd & ->).
    apply (steady_transfer _ w0); [apply steady_process_slide|]. now apply Hc.
  - rewrite Hs. eauto.
Qed.

Lemma render_slides_all_lost (slide_data_list : list (list ShapeData))
    (image_dir : string) (ignore_images : bool) (w0 w : world) :
  (exists i data e, slide_data_list !! i = Some data /\
     slide_outcome image_dir ignore_images w0 i data = Raise e) ->
  exists e' w1,
    render_slides float_str b64decode pil_png sched slide_data_list image_dir ignore_images w =
      (Ret [], World (files w1) (log w1 ++ [(ERROR, render_error e')])).
Proof.
  intros (i & data & e & Hd & He). unfold render_slides, try_except.
  destruct (starmap_raises (slide_task float_str b64decode pil_png ignore_images)
              (imap (fun idx data => (data, image_dir, idx)) slide_data_list) sched w)
    as (e' & w1 & Hs).
  - exists i, (data, image_dir, i), e. split.
    + rewrite list_lookup_imap, Hd. reflexivity.
    + apply (steady_transfer _ w0); [apply steady_process_slide | exact He].
  - rewrite Hs. exists e', w1. reflexivity.
Qed.

(** What the last statement does, for a file that is written and for one
    that is not. *)
Lemma write_document_outcome (output_file document : string) (w : world) :
  write_document write_text output_file document w =
    match write_text output_file document with
    | Written _ => (Ret tt, World (<[output_file := document]> (files w)) (log w))
    | Failed e left_behind => (Raise e, World (left_on_disk output_file left_behind w) (log w))
    end.
Proof.
  unfold write_document. destruct (write_text output_file document) as [[]|e [part|]];
    try reflexivity.
  now destruct w.
Qed.

Lemma write_document_ends (output_file document : string) (w : world) :
  ends_writing write_text output_file document
    (write_document write_text output_file document w).
Proof.
  unfold ends_writing. rewrite write_document_outcome.
  destruct (write_text output_file document) as [[]|e left_behind]; [|reflexivity].
  split; [reflexivity|]. cbn [snd files]. apply lookup_insert_eq.
Qed.

Lemma write_document_log (output_file document : string) (w : world) :
  log (snd (write_document write_text output_file document w)) = log w.
Proof.
  rewrite write_document_outcome.
  now destruct (write_text output_file document) as [[]|e left_behind].
Qed.

(** The document that [pptx_to_html] writes, from the slide records and
    what the pool returns for them. *)
Lemma pptx_to_html_writes (pptx_file : string) (prs : Presentation) (output_file : string)
    (ignore_images : bool) (w : world) (slide_data_list : list (list ShapeData)) :
  fst (mapM (extract_slide_data b64encode) prs w) = Ret slide_data_list ->
  forall contents w2,
    render_slides float_str b64decode pil_png sched slide_data_list
      (path_join (dirname output_file) "images") ignore_images
      (before_rendering b64encode pptx_file prs w) = (Ret contents, w2) ->
    pptx_to_html float_str b64encode b64decode pil_png sched write_text pptx_file prs output_file
      ignore_images w =
      write_document write_text output_file (assemble contents)
        (World (files w2) (log w2 ++ [(INFO, "Writing HTML content to " ++ output_file)])).
Proof.
  intros He contents w2.
  pose proof (steady_transfer _ _ _ (steady_extract_slides b64encode prs) He) as Hx.
  unfold pptx_to_html, before_rendering, bind, logging. cbn [files log].
  match goal with
  | |- context [mapM (extract_slide_data b64encode) prs ?w1] =>
      specialize (Hx w1); destruct (mapM (extract_slide_data b64encode) prs w1) as [o w1']
  end.
  cbn [fst snd] in *. subst o. cbn [files log].
  intros Hr. rewrite Hr. reflexivity.
Qed.

End Document.






(** ** Texts of numbers and paths *)

Lemma append_cons (c : ascii) (a b : string) : String c a ++ b = String c (a ++ b).
Proof. reflexivity. Qed.

Lemma append_inv_head (d x y : string) : d ++ x = d ++ y -> x = y.
Proof.
  induction d as [|c d IH]; [trivial|].
  rewrite !append_cons. intros [= H]. now apply IH.
Qed.

Lemma string_of_uint_digits (d : Decimal.uint) :
  digits_only (NilEmpty.string_of_uint d) = true.
Proof. induction d; cbn [NilEmpty.string_of_uint digits_only]; try rewrite IHd; reflexivity. Qed.

Lemma str_nat_digits (n : nat) : digits_only (str_nat n) = true.
Proof.
  unfold str_nat, NilZero.string_of_uint.
  destruct (Nat.to_uint n); try apply string_of_uint_digits. reflexivity.
Qed.

Lemma to_uint_nonnil (n : nat) : Nat.to_uint n <> Decimal.Nil.
Proof.
  rewrite <- (DecimalNat.Unsigned.of_to n) at 1. rewrite DecimalNat.Unsigned.to_of.
  apply DecimalFacts.unorm_nonnil.
Qed.

Lemma str_nat_inj (n m : nat) : str_nat n = str_nat m -> n = m.
Proof.
  unfold str_nat. intros H.
  apply DecimalNat.Unsigned.to_uint_inj.
  pose proof (NilZero.usu (Nat.to_uint n) (to_uint_nonnil n)) as Hn.
  pose proof (NilZero.usu (Nat.to_uint m) (to_uint_nonnil m)) as Hm.
  rewrite H in Hn. congruence.
Qed.

(** Two numerals followed by something that is not a digit: equal texts
    have equal numerals. *)
Lemma numeral_prefix_unique (a a' r r' : string) :
  digits_only a = true -> digits_only a' = true ->
  no_digit_ahead r = true -> r <> "" ->
  no_digit_ahead r' = true -> r' <> "" ->
  a ++ r = a' ++ r' -> a = a' /\ r = r'.
Proof.
  revert a'. induction a as [|c a IH]; intros a' Ha Ha' Hr Hr0 Hr' Hr0' H.
  - destruct a' as [|c' a']; [now split|].
    exfalso. cbn [digits_only] in Ha'. apply andb_true_iff in Ha' as [Hc' _].
    destruct r as [|x r]; [congruence|]. rewrite append_cons in H. cbn in H.
    injection H as -> _. cbn [no_digit_ahead] in Hr. rewrite Hc' in Hr. discriminate.
  - cbn [digits_only] in Ha. apply andb_true_iff in Ha as [Hc Ha].
    destruct a' as [|c' a'].
    + exfalso. destruct r' as [|x r']; [congruence|]. rewrite append_cons in H. cbn in H.
      injection H as <- _. cbn [no_digit_ahead] in Hr'. rewrite Hc in Hr'. discriminate.
    + cbn [digits_only] in Ha'. apply andb_true_iff in Ha' as [_ Ha'].
      rewrite !append_cons in H. injection H as -> H.
      destruct (IH a' Ha Ha' Hr Hr0 Hr' Hr0' H) as [-> ->]. now split.
Qed.

Lemma image_filename_inj (i j i' j' : nat) :
  image_filename i j = image_filename i' j' -> i = i' /\ j = j'.
Proof.
  unfold image_filename. intros H.
  apply (append_inv_head "slide_") in H.
  apply numeral_prefix_unique in H as [Hi H];
    [| apply str_nat_digits | apply str_nat_digits | reflexivity | discriminate
     | reflexivity | discriminate].
  apply (append_inv_head "_image_") in H.
  apply numeral_prefix_unique in H as [Hj _];
    [| apply str_nat_digits | apply str_nat_digits | reflexivity | discriminate
     | reflexivity | discriminate].
  apply str_nat_inj in Hi. apply str_nat_inj in Hj. lia.
Qed.

(** [os.path.join] with a second component that is relative. *)
Lemma path_join_relative (a : string) (c : ascii) (s : string) :
  c <> "/"%char ->
  path_join a (String c s) =
    if (String.length a =? 0)%nat then String c s
    else if ends_with_slash a then a ++ String c s
    else a ++ "/" ++ String c s.
Proof.
  intros Hc. unfold path_join.
  destruct c as [[] [] [] [] [] [] [] []]; try reflexivity. contradiction.
Qed.

Lemma path_join_inj (a x y : string) (c c' : ascii) (s s' : string) :
  c <> "/"%char -> c' <> "/"%char ->
  path_join a (String c s) = path_join a (String c' s') -> String c s = String c' s'.
Proof.
  intros Hc Hc'. rewrite !path_join_relative by assumption.
  destruct (String.length a =? 0)%nat; [trivial|].
  destruct (ends_with_slash a); intros H.
  - now apply append_inv_head in H.
  - apply append_inv_head in H. now apply (append_inv_head "/") in H.
Qed.

Lemma image_filename_head (i j : nat) :
  exists s, image_filename i j = String "s" s.
Proof. eexists. reflexivity. Qed.

Lemma image_path_inj (image_dir : string) (i j i' j' : nat) :
  path_join image_dir (image_filename i j) = path_join image_dir (image_filename i' j') ->
  i = i' /\ j = j'.
Proof.
  destruct (image_filename_head i j) as [s Hs], (image_filename_head i' j') as [s' Hs'].
  intros H. apply image_filename_inj. rewrite Hs, Hs' in *.
  eapply (path_join_inj image_dir "" ""); [| |exact H]; discriminate.
Qed.

(** X1: two pictures get the same file in the image directory only when
    they are the same shape of the same slide: the file name tells the slide
    and the shape, so no picture of a presentation overwrites another. *)
Theorem X1_image_paths_distinct (image_dir : string) (i j i' j' : nat) :
  path_join image_dir (image_filename i j) = path_join image_dir (image_filename i' j')
  <-> i = i' /\ j = j'.
Proof. split; [apply image_path_inj | now intros [-> ->]]. Qed.

Lemma length_append (a b : string) :
  String.length (a ++ b) = (String.length a + String.length b)%nat.
Proof. induction a as [|c a IH]; [reflexivity|]. rewrite append_cons. cbn. now rewrite IH. Qed.

(** The last character of a text is the last character of its non-empty
    end. *)
Lemma ends_with_slash_append (a : string) (c : ascii) (s : string) :
  ends_with_slash (a ++ String c s) = ends_with_slash (String c s).
Proof.
  unfold ends_with_slash. induction a as [|x a IH]; [reflexivity|].
  rewrite append_cons. rewrite <- IH. clear IH.
  change (String.length (String x (a ++ String c s))) with (S (String.length (a ++ String c s))).
  rewrite length_append. cbn [String.length].
  replace (String.length a + S (String.length s))%nat with (S (String.length a + String.length s)) by lia.
  reflexivity.
Qed.

(** X2: the [src] attribute of a picture, resolved against the directory
    of the document, is the path of the file the renderer writes for that
    picture: the document refers to its images where they are. *)
Theorem X2_img_src_is_the_file_written (output_file : string) (slide_index shape_index : nat) :
  let image_dir := path_join (dirname output_file) "images" in
  let src := "images/" ++ image_filename slide_index shape_index in
  (forall style,
     img_tag (image_filename slide_index shape_index) style =
       "<img src='" ++ src ++ "' class='absolute object-contain' style='" ++ style ++ "'/>") /\
  path_join (dirname output_file) src =
    path_join image_dir (image_filename slide_index shape_index).
Proof.
  cbv zeta. split.
  - intros style. unfold img_tag. now rewrite !append_assoc.
  - destruct (image_filename_head slide_index shape_index) as [s ->].
    set (d := dirname output_file). clearbody d.
    change ("images/" ++ String "s" s) with (String "i" ("mages/" ++ String "s" s)).
    change "images" with (String "i" "mages").
    rewrite !path_join_relative by discriminate.
    destruct d as [|x d]; [reflexivity|]. cbn [String.length Nat.eqb].
    destruct (ends_with_slash (String x d)).
    + rewrite length_append. cbn [String.length].
      replace ((S (String.length d) + 6 =? 0)%nat) with false
        by (symmetry; apply Nat.eqb_neq; lia).
      rewrite ends_with_slash_append.
      change (ends_with_slash "images") with false. cbv iota.
      now rewrite !append_assoc.
    + rewrite !length_append. cbn [String.length].
      replace ((S (String.length d) + (1 + 6) =? 0)%nat) with false
        by (symmetry; apply Nat.eqb_neq; lia).
      change (String x d ++ "/" ++ "images") with (String x d ++ String "/" "images").
      rewrite ends_with_slash_append.
      change (ends_with_slash "/images") with false. cbv iota.
      now rewrite !append_assoc.
Qed.

(** ** The files a computation leaves alone *)

Lemma keeps_ret {A} (path : string) (a : A) : keeps_file path (ret a).
Proof. intros w. reflexivity. Qed.

Lemma keeps_raise {A} (path : string) (e : exn) : keeps_file path (@raise A e).
Proof. intros w. reflexivity. Qed.

Lemma keeps_lift {A} (path : string) (o : outcome A) : keeps_file path (lift o).
Proof. intros w. reflexivity. Qed.

Lemma keeps_logging (path : string) (lvl : log_level) (msg : string) :
  keeps_file path (logging lvl msg).
Proof. intros w. reflexivity. Qed.

Lemma keeps_write_file (path target data : string) :
  path <> target -> keeps_file path (write_file target data).
Proof. intros Hne w. cbn. now rewrite lookup_insert_ne. Qed.

Lemma keeps_fail_writing {A} (path target : string) (e : exn) (left_behind : option string) :
  path <> target -> keeps_file path (@fail_writing A target e left_behind).
Proof.
  intros Hne w. destruct left_behind as [part|]; [|reflexivity].
  cbn. now rewrite lookup_insert_ne.
Qed.

Lemma keeps_effect_free {A} (path : string) (m : M A) : effect_free m -> keeps_file path m.
Proof. intros [o Ho] w. now rewrite Ho. Qed.

Lemma keeps_bind {A B} (path : string) (m : M A) (k : A -> M B) :
  keeps_file path m -> (forall a, keeps_file path (k a)) -> keeps_file path (bind m k).
Proof.
  intros Hm Hk w. unfold bind. specialize (Hm w).
  destruct (m w) as [[a|e] w1]; cbn [snd] in *; [|exact Hm].
  now rewrite Hk.
Qed.

Lemma keeps_try_except {A} (path : string) (m : M A) (handles : exn -> bool) (h : exn -> M A) :
  keeps_file path m -> (forall e, keeps_file path (h e)) ->
  keeps_file path (try_except m handles h).
Proof.
  intros Hm Hh w. unfold try_except. specialize (Hm w).
  destruct (m w) as [[a|e] w1]; cbn [snd] in *; [exact Hm|].
  destruct (handles e); [|exact Hm]. now rewrite Hh.
Qed.

Lemma keeps_mapM {A B} (path : string) (f : A -> M B) (l : list A) :
  (forall x, x ∈ l -> keeps_file path (f x)) -> keeps_file path (mapM f l).
Proof.
  induction l as [|x l IH]; intros Hf; cbn [mapM].
  - apply keeps_ret.
  - apply keeps_bind; [apply Hf, list_elem_of_here|]. intros y.
    apply keeps_bind; [|intros ys; apply keeps_ret].
    apply IH. intros x' Hx'. apply Hf. now apply list_elem_of_further.
Qed.

Lemma keeps_pool_run {A B} (path : string) (f : A -> M B) (sched : nat -> nat) (n : nat) :
  forall (step : nat) (pending : list (nat * A)) (st : pool_state),
    (forall i a, (i, a) ∈ pending -> keeps_file path (f a)) ->
    keeps_file path (pool_run f sched step n pending st).
Proof.
  induction n as [|n IH]; intros step pending st Hf w; [reflexivity|].
  cbn [pool_run].
  destruct (pending !! (sched step mod length pending)%nat) as [[i a]|] eqn:Hk; [|reflexivity].
  assert (Hin : (i, a) ∈ pending) by (eapply list_elem_of_lookup_2; exact Hk).
  pose proof (Hf i a Hin w) as Hw. destruct (f a w) as [o w1]. cbn [snd] in Hw.
  rewrite IH; [exact Hw|].
  intros i' a' Hin'. apply (Hf i'). eapply list_elem_of_delete_inv. exact Hin'.
Qed.

Lemma keeps_starmap {A B} (path : string) (f : A -> M B) (tasks : list A) (sched : nat -> nat) :
  (forall i a, tasks !! i = Some a -> keeps_file path (f a)) ->
  keeps_file path (starmap f tasks sched).
Proof.
  intros Hf. unfold starmap. apply keeps_bind.
  - apply keeps_pool_run. intros i a Hin. apply (Hf i). now apply elem_of_imap_pair.
  - intros st. destruct (failure st); [apply keeps_raise | apply keeps_ret].
Qed.

Create HintDb keeps.
#[local] Hint Resolve keeps_ret keeps_raise keeps_lift keeps_logging : keeps.

Ltac keeps :=
  repeat first
    [ solve [eauto with keeps nocore]
    | apply keeps_write_file; solve [auto]
    | apply keeps_fail_writing; solve [auto]
    | apply keeps_try_except; [|intros ?]
    | apply keeps_bind; [|intros ?]
    | match goal with
      | |- keeps_file _ (match ?x with _ => _ end) => destruct x
      | |- keeps_file _ (if ?x then _ else _) => destruct x
      end ].

Section KeepsRender.

Variable float_str : spec_float -> string.
Variable b64decode : string -> outcome string.
Variable pil_png : string -> string -> written string.

(** A shape is rendered without touching any file but the one of its own
    picture, and without touching any file at all when image files are not
    written. *)
Lemma keeps_process_shape_data (path : string) (shape_index : nat) (shape_data : ShapeData)
    (image_dir : string) (slide_index : nat) (ignore_images : bool) :
  ignore_images = true \/
    path <> path_join image_dir (image_filename slide_index shape_index) ->
  keeps_file path (process_shape_data float_str b64decode pil_png shape_index shape_data
                     image_dir slide_index ignore_images).
Proof.
  intros Hp. unfold process_shape_data, common_style.
  apply keeps_bind; [keeps|]. intros style.
  destruct (decide (shape_type shape_data = Some PICTURE)); [|keeps].
  apply keeps_bind; [|intros early; keeps].
  destruct ignore_images; [keeps|].
  destruct Hp as [Hp|Hp]; [discriminate|].
  unfold save_image. keeps.
Qed.

Lemma keeps_process_shapes (path : string) (slide_data : list ShapeData) (image_dir : string)
    (slide_index : nat) (ignore_images : bool) :
  forall shape_index,
    ignore_images = true \/
      (forall j, (shape_index <= j)%nat ->
         path <> path_join image_dir (image_filename slide_index j)) ->
    keeps_file path (process_shapes float_str b64decode pil_png shape_index slide_data
                       image_dir slide_index ignore_images).
Proof.
  induction slide_data as [|shape_data rest IH]; intros shape_index Hp; cbn [process_shapes].
  - apply keeps_ret.
  - apply keeps_bind.
    + apply keeps_process_shape_data. destruct Hp as [Hp|Hp]; [now left | right; now apply Hp].
    + intros fragment. apply keeps_bind; [|intros; apply keeps_ret].
      apply IH. destruct Hp as [Hp|Hp]; [now left | right]. intros j Hj. apply Hp. lia.
Qed.

Lemma keeps_process_slide (path : string) (slide_data : list ShapeData) (image_dir : string)
    (slide_index : nat) (ignore_images : bool) :
  ignore_images = true \/
    (forall j, path <> path_join image_dir (image_filename slide_index j)) ->
  keeps_file path (process_slide float_str b64decode pil_png slide_data image_dir
                     slide_index ignore_images).
Proof.
  intros Hp. unfold process_slide. apply keeps_bind; [|intros; apply keeps_ret].
  apply keeps_process_shapes. destruct Hp as [Hp|Hp]; [now left | right; intros; apply Hp].
Qed.

Lemma keeps_render_slides (path : string) (sched : nat -> nat)
    (slide_data_list : list (list ShapeData)) (image_dir : string) (ignore_images : bool) :
  ignore_images = true \/
    (forall i j, path <> path_join image_dir (image_filename i j)) ->
  keeps_file path (render_slides float_str b64decode pil_png sched slide_data_list image_dir
                     ignore_images).
Proof.
  intros Hp. unfold render_slides. apply keeps_try_except; [|intros e; keeps].
  apply keeps_starmap. intros i a Ha.
  rewrite list_lookup_imap in Ha. destruct (slide_data_list !! i) as [data|]; [|discriminate].
  injection Ha as <-. cbn [slide_task].
  apply keeps_process_slide. destruct Hp as [Hp|Hp]; [now left | right; intros; apply Hp].
Qed.

End KeepsRender.

Lemma keeps_extract_text_frame (path : string) (tf : TextFrame) :
  keeps_file path (extract_text_frame tf).
Proof.
  unfold extract_text_frame. apply keeps_try_except; [|intros e; keeps].
  apply keeps_effect_free, effect_free_read_text_frame.
Qed.

Lemma effect_free_get_fill_color (shape : Shape) : effect_free (get_fill_color shape).
Proof. unfold get_fill_color. reads. Qed.

Lemma keeps_extract_shape (path : string) (b64encode : string -> string) (shape : Shape) :
  keeps_file path (extract_shape b64encode shape).
Proof.
  unfold extract_shape.
  apply keeps_bind.
  { destruct (shape_has_text_frame shape); [|apply keeps_ret].
    apply keeps_bind; [apply keeps_extract_text_frame | intros; apply keeps_ret]. }
  intros tf. apply keeps_bind; [keeps|]. intros img.
  apply keeps_bind; [keeps|]. intros fmt.
  apply keeps_bind; [apply keeps_effect_free, effect_free_get_fill_color|].
  intros fc. apply keeps_ret.
Qed.

Lemma keeps_extract_slides (path : string) (b64encode : string -> string) (prs : Presentation) :
  keeps_file path (mapM (extract_slide_data b64encode) prs).
Proof.
  apply keeps_mapM. intros slide _. unfold extract_slide_data.
  apply keeps_mapM. intros shape _. apply keeps_extract_shape.
Qed.

Lemma keeps_pptx_to_html (float_str : spec_float -> string) (b64encode : string -> string)
    (b64decode : string -> outcome string) (pil_png : string -> string -> written string)
    (sched : nat -> nat) (write_text : string -> string -> written unit)
    (pptx_file : string) (prs : Presentation) (output_file : string)
    (ignore_images : bool) (path : string) :
  path <> output_file ->
  ignore_images = true \/
    (forall i j, path <> path_join (path_join (dirname output_file) "images")
                                   (image_filename i j)) ->
  keeps_file path (pptx_to_html float_str b64encode b64decode pil_png sched write_text pptx_file prs
                     output_file ignore_images).
Proof.
  intros Ho Hp. unfold pptx_to_html.
  apply keeps_bind; [keeps|]. intros _.
  apply keeps_bind; [keeps|]. intros _.
  apply keeps_bind; [apply keeps_extract_slides|]. intros slide_data_list.
  apply keeps_bind; [keeps|]. intros _.
  apply keeps_bind; [now apply keeps_render_slides|]. intros slide_contents.
  apply keeps_bind; [keeps|]. intros _.
  unfold write_document. keeps.
Qed.

(** X3: the conversion writes the document and the image files of the
    pictures, nothing else: every other path holds after the run what it held
    before, whatever the presentation, the behaviour of Pillow and the order
    of the workers; when image files are not written, every path but the one
    of the document does. *)
Theorem X3_other_files_untouched (float_str : spec_float -> string)
    (b64encode : string -> string) (b64decode : string -> outcome string)
    (pil_png : string -> string -> written string) (sched : nat -> nat)
    (write_text : string -> string -> written unit)
    (pptx_file : string) (prs : Presentation) (output_file : string)
    (ignore_images : bool) (path : string) (w : world) :
  path <> output_file ->
  ignore_images = true \/
    (forall i j, path <> path_join (path_join (dirname output_file) "images")
                                   (image_filename i j)) ->
  files (snd (pptx_to_html float_str b64encode b64decode pil_png sched write_text pptx_file prs
                output_file ignore_images w)) !! path =
  files w !! path.
Proof. intros Ho Hp. now apply keeps_pptx_to_html. Qed.

Lemma X3_other_files_untouched_witness :
  let w := World {["out/notes.txt" := "keep me"]} [] in
  "out/notes.txt" <> "out/deck.html" /\
  (forall i j, "out/notes.txt" <> path_join (path_join (dirname "out/deck.html") "images")
                                            (image_filename i j)) /\
  files (snd (pptx_to_html Sample.float_str Sample.b64encode Sample.b64decode Sample.pil_ok
                Sample.last_first Sample.fs_ok "deck.pptx" Sample.three_photos "out/deck.html"
                false w))
    !! "out/notes.txt" = Some "keep me".
Proof.
  cbv zeta.
  assert (Ho : "out/notes.txt" <> "out/deck.html") by discriminate.
  assert (Hp : forall i j, "out/notes.txt" <>
                path_join (path_join (dirname "out/deck.html") "images") (image_filename i j)).
  { intros i j. destruct (image_filename_head i j) as [s ->].
    change (path_join (dirname "out/deck.html") "images") with "out/images".
    rewrite path_join_relative by discriminate. discriminate. }
  split; [exact Ho|]. split; [exact Hp|].
  rewrite (X3_other_files_untouched Sample.float_str Sample.b64encode Sample.b64decode
             Sample.pil_ok Sample.last_first Sample.fs_ok "deck.pptx" Sample.three_photos
             "out/deck.html"
             false "out/notes.txt" _ Ho (or_intror Hp)).
  reflexivity.
Defined.

(** ** The conversion as a whole *)

Lemma mapM_Forall2 {A B} (f : A -> M B) (l : list A) :
  forall (w w' : world) (ys : list B),
    mapM f l w = (Ret ys, w') ->
    Forall2 (fun x y => exists w1 w2, f x w1 = (Ret y, w2)) l ys.
Proof.
  induction l as [|x l IH]; intros w w' ys H; cbn [mapM] in H.
  - injection H as <- _. constructor.
  - unfold bind, ret in H. destruct (f x w) as [[y|e] w1] eqn:Hx; [|discriminate].
    destruct (mapM f l w1) as [[ys'|e] w2] eqn:Hl; [|discriminate].
    injection H as <- _. constructor; [eauto | eapply IH; exact Hl].
Qed.

Lemma mapM_raises {A B} (f : A -> M B) (l : list A) (x : A) (e : exn) (w0 w : world) :
  (forall a, steady (f a)) -> x ∈ l -> fst (f x w0) = Raise e ->
  exists e', fst (mapM f l w) = Raise e'.
Proof.
  intros Hs Hx He. destruct (mapM f l w) as [[ys|e'] w'] eqn:Hm; [|cbn; eauto].
  exfalso. apply mapM_Forall2 in Hm.
  apply list_elem_of_lookup_1 in Hx as [i Hi].
  destruct (Forall2_lookup_l _ _ _ _ _ Hm Hi) as (y & _ & w1 & w2 & Hy).
  pose proof (steady_transfer _ _ _ (Hs x) He w1) as H1. rewrite Hy in H1. discriminate.
Qed.

(** The fragments of all the elements, or an element that raises. *)
Lemma outcomes_all_or_one {A B} (l : list A) :
  forall f : nat -> A -> outcome B,
    (exists vals, length vals = length l /\
       forall i a, l !! i = Some a -> exists b, vals !! i = Some b /\ f i a = Ret b) \/
    (exists i a e, l !! i = Some a /\ f i a = Raise e).
Proof.
  induction l as [|x l IH]; intros f.
  - left. exists []. split; [reflexivity|]. intros i a H. discriminate.
  - destruct (f O x) as [b|e] eqn:Hx; [|right; exists O, x, e; now split].
    destruct (IH (fun i => f (S i))) as [(vals & Hlen & Hv) | (i & a & e & Hi & He)].
    + left. exists (b :: vals). split; [cbn; now rewrite Hlen|].
      intros [|i] a Hi; cbn in Hi.
      * injection Hi as <-. exists b. now split.
      * apply (Hv i a Hi).
    + right. exists (S i), a, e. now split.
Qed.

Section Whole.

Variable float_str : spec_float -> string.
Variable b64encode : string -> string.
Variable b64decode : string -> outcome string.
Variable pil_png : string -> string -> written string.
Variable sched : nat -> nat.
Variable write_text : string -> string -> written unit.

(** The extraction writes no file. *)
Lemma before_rendering_files (pptx_file : string) (prs : Presentation) (w : world) :
  files (before_rendering b64encode pptx_file prs w) = files w.
Proof.
  unfold before_rendering. cbn [files]. apply map_eq. intros path.
  now rewrite (keeps_extract_slides path b64encode prs).
Qed.

(** Once the slide records are extracted the conversion goes on to its
    last statement: the pool block gives the fragments of all the slides or,
    after logging an error, none, and the document is written around them. *)
Lemma conversion_outcome (pptx_file : string) (prs : Presentation) (output_file : string)
    (ignore_images : bool) (w : world) (slide_data_list : list (list ShapeData)) :
  let image_dir := path_join (dirname output_file) "images" in
  fst (mapM (extract_slide_data b64encode) prs w) = Ret slide_data_list ->
  exists (contents : list string) (w2 : world),
    render_slides float_str b64decode pil_png sched slide_data_list image_dir ignore_images
      (before_rendering b64encode pptx_file prs w) = (Ret contents, w2) /\
    pptx_to_html float_str b64encode b64decode pil_png sched write_text pptx_file prs output_file
      ignore_images w =
      write_document write_text output_file (assemble contents)
        (World (files w2) (log w2 ++ [(INFO, "Writing HTML content to " ++ output_file)])) /\
    (all_rendered float_str b64decode pil_png slide_data_list image_dir ignore_images contents \/
     (contents = [] /\
      some_slide_fails float_str b64decode pil_png slide_data_list image_dir ignore_images /\
      exists e', last (log w2) = Some (ERROR, render_error e'))).
Proof.
  intros image_dir He.
  pose proof (pptx_to_html_writes float_str b64encode b64decode pil_png sched write_text
                pptx_file prs output_file ignore_images w slide_data_list He) as Hw.
  set (w1 := before_rendering b64encode pptx_file prs w) in Hw.
  destruct (outcomes_all_or_one slide_data_list
              (fun i data => fst (process_slide float_str b64decode pil_png data image_dir i
                                    ignore_images w)))
    as [(contents & Hlen & Hv) | (i & data & e & Hi & Hfail)].
  - destruct (render_slides_in_order float_str b64decode pil_png sched slide_data_list contents
                image_dir ignore_images w w1 Hlen) as [w2 Hr].
    { intros i data c Hd Hc. destruct (Hv i data Hd) as (b & Hb & Hf). congruence. }
    exists contents, w2. split; [exact Hr|]. split; [apply Hw; exact Hr|].
    left. split; [exact Hlen|].
    intros i data Hd. destruct (Hv i data Hd) as (b & Hb & Hf). exists b. split; [exact Hb|].
    apply (steady_transfer _ w); [apply steady_process_slide | exact Hf].
  - destruct (render_slides_all_lost float_str b64decode pil_png sched slide_data_list
                image_dir ignore_images w w1) as (e' & w2 & Hr); [eauto|].
    eexists [], _. split; [exact Hr|]. split; [apply Hw; exact Hr|].
    right. split; [reflexivity|]. split.
    + exists i, data, e. split; [exact Hi|].
      apply (steady_transfer _ w); [apply steady_process_slide | exact Hfail].
    + exists e'. cbn [log]. apply last_snoc.
Qed.

End Whole.

(** The run ends normally exactly when the document is written, and the
    only exception it can end with is the one of the write. *)
Lemma ends_writing_outcome (write_text : string -> string -> written unit)
    (output_file document : string) (run : outcome unit * world) :
  ends_writing write_text output_file document run ->
  (fst run = Ret tt <-> exists u, write_text output_file document = Written u) /\
  (forall e, fst run = Raise e <->
             exists left_behind, write_text output_file document = Failed e left_behind).
Proof.
  unfold ends_writing. destruct (write_text output_file document) as [u|e' left_behind].
  - intros [Hr _]. rewrite Hr. split.
    + split; eauto.
    + intros e. split; [discriminate | intros [l Hl]; discriminate].
  - intros Hr. rewrite Hr. split.
    + split; [discriminate | intros [u Hu]; discriminate].
    + intros e. split; [intros [= <-]; eauto | intros [l [= <- _]]; reflexivity].
Qed.



(** X5: the extraction of the slide records has no recovery of its own
    but the one of the text frames: when the record of any shape cannot be
    built (the fill of the shape or the image of a picture cannot be read; a
    solid fill with a theme color is such a shape), the conversion raises
    and writes no file, neither the document nor an image. *)
Theorem X5_extraction_failure_aborts (float_str : spec_float -> string)
    (b64encode : string -> string) (b64decode : string -> outcome string)
    (pil_png : string -> string -> written string) (sched : nat -> nat)
    (write_text : string -> string -> written unit)
    (pptx_file : string) (prs : Presentation) (output_file : string)
    (ignore_images : bool) (w : world) (slide : Slide) (shape : Shape) (e : exn) :
  slide ∈ prs -> shape ∈ slide ->
  fst (extract_shape b64encode shape w) = Raise e ->
  exists e' w',
    pptx_to_html float_str b64encode b64decode pil_png sched write_text pptx_file prs output_file
      ignore_images w = (Raise e', w') /\
    files w' = files w.
Proof.
  intros Hslide Hshape He.
  assert (Hs : exists e1, fst (extract_slide_data b64encode slide w) = Raise e1).
  { unfold extract_slide_data.
    apply (mapM_raises _ _ shape e w); [apply steady_extract_shape | exact Hshape | exact He]. }
  destruct Hs as [e1 He1].
  unfold pptx_to_html, bind, logging.
  match goal with
  | |- context [mapM (extract_slide_data b64encode) prs ?w1] =>
      destruct (mapM_raises (extract_slide_data b64encode) prs slide e1 w w1) as [e' He'];
        [ intros a; unfold extract_slide_data; apply steady_mapM; intros x;
          apply steady_extract_shape
        | exact Hslide | exact He1 | ];
      pose proof (fun p => keeps_extract_slides p b64encode prs w1) as Hk;
      destruct (mapM (extract_slide_data b64encode) prs w1) as [o w1']
  end.
  cbn [fst snd files] in *. subst o.
  exists e', w1'. split; [reflexivity|].
  apply map_eq. exact Hk.
Qed.

Lemma X5_extraction_failure_aborts_witness :
  [Cases.theme_box] ∈ Cases.themed /\ Cases.theme_box ∈ [Cases.theme_box] /\
  fst (extract_shape Sample.b64encode Cases.theme_box Sample.w0) = Raise Cases.no_rgb /\
  exists e' w',
    pptx_to_html Sample.float_str Sample.b64encode Sample.b64decode Sample.pil_ok
      Sample.first_first Sample.fs_ok "deck.pptx" Cases.themed "out/deck.html" false Sample.w0 =
      (Raise e', w') /\
    files w' = files Sample.w0.
Proof.
  assert (H1 : [Cases.theme_box] ∈ Cases.themed)
    by (apply list_elem_of_further, list_elem_of_here).
  assert (H2 : Cases.theme_box ∈ [Cases.theme_box]) by apply list_elem_of_here.
  split; [exact H1|]. split; [exact H2|]. split; [reflexivity|].
  exact (X5_extraction_failure_aborts Sample.float_str Sample.b64encode Sample.b64decode
           Sample.pil_ok Sample.first_first Sample.fs_ok "deck.pptx" Cases.themed "out/deck.html"
           false
           Sample.w0 [Cases.theme_box] Cases.theme_box Cases.no_rgb H1 H2 eq_refl).
Defined.



(** ** Colors as text *)

Lemma parse_format_02x (b : Byte.byte) : parse_02x (format_02x b) = Some b.
Proof. destruct b; reflexivity. Qed.

Lemma format_02x_inj (b b' : Byte.byte) : format_02x b = format_02x b' -> b = b'.
Proof.
  intros H. apply (f_equal parse_02x) in H. rewrite !parse_format_02x in H. congruence.
Qed.

(** X6: the text of a color tells the color: two colors have the same
    [#rrggbb] text only when they are the same color, and only an absent
    color has no text. *)
Theorem X6_rgb_to_hex_injective (c c' : option RGBColor) :
  rgb_to_hex c = rgb_to_hex c' <-> c = c'.
Proof.
  split; [|now intros ->].
  destruct c as [[[r g] b]|], c' as [[[r' g'] b']|]; cbn [rgb_to_hex];
    try discriminate; [|reflexivity].
  intros [= H1 H2 H3 H4 H5 H6].
  assert (Hr : format_02x r = format_02x r') by (unfold format_02x; now rewrite H1, H2).
  assert (Hg : format_02x g = format_02x g') by (unfold format_02x; now rewrite H3, H4).
  assert (Hb : format_02x b = format_02x b') by (unfold format_02x; now rewrite H5, H6).
  apply format_02x_inj in Hr, Hg, Hb. now subst.
Qed.

(** ** What extraction reports *)

Lemma color_to_hex_reported (c : option ColorFormat) (w w' : world) (hex : option string) :
  color_to_hex c w = (Ret hex, w') ->
  match c with
  | None => hex = None
  | Some c =>
      match rgb c with
      | Ret v => hex = rgb_to_hex v
      | Raise e => is_AttributeError e = true /\ hex = None
      end
  end.
Proof.
  unfold color_to_hex, bind, lift, ret, raise. intros H.
  destruct c as [c|]; [|now injection H as <- _].
  destruct (rgb c) as [[v|]|e].
  - now injection H as <- _.
  - now injection H as <- _.
  - destruct (is_AttributeError e); [now injection H as <- _ | discriminate].
Qed.

Lemma extract_run_reported (run : Run) (w w' : world) (run_data : RunData) :
  extract_run run w = (Ret run_data, w') -> run_reported run run_data.
Proof.
  unfold extract_run. intros H.
  repeat match type of H with
         | bind ?m ?k ?w0 = _ =>
             let o := fresh "o" in let w1 := fresh "w" in let E := fresh "E" in
             unfold bind at 1 in H; destruct (m w0) as [o w1] eqn:E;
             destruct o; [|discriminate H]
         end.
  unfold lift in E, E0, E1, E3, E4, E5, E7.
  injection E as Ht _. injection E0 as Hn _. injection E1 as Hs _.
  injection E3 as Hb _. injection E4 as Hi _. injection E5 as Hc _. injection E7 as Hh _.
  apply color_to_hex_reported in E6.
  injection H as <- _. unfold run_reported. cbn [text font_name font_size bold italic color hyperlink].
  rewrite Ht, Hn, Hs, Hb, Hi, Hc, Hh.
  do 4 (split; [reflexivity|]). split; [|split].
  - destruct a1 as [l|]; [|now injection E2 as <- _].
    destruct (emu l =? 0); [now injection E2 as <- _|].
    unfold bind, lift in E2. rewrite Hs in E2. now injection E2 as <- _.
  - exact E6.
  - destruct a7 as [l|]; [|now injection E8 as <- _].
    unfold bind, lift in E8. rewrite Hh in E8. now injection E8 as -> _.
Qed.

Lemma extract_paragraph_reported (p : Paragraph) (w w' : world) (pd : ParagraphData) :
  extract_paragraph p w = (Ret pd, w') -> paragraph_reported p pd.
Proof.
  unfold extract_paragraph, paragraph_reported, bind, lift, ret. intros H.
  destruct (paragraph_alignment p) as [a|]; [|discriminate].
  destruct (paragraph_level p) as [level|]; [|discriminate].
  destruct (paragraph_runs p) as [rs|]; [|discriminate].
  destruct (mapM extract_run rs w) as [[rds|] w1] eqn:Hr; [|discriminate].
  injection H as <- _. cbn. split; [reflexivity|]. split; [eauto|].
  exists rs. split; [reflexivity|].
  apply mapM_Forall2 in Hr. eapply Forall2_impl; [exact Hr|].
  intros r rd (w2 & w3 & Hx). eapply extract_run_reported. exact Hx.
Qed.


(** ** The records of the shapes *)

Lemma extract_shape_record (b64encode : string -> string) (shape : Shape)
    (w w' : world) (shape_data : ShapeData) :
  extract_shape b64encode shape w = (Ret shape_data, w') ->
  record_of b64encode shape shape_data.
Proof.
  unfold extract_shape. intros H.
  repeat match type of H with
         | bind ?m ?k ?w0 = _ =>
             let o := fresh "o" in let w1 := fresh "w" in let E := fresh "E" in
             unfold bind at 1 in H; destruct (m w0) as [o w1] eqn:E;
             destruct o; [|discriminate H]
         end.
  injection H as <- _. unfold record_of.
  cbn [shape_type left top width height has_text_frame text_frame image image_format fill_color].
  do 6 (split; [reflexivity|]). split; [|split; [|eauto]].
  - destruct (shape_has_text_frame shape).
    + unfold bind in E. destruct (extract_text_frame _ w) as [[ps|] ?]; [|discriminate].
      injection E as <- _. split; eauto.
    + injection E as <- _. split; [intros [? ?]|]; discriminate.
  - unfold is_picture in E0, E1.
    destruct (decide (shape_shape_type shape = Some PICTURE)) as [Hp|Hp].
    + rewrite bool_decide_eq_true_2 in E0, E1 by exact Hp.
      unfold bind, lift, ret in E0, E1.
      destruct (shape_image shape) as [im|]; [|discriminate].
      injection E0 as <- _. injection E1 as <- _. eauto.
    + rewrite bool_decide_eq_false_2 in E0, E1 by exact Hp.
      injection E0 as <- _. injection E1 as <- _. now split.
Qed.

Lemma extract_slide_records (b64encode : string -> string) (slide : Slide)
    (w w' : world) (slide_data : list ShapeData) :
  extract_slide_data b64encode slide w = (Ret slide_data, w') ->
  Forall2 (record_of b64encode) slide slide_data.
Proof.
  unfold extract_slide_data. intros H. apply mapM_Forall2 in H.
  eapply Forall2_impl; [exact H|].
  intros shape sd (w1 & w2 & Hx). eapply extract_shape_record. exact Hx.
Qed.

(** X8: the extraction of a slide gives one record per shape, in the
    order of the shapes, and each record holds what the renderer reads in it:
    the bounds of the shape, its list of paragraphs exactly when the shape has
    a text frame, its image and the format of the image exactly when the
    shape is a picture, and always the key of the fill color. *)
Theorem X8_one_record_per_shape (b64encode : string -> string) (slide : Slide)
    (w w' : world) (slide_data : list ShapeData) :
  extract_slide_data b64encode slide w = (Ret slide_data, w') ->
  Forall2 (record_of b64encode) slide slide_data.
Proof. apply extract_slide_records. Qed.

Lemma X8_one_record_per_shape_witness :
  extract_slide_data Sample.b64encode [Sample.plain_box; Sample.photo] Sample.w0 =
    (Ret (nth 0 (Sample.records [[Sample.plain_box; Sample.photo]]) []), Sample.w0) /\
  Forall2 (record_of Sample.b64encode) [Sample.plain_box; Sample.photo]
    (nth 0 (Sample.records [[Sample.plain_box; Sample.photo]]) []).
Proof.
  split; [reflexivity|].
  exact (X8_one_record_per_shape Sample.b64encode [Sample.plain_box; Sample.photo]
           Sample.w0 Sample.w0 _ eq_refl).
Defined.

(** ** Dry runs *)

Section DryRun.

Variable float_str : spec_float -> string.
Variable b64decode : string -> outcome string.
Variable pil_png : string -> string -> written string.

(** The record of a shape in range is rendered, without any effect, when
    image files are not written. *)
Lemma dry_shape (b64encode : string -> string) (shape : Shape) (shape_data : ShapeData)
    (shape_index : nat) (image_dir : string) (slide_index : nat) :
  record_of b64encode shape shape_data -> shape_in_range shape ->
  exists fragment, forall w,
    process_shape_data float_str b64decode pil_png shape_index shape_data image_dir
      slide_index true w = (Ret fragment, w).
Proof.
  intros (Ht & Hl & Hto & Hw & Hh & Hf & Htf & _) (Rl & Rt & Rw & Rh).
  assert (Hb : bounds_in_range shape_data).
  { unfold bounds_in_range. now rewrite Hl, Hto, Hw, Hh. }
  destruct (common_style_in_range shape_data Hb) as (hl & ht & hw & hh & Hs & _).
  destruct (decide (shape_type shape_data = Some PICTURE)) as [Hp|Hp].
  - eexists. intros w.
    rewrite (render_picture _ _ _ _ _ _ _ true _ w Hp (Hs w)). reflexivity.
  - destruct (has_text_frame shape_data) eqn:Hhas.
    + destruct (proj2 Htf eq_refl) as [ps Hps]. eexists. intros w.
      apply render_text_frame; [exact Hp | exact Hhas | exact Hps | apply Hs].
    + exists "". intros w. unfold process_shape_data, bind. rewrite Hs.
      destruct (decide (shape_type shape_data = Some PICTURE)); [contradiction|].
      now rewrite Hhas.
Qed.

Lemma dry_shapes (b64encode : string -> string) (slide : Slide) (slide_data : list ShapeData)
    (image_dir : string) (slide_index : nat) :
  Forall2 (record_of b64encode) slide slide_data -> Forall shape_in_range slide ->
  forall shape_index, exists fragments, forall w,
    process_shapes float_str b64decode pil_png shape_index slide_data image_dir
      slide_index true w = (Ret fragments, w).
Proof.
  induction 1 as [|shape sd slide slide_data Hr _ IH]; intros Hin shape_index.
  - exists []. reflexivity.
  - apply Forall_cons in Hin as [Hs Hin].
    destruct (dry_shape b64encode shape sd shape_index image_dir slide_index Hr Hs)
      as [fragment Hf].
    destruct (IH Hin (S shape_index)) as [fragments Hfs].
    exists (fragment :: fragments). intros w. cbn [process_shapes]. unfold bind.
    rewrite Hf, Hfs. reflexivity.
Qed.

Lemma dry_slide (b64encode : string -> string) (slide : Slide) (slide_data : list ShapeData)
    (image_dir : string) (slide_index : nat) :
  Forall2 (record_of b64encode) slide slide_data -> Forall shape_in_range slide ->
  exists c, outcome_fixed (process_slide float_str b64decode pil_png slide_data image_dir
                             slide_index true) (Ret c).
Proof.
  intros Hr Hin. destruct (dry_shapes b64encode slide slide_data image_dir slide_index Hr Hin O)
    as [fragments Hf].
  eexists. intros w. unfold process_slide, bind. rewrite Hf. reflexivity.
Qed.

End DryRun.

(** X9: a dry run loses no slide.  When image files are not written and
    the bounds of the shapes lie in the coordinate range of the format, a
    presentation whose slide records are extracted is always rendered in full:
    no slide task can raise, the document holds the fragment of every slide,
    in order, and it is the only file written.  (When the document cannot be
    written the conversion raises, and no file is changed but for what the
    failed write has left of the document.) *)
Theorem X9_dry_run_renders_every_slide (float_str : spec_float -> string)
    (b64encode : string -> string) (b64decode : string -> outcome string)
    (pil_png : string -> string -> written string) (sched : nat -> nat)
    (write_text : string -> string -> written unit)
    (pptx_file : string) (prs : Presentation) (output_file : string)
    (w : world) (slide_data_list : list (list ShapeData)) :
  fst (mapM (extract_slide_data b64encode) prs w) = Ret slide_data_list ->
  Forall (Forall shape_in_range) prs ->
  exists contents : list string,
    let run := pptx_to_html float_str b64encode b64decode pil_png sched write_text pptx_file prs
                 output_file true w in
    length contents = length prs /\
    all_rendered float_str b64decode pil_png slide_data_list
      (path_join (dirname output_file) "images") true contents /\
    match write_text output_file (assemble contents) with
    | Written _ =>
        fst run = Ret tt /\
        files (snd run) = <[output_file := assemble contents]> (files w)
    | Failed e left_behind =>
        fst run = Raise e /\
        files (snd run) = left_on_disk output_file left_behind w
    end.
Proof.
  intros He Hin.
  assert (Hrec : Forall2 (Forall2 (record_of b64encode)) prs slide_data_list).
  { destruct (mapM (extract_slide_data b64encode) prs w) as [o w1] eqn:Hm.
    cbn [fst] in He. subst o. apply mapM_Forall2 in Hm.
    eapply Forall2_impl; [exact Hm|].
    intros slide data (w2 & w3 & Hx). eapply extract_slide_records. exact Hx. }
  destruct (conversion_outcome float_str b64encode b64decode pil_png sched write_text pptx_file
              prs output_file true w slide_data_list He) as (contents & w2 & Hr & Hrun & Hc).
  assert (Hall : all_rendered float_str b64decode pil_png slide_data_list
                   (path_join (dirname output_file) "images") true contents).
  { destruct Hc as [Hall | (_ & (i & data & e & Hi & Hfail) & _)]; [exact Hall|].
    exfalso.
    destruct (Forall2_lookup_r _ _ _ _ _ Hrec Hi) as (slide & Hs & Hrd).
    pose proof (Forall_lookup_1 _ _ _ _ Hin Hs) as Hrange.
    destruct (dry_slide float_str b64decode pil_png b64encode slide data
                (path_join (dirname output_file) "images") i Hrd Hrange) as [c Hok].
    specialize (Hok w). rewrite (Hfail w) in Hok. discriminate. }
  assert (Hfiles : files w2 = files w).
  { apply map_eq. intros path.
    pose proof (keeps_render_slides float_str b64decode pil_png path sched slide_data_list
                  (path_join (dirname output_file) "images") true (or_introl eq_refl)
                  (before_rendering b64encode pptx_file prs w)) as Hk.
    rewrite Hr in Hk. cbn [snd] in Hk. now rewrite Hk, before_rendering_files. }
  exists contents. cbv zeta.
  split; [destruct Hall as [-> _]; symmetry; eapply Forall2_length; exact Hrec|].
  split; [exact Hall|].
  rewrite Hrun, write_document_outcome.
  destruct (write_text output_file (assemble contents)) as [[]|e left_behind];
    cbn [fst snd files]; (split; [reflexivity|]).
  - now rewrite Hfiles.
  - unfold left_on_disk. cbn [files]. now rewrite Hfiles.
Qed.

Lemma X9_dry_run_renders_every_slide_witness :
  Forall (Forall shape_in_range) Sample.text_then_photo /\
  exists contents : list string,
    let run := pptx_to_html Sample.float_str Sample.b64encode Sample.b64decode Sample.pil_bomb
                 Sample.first_first Sample.fs_ok "deck.pptx" Sample.text_then_photo
                 "out/deck.html" true Sample.w0 in
    length contents = length Sample.text_then_photo /\
    all_rendered Sample.float_str Sample.b64decode Sample.pil_bomb
      (Sample.records Sample.text_then_photo) "out/images" true contents /\
    fst run = Ret tt /\
    files (snd run) = <[("out/deck.html") := assemble contents]> (files Sample.w0).
Proof.
  assert (Hin : Forall (Forall shape_in_range) Sample.text_then_photo).
  { repeat (apply List.Forall_cons || apply List.Forall_nil);
      unfold shape_in_range, emu_range; cbn; lia. }
  split; [exact Hin|].
  exact (X9_dry_run_renders_every_slide Sample.float_str Sample.b64encode Sample.b64decode
           Sample.pil_bomb Sample.first_first Sample.fs_ok "deck.pptx" Sample.text_then_photo
           "out/deck.html" Sample.w0 (Sample.records Sample.text_then_photo) eq_refl Hin).
Defined.

(** ** The size of a run *)

Lemma size_colon (h : list ascii) (post : string) :
  Exists (fun p => fst p = ["e"; "z"]%char) (colon_ctx h ("font-size:" ++ post)).
Proof. read_colons. apply Exists_cons_hd. reflexivity. Qed.

Lemma run_style_size_colons (float_str : spec_float -> string) (run : RunData) :
  plain_values float_str run ->
  Forall (size_colon_ok run) (colon_ctx [] (run_style float_str run)).
Proof.
  destruct run as [t name size b i c link]. unfold plain_values, size_colon_ok, sized.
  cbn [font_name font_size color bold italic]. intros (Hn & Hs & Hc).
  unfold run_style, font_family_decl, font_size_decl, font_weight_decl, font_style_decl,
    color_decl.
  cbn [font_name font_size color bold italic].
  set (family := str_opt id name) in *. clearbody family.
  set (colour := str_opt id c) in *. clearbody colour.
  (destruct size as [sz|]; [destruct (Float.truthy sz) eqn:Hsz|]); cbn [str_opt] in *;
  destruct (bool_truthy b); destruct (bool_truthy i); destruct (str_truthy c);
  right_nest; read_colons;
  repeat (apply List.Forall_cons; [cbn [fst]; first [discriminate | intros _; eauto]|]);
  apply List.Forall_nil.
Qed.

Lemma size_in_style (float_str : spec_float -> string) (run : RunData) (sz : spec_float) :
  font_size run = Some sz -> Float.truthy sz = true ->
  contains ("font-size: " ++ float_str sz ++ "pt; ") (run_style float_str run).
Proof.
  intros Hs Ht. unfold run_style, font_size_decl. rewrite Hs, Ht.
  apply contains_append_l, contains_here.
Qed.

(** X10: the style of a run declares a font size exactly when the run
    has a size that is not zero, and the declaration then gives this size in
    points; a run with no size, or with a size of zero, gets no [font-size]
    at all (values without a colon, as for the other declarations). *)
Theorem X10_font_size_declared (float_str : spec_float -> string) (run : RunData) :
  plain_values float_str run ->
  (declares "font-size" (run_style float_str run) <-> sized run) /\
  (forall sz, font_size run = Some sz -> Float.truthy sz = true ->
     contains ("font-size: " ++ float_str sz ++ "pt; ") (run_style float_str run)).
Proof.
  intros Hp. split; [|apply size_in_style]. unfold declares.
  change ("font-size" ++ ":") with "font-size:". split.
  - intros Hc.
    pose proof (contains_colon_ctx _ _ _ Hc size_colon) as He.
    apply List.Exists_exists in He as (p & Hin & Hx).
    pose proof (run_style_size_colons float_str run Hp) as Hf.
    rewrite List.Forall_forall in Hf. exact (Hf p Hin Hx).
  - intros (sz & Hs & Ht).
    apply (contains_longer _ ("font-size: " ++ float_str sz ++ "pt; "));
      [|now apply size_in_style].
    exists "", (" " ++ float_str sz ++ "pt; "). reflexivity.
Qed.

Lemma X10_font_size_declared_witness :
  plain_values Sample.float_str Text.sized_run /\
  plain_values Sample.float_str Text.zero_run /\
  declares "font-size" (run_style Sample.float_str Text.sized_run) /\
  ~ declares "font-size" (run_style Sample.float_str Text.zero_run).
Proof.
  assert (Hp : plain_values Sample.float_str Text.sized_run) by (repeat split).
  assert (Hz : plain_values Sample.float_str Text.zero_run) by (repeat split).
  split; [exact Hp|]. split; [exact Hz|]. split.
  - apply (proj1 (X10_font_size_declared Sample.float_str Text.sized_run Hp)).
    exists Text.eighteen. split; reflexivity.
  - intros Hd.
    apply (proj1 (X10_font_size_declared Sample.float_str Text.zero_run Hz)) in Hd.
    destruct Hd as (sz & Hs & Ht). injection Hs as <-. discriminate Ht.
Defined.

(** ** The text of the runs *)

Lemma fold_append_prefix {A} (f : A -> string) (l : list A) :
  forall init, exists rest, fold_left (fun acc x => acc ++ f x) l init = init ++ rest.
Proof.
  induction l as [|y l IH]; intros init; cbn [fold_left].
  - exists "". now rewrite append_empty_r.
  - destruct (IH (init ++ f y)) as [rest ->]. exists (f y ++ rest). now rewrite append_assoc.
Qed.

Lemma contains_fold_append {A} (f : A -> string) (l : list A) (x : A) :
  x ∈ l -> forall init, contains (f x) (fold_left (fun acc y => acc ++ f y) l init).
Proof.
  induction l as [|y l IH]; intros Hx init; [now apply not_elem_of_nil in Hx|].
  cbn [fold_left]. apply elem_of_cons in Hx as [->|Hx]; [|now apply IH].
  destruct (fold_append_prefix f l (init ++ f y)) as [rest ->].
  exists init, rest. now rewrite append_assoc.
Qed.

Lemma run_in_text_content (float_str : spec_float -> string)
    (paragraphs : list ParagraphData) (paragraph : ParagraphData) (run : RunData) :
  paragraph ∈ paragraphs -> run ∈ runs paragraph ->
  contains (render_run float_str run) (text_content float_str paragraphs).
Proof.
  intros Hp Hr. unfold text_content.
  eapply contains_longer; [|apply (contains_fold_append _ _ paragraph Hp)].
  unfold render_paragraph.
  assert (Hc : contains (render_run float_str run) (para_content float_str paragraph))
    by (unfold para_content; apply (contains_fold_append _ _ run Hr)).
  destruct (is_title paragraph);
    apply contains_append_l, contains_append_l, contains_append_l, contains_append_r; exact Hc.
Qed.

(** X11: the renderer copies the text of a run into the fragment as it
    is, between the tags of the run, and the address of its hyperlink as it
    is, between the quotes of [href]: no character of either is escaped or
    removed, so markup in a text or a quote in an address reaches the
    document unchanged. *)
Theorem X11_text_copied_verbatim (float_str : spec_float -> string)
    (b64decode : string -> outcome string) (pil_png : string -> string -> written string)
    (shape_index : nat) (shape_data : ShapeData) (image_dir : string) (slide_index : nat)
    (ignore_images : bool) (paragraphs : list ParagraphData) (paragraph : ParagraphData)
    (run : RunData) :
  shape_type shape_data <> Some PICTURE ->
  has_text_frame shape_data = true ->
  text_frame shape_data = Some paragraphs ->
  bounds_in_range shape_data ->
  paragraph ∈ paragraphs -> run ∈ runs paragraph ->
  exists fragment,
    (forall w, process_shape_data float_str b64decode pil_png shape_index shape_data
                 image_dir slide_index ignore_images w = (Ret fragment, w)) /\
    contains ("'>" ++ text run ++ "</") fragment /\
    (forall address, hyperlink run = Some address -> address <> "" ->
       contains ("<a href='" ++ address ++ "' style='") fragment).
Proof.
  intros Hpic Hhas Htf Hb Hp Hr.
  destruct (common_style_in_range shape_data Hb) as (hl & ht & hw & hh & Hs & _).
  eexists. split.
  - intros w. apply render_text_frame; [exact Hpic | exact Hhas | exact Htf | apply Hs].
  - pose proof (run_in_text_content float_str paragraphs paragraph run Hp Hr) as Hc.
    assert (Hdiv : forall needle, contains needle (render_run float_str run) ->
              contains needle (text_div
                (position_box (percent_text (left shape_data) hl) (percent_text (top shape_data) ht)
                   (percent_text (width shape_data) hw) (percent_text (height shape_data) hh))
                (bg_color shape_data) (text_content float_str paragraphs))).
    { intros needle Hn. unfold text_div.
      apply contains_append_l, contains_append_l, contains_append_l, contains_append_l,
        contains_append_r.
      eapply contains_longer; [exact Hn | exact Hc]. }
    split.
    + apply Hdiv. unfold render_run. destruct (str_truthy (hyperlink run)).
      * exists ("<a href='" ++ str_opt id (hyperlink run) ++ "' style='" ++ run_style float_str run),
               "a>".
        now rewrite !append_assoc.
      * exists ("<span style='" ++ run_style float_str run), "span>".
        now rewrite !append_assoc.
    + intros address Ha Hne. apply Hdiv. unfold render_run. rewrite Ha.
      destruct address as [|c address]; [contradiction|]. cbn [str_truthy str_opt id].
      exists "", (run_style float_str run ++ "'>" ++ text run ++ "</a>").
      now rewrite !append_assoc.
Qed.

Lemma X11_text_copied_verbatim_witness :
  bounds_in_range Text.markup_shape /\
  exists fragment,
    (forall w, process_shape_data Sample.float_str Sample.b64decode Sample.pil_ok 0
                 Text.markup_shape "out/images" 0 false w = (Ret fragment, w)) /\
    contains ("'>" ++ "<b>Tom & Jerry</b>" ++ "</") fragment /\
    (forall address, hyperlink Text.sized_run = Some address -> address <> "" ->
       contains ("<a href='" ++ address ++ "' style='") fragment).
Proof.
  assert (Hb : bounds_in_range Text.markup_shape)
    by (unfold bounds_in_range, emu_range; cbn; lia).
  split; [exact Hb|].
  refine (X11_text_copied_verbatim Sample.float_str Sample.b64decode Sample.pil_ok 0
            Text.markup_shape "out/images" 0 false _ _ Text.sized_run _ eq_refl eq_refl Hb _ _).
  - discriminate.
  - apply list_elem_of_here.
  - cbn [runs]. apply list_elem_of_further, list_elem_of_here.
Defined.

(** ** The shapes of a slide *)

Lemma concat_empty_app (a b : list string) :
  String.concat "" (a ++ b)%list = String.concat "" a ++ String.concat "" b.
Proof.
  induction a as [|x a IH]; [reflexivity|].
  cbn [app]. destruct a as [|y a].
  - cbn [app String.concat]. destruct b as [|z b]; [now rewrite append_empty_r | reflexivity].
  - change (String.concat "" (x :: (y :: a) ++ b)%list)
      with (x ++ "" ++ String.concat "" ((y :: a) ++ b)%list).
    rewrite IH. change (String.concat "" (x :: y :: a)) with (x ++ "" ++ String.concat "" (y :: a)).
    now rewrite !append_assoc.
Qed.

Lemma process_shapes_app (float_str : spec_float -> string)
    (b64decode : string -> outcome string) (pil_png : string -> string -> written string)
    (before after : list ShapeData) (image_dir : string) (slide_index : nat)
    (ignore_images : bool) :
  forall (shape_index : nat) (w : world),
    process_shapes float_str b64decode pil_png shape_index (before ++ after)%list image_dir
      slide_index ignore_images w =
    (let* a := process_shapes float_str b64decode pil_png shape_index before image_dir
                 slide_index ignore_images in
     let* b := process_shapes float_str b64decode pil_png (shape_index + length before) after
                 image_dir slide_index ignore_images in
     ret (a ++ b)%list) w.
Proof.
  induction before as [|shape_data before IH]; intros shape_index w.
  - cbn [app process_shapes length]. rewrite Nat.add_0_r. unfold bind, ret.
    destruct (process_shapes _ _ _ shape_index after _ _ _ w) as [[b|e] w1]; reflexivity.
  - cbn [app process_shapes length].
    pose proof (fun w1 => IH (S shape_index) w1) as IH'.
    replace (S shape_index + length before)%nat
      with (shape_index + S (length before))%nat in IH' by lia.
    unfold bind, ret in *.
    destruct (process_shape_data _ _ _ shape_index shape_data _ _ _ w) as [[fragment|e] w1];
      [|reflexivity].
    rewrite IH'.
    destruct (process_shapes _ _ _ (S shape_index) before _ _ _ w1) as [[a|e] w2]; [|reflexivity].
    destruct (process_shapes _ _ _ _ after _ _ _ w2) as [[b|e] w3]; reflexivity.
Qed.


(** ** The path of an image is not the path of the document *)

Lemma list_ascii_append (a b : string) :
  list_ascii_of_string (a ++ b) = (list_ascii_of_string a ++ list_ascii_of_string b)%list.
Proof.
  induction a as [|c a IH]; [reflexivity|].
  rewrite append_cons. cbn [list_ascii_of_string app]. now rewrite IH.
Qed.

Lemma slash_free_append (a b : string) :
  slash_free (a ++ b) = slash_free a && slash_free b.
Proof.
  induction a as [|c a IH]; [reflexivity|].
  rewrite append_cons. cbn [slash_free]. now rewrite IH, andb_assoc.
Qed.

Lemma digits_slash_free (s : string) : digits_only s = true -> slash_free s = true.
Proof.
  induction s as [|c s IH]; [reflexivity|]. cbn [digits_only slash_free].
  intros H. apply andb_true_iff in H as [Hc Hs]. rewrite (IH Hs), andb_true_r.
  destruct c as [[] [] [] [] [] [] [] []]; try reflexivity; discriminate Hc.
Qed.

Lemma image_filename_slash_free (i j : nat) : slash_free (image_filename i j) = true.
Proof.
  unfold image_filename.
  rewrite !slash_free_append, !(digits_slash_free _ (str_nat_digits _)). reflexivity.
Qed.

Lemma drop_while_prefix {A} (p : A -> bool) (l : list A) (t : A) (tail : list A) :
  Forall (fun x => p x = true) l -> p t = false ->
  drop_while p (l ++ t :: tail) = t :: tail.
Proof.
  intros Hl Ht. induction Hl as [|x l Hx Hl IH]; cbn [app drop_while].
  - now rewrite Ht.
  - now rewrite Hx.
Qed.

Lemma rev_slash_free (s : string) :
  slash_free s = true ->
  Forall (fun x => negb (Ascii.eqb x "/") = true) (rev (list_ascii_of_string s)).
Proof.
  induction s as [|c s IH]; intros Hs; [constructor|].
  cbn [slash_free] in Hs. apply andb_true_iff in Hs as [Hc Hs].
  cbn [list_ascii_of_string rev]. apply Forall_app. split; [now apply IH|].
  now repeat constructor.
Qed.

Lemma drop_while_rev_slash_free (s : string) (rest : list ascii) :
  slash_free s = true ->
  drop_while (fun c => negb (Ascii.eqb c "/")) (rev (list_ascii_of_string s) ++ "/"%char :: rest) =
    ("/"%char :: rest).
Proof.
  intros Hs. apply drop_while_prefix; [now apply rev_slash_free | reflexivity].
Qed.

(** [os.path.dirname] of a file directly in a directory named [images]. *)
Lemma dirname_in_images (x name : string) :
  slash_free name = true ->
  dirname ((x ++ "images") ++ "/" ++ name) = x ++ "images".
Proof.
  intros Hn. unfold dirname.
  rewrite !list_ascii_append. cbn [list_ascii_of_string].
  rewrite !rev_app_distr. cbn [rev app]. rewrite <- !app_assoc. cbn [app].
  rewrite (drop_while_rev_slash_free name _ Hn).
  cbn [drop_while Ascii.eqb Bool.eqb negb].
  change ("s"%char :: "e"%char :: "g"%char :: "a"%char :: "m"%char :: "i"%char ::
          rev (list_ascii_of_string x))
    with (rev (list_ascii_of_string "images") ++ rev (list_ascii_of_string x))%list.
  rewrite <- rev_app_distr, rev_involutive, <- list_ascii_append.
  apply string_of_list_ascii_of_string.
Qed.

(** The image directory and the path of an image in it, from the
    directory of the document. *)
Lemma image_path_shape (d : string) (i j : nat) :
  exists x,
    path_join d "images" = x ++ "images" /\
    path_join (path_join d "images") (image_filename i j) =
      (x ++ "images") ++ "/" ++ image_filename i j /\
    String.length (x ++ "images") <> String.length d.
Proof.
  destruct (image_filename_head i j) as [s Hs]. rewrite Hs.
  change "images" with (String "i" "mages").
  rewrite (path_join_relative d) by discriminate.
  destruct d as [|c d].
  - exists "". split; [reflexivity|]. split; [reflexivity | discriminate].
  - cbn [String.length Nat.eqb]. destruct (ends_with_slash (String c d)).
    + exists (String c d). split; [reflexivity|]. split.
      * rewrite path_join_relative by discriminate. rewrite length_append. cbn [String.length].
        replace ((S (String.length d) + 6 =? 0)%nat) with false
          by (symmetry; apply Nat.eqb_neq; lia).
        now rewrite ends_with_slash_append.
      * rewrite length_append. cbn [String.length]. lia.
    + exists (String c d ++ "/"). rewrite !append_assoc. split; [reflexivity|]. split.
      * rewrite path_join_relative by discriminate. rewrite !length_append. cbn [String.length].
        replace ((S (String.length d) + (1 + 6) =? 0)%nat) with false
          by (symmetry; apply Nat.eqb_neq; lia).
        change (String c d ++ "/" ++ String "i" "mages") with (String c d ++ String "/" "images").
        rewrite ends_with_slash_append. change (ends_with_slash "/images") with false.
        cbv iota. now rewrite !append_assoc.
      * rewrite !length_append. cbn [String.length]. lia.
Qed.

(** No image is written over the document. *)
Lemma image_path_not_document (output_file : string) (i j : nat) :
  path_join (path_join (dirname output_file) "images") (image_filename i j) <> output_file.
Proof.
  intros H. destruct (image_path_shape (dirname output_file) i j) as (x & Hd & Hp & Hlen).
  rewrite Hp in H. apply (f_equal dirname) in H.
  rewrite dirname_in_images in H by apply image_filename_slash_free.
  apply Hlen. now rewrite H.
Qed.

(** ** What the tasks of the pool leave in the world *)

Section Established.

Context {A B : Type}.
Variable f : A -> M B.

(** A property of the world that every task preserves. *)
Variable P : world -> Prop.

Lemma pool_run_establishes (sched : nat -> nat) (n : nat) :
  forall (step : nat) (pending : list (nat * A)) (st : pool_state) (w : world),
    length pending = n ->
    (forall i a, (i, a) ∈ pending -> forall w', P w' -> P (snd (f a w'))) ->
    (P w \/ exists k i a, pending !! k = Some (i, a) /\ forall w', P (snd (f a w'))) ->
    P (snd (pool_run f sched step n pending st w)).
Proof.
  induction n as [|n IH]; intros step pending st w Hlen Hkeep Hest.
  - destruct Hest as [Hw | (k & i & a & Hk & _)]; [exact Hw|].
    destruct pending; [|discriminate]. discriminate.
  - destruct (pick_pending sched step n pending Hlen) as (i & a & Hk).
    cbn [pool_run]. rewrite Hk.
    assert (Hin : (i, a) ∈ pending) by (eapply list_elem_of_lookup_2; exact Hk).
    pose proof (Hkeep i a Hin w) as Hstep.
    destruct (f a w) as [o w1] eqn:Hfa. cbn [snd] in Hstep.
    apply IH.
    + rewrite length_delete by eauto. lia.
    + intros i' a' Hin'. apply (Hkeep i'). eapply list_elem_of_delete_inv. exact Hin'.
    + destruct Hest as [Hw | (k0 & i0 & a0 & Hk0 & He)]; [left; now apply Hstep|].
      destruct (decide (k0 = (sched step mod length pending)%nat)) as [->|Hne].
      * left. rewrite Hk in Hk0. injection Hk0 as <- <-.
        specialize (He w). now rewrite Hfa in He.
      * right. destruct (decide (k0 < sched step mod length pending)%nat) as [Hlt|Hge].
        -- exists k0, i0, a0. split; [|exact He]. now rewrite list_lookup_delete_lt.
        -- exists (Nat.pred k0), i0, a0. split; [|exact He].
           rewrite list_lookup_delete_ge by lia.
           replace (S (Nat.pred k0)) with k0 by lia. exact Hk0.
Qed.

Lemma starmap_establishes (tasks : list A) (sched : nat -> nat) (w : world) :
  (forall i a, tasks !! i = Some a -> forall w', P w' -> P (snd (f a w'))) ->
  (exists i a, tasks !! i = Some a /\ forall w', P (snd (f a w'))) ->
  P (snd (starmap f tasks sched w)).
Proof.
  intros Hkeep (i & a & Hi & He). unfold starmap, bind.
  pose proof (pool_run_establishes sched (length tasks) 0 (imap pair tasks)
                (PoolState (replicate (length tasks) None) None) w) as Hp.
  destruct (pool_run f sched 0 (length tasks) (imap pair tasks) _ w) as [[st|e] w1];
    cbn [snd] in *.
  - assert (Hw1 : P w1).
    { apply Hp; [apply length_imap | |].
      - intros i' a' Hin. apply elem_of_imap_pair in Hin. now apply (Hkeep i').
      - right. exists i, i, a. split; [|exact He]. now rewrite list_lookup_imap, Hi. }
    destruct (failure st); exact Hw1.
  - apply Hp; [apply length_imap | |].
    + intros i' a' Hin. apply elem_of_imap_pair in Hin. now apply (Hkeep i').
    + right. exists i, i, a. split; [|exact He]. now rewrite list_lookup_imap, Hi.
Qed.

End Established.

(** ** Pictures on disk *)

Lemma concat_empty_cons (x : string) (l : list string) :
  String.concat "" (x :: l) = x ++ String.concat "" l.
Proof. destruct l; [cbn; now rewrite append_empty_r | reflexivity]. Qed.

Lemma contains_concat (x : string) (l : list string) :
  x ∈ l -> contains x (String.concat "" l).
Proof.
  induction l as [|y l IH]; intros Hx; [now apply not_elem_of_nil in Hx|].
  rewrite concat_empty_cons. apply elem_of_cons in Hx as [->|Hx].
  - apply contains_here.
  - now apply contains_append_l, IH.
Qed.

Section Pictures.

Variable float_str : spec_float -> string.
Variable b64decode : string -> outcome string.
Variable pil_png : string -> string -> written string.

Lemma effect_free_common_style (shape_data : ShapeData) : effect_free (common_style shape_data).
Proof. unfold common_style. reads. Qed.

(** A picture that is rendered with its file written: the world after it
    and the fragment. *)
Lemma picture_rendered (shape_index : nat) (shape_data : ShapeData) (image_dir : string)
    (slide_index : nat) (b64 image_bytes png fragment : string) (w w' : world) :
  shape_type shape_data = Some PICTURE ->
  image shape_data = Some b64 ->
  b64decode b64 = Ret image_bytes ->
  pil_png image_bytes (path_join image_dir (image_filename slide_index shape_index)) =
    Written png ->
  process_shape_data float_str b64decode pil_png shape_index shape_data image_dir slide_index
    false w = (Ret fragment, w') ->
  files w' !! path_join image_dir (image_filename slide_index shape_index) = Some png /\
  exists style, fragment = img_tag (image_filename slide_index shape_index) style.
Proof.
  intros Hp Hi Hd Hpng H.
  destruct (effect_free_common_style shape_data) as [o Ho].
  destruct o as [style|e].
  - rewrite (render_picture _ _ _ _ _ _ _ false style w Hp (Ho w)) in H.
    rewrite (save_image_written _ _ _ _ _ _ _ _ _ _ w Hi Hd Hpng) in H.
    injection H as <- <-. split; [|eauto]. cbn [files]. apply lookup_insert_eq.
  - unfold process_shape_data, bind in H. rewrite Ho in H. discriminate.
Qed.

Lemma slide_writes_picture (data : list ShapeData) (image_dir : string) (i j : nat)
    (shape_data : ShapeData) (b64 image_bytes png c : string) (w0 : world) :
  fst (process_slide float_str b64decode pil_png data image_dir i false w0) = Ret c ->
  data !! j = Some shape_data ->
  shape_type shape_data = Some PICTURE ->
  image shape_data = Some b64 ->
  b64decode b64 = Ret image_bytes ->
  pil_png image_bytes (path_join image_dir (image_filename i j)) = Written png ->
  (forall w, files (snd (process_slide float_str b64decode pil_png data image_dir i false w))
               !! path_join image_dir (image_filename i j) = Some png) /\
  contains ("<img src='images/" ++ image_filename i j ++ "'") c.
Proof.
  intros Hc Hj Hp Hi Hd Hpng.
  pose proof (steady_transfer _ _ _ (steady_process_slide float_str b64decode pil_png data
                image_dir i false) Hc) as Hall.
  assert (Hsplit : data = (take j data ++ shape_data :: drop (S j) data)%list)
    by (symmetry; now apply take_drop_middle).
  assert (Hlen : length (take j data) = j).
  { rewrite length_take. apply lookup_lt_Some in Hj. lia. }
  set (before := take j data) in *. set (after := drop (S j) data) in *.
  clearbody before after. subst data. clear Hj.
  assert (Hrun : forall w,
            exists a fragment b w1 w2 w3,
              process_shapes float_str b64decode pil_png 0 before image_dir i false w =
                (Ret a, w1) /\
              process_shape_data float_str b64decode pil_png j shape_data image_dir i false w1 =
                (Ret fragment, w2) /\
              process_shapes float_str b64decode pil_png (S j) after image_dir i false w2 =
                (Ret b, w3) /\
              process_slide float_str b64decode pil_png (before ++ shape_data :: after)
                image_dir i false w = (Ret (String.concat "" (a ++ fragment :: b)), w3)).
  { intros w. specialize (Hall w). unfold process_slide in Hall |- *.
    pose proof (process_shapes_app float_str b64decode pil_png before (shape_data :: after)
                  image_dir i false 0 w) as Happ.
    cbn [Nat.add process_shapes] in Happ. rewrite Hlen in Happ.
    unfold bind, ret in Hall, Happ |- *. rewrite Happ in Hall |- *. clear Happ.
    destruct (process_shapes _ _ _ 0 before _ _ _ w) as [[a|e] w1] eqn:H1;
      [|discriminate Hall].
    destruct (process_shape_data _ _ _ j shape_data _ _ _ w1) as [[fragment|e] w2] eqn:H2;
      [|discriminate Hall].
    destruct (process_shapes _ _ _ (S j) after _ _ _ w2) as [[b|e] w3] eqn:H3;
      [|discriminate Hall].
    exists a, fragment, b, w1, w2, w3. repeat split; try reflexivity; assumption. }
  split.
  - intros w. destruct (Hrun w) as (a & fragment & b & w1 & w2 & w3 & H1 & H2 & H3 & H4).
    rewrite H4. cbn [snd].
    destruct (picture_rendered _ _ _ _ _ _ _ _ _ _ Hp Hi Hd Hpng H2) as [Hfile _].
    rewrite <- Hfile.
    assert (Hk : keeps_file (path_join image_dir (image_filename i j))
                   (process_shapes float_str b64decode pil_png (S j) after image_dir i false)).
    { apply keeps_process_shapes. right.
      intros j' Hj' Heq. apply image_path_inj in Heq. lia. }
    rewrite <- (Hk w2). now rewrite H3.
  - destruct (Hrun w0) as (a & fragment & b & w1 & w2 & w3 & H1 & H2 & H3 & H4).
    rewrite H4 in Hc. injection Hc as <-.
    destruct (picture_rendered _ _ _ _ _ _ _ _ _ _ Hp Hi Hd Hpng H2) as [_ [style ->]].
    eapply contains_longer; [|apply contains_concat, elem_of_app; right; apply list_elem_of_here].
    unfold img_tag. exists "", (" class='absolute object-contain' style='" ++ style ++ "'/>").
    cbn [String.append]. now rewrite !append_assoc.
Qed.

(** The task of another slide leaves the file of the picture alone. *)
Lemma other_slide_keeps_picture (data : list ShapeData) (image_dir : string) (i j k : nat) :
  k <> i ->
  keeps_file (path_join image_dir (image_filename i j))
    (process_slide float_str b64decode pil_png data image_dir k false).
Proof.
  intros Hne. apply keeps_process_slide. right.
  intros j' Heq. apply image_path_inj in Heq. lia.
Qed.

End Pictures.
Lemma contains_concat_map {A} (f : A -> string) (l : list A) (x : A) :
  x ∈ l -> contains (f x) (String.concat "" (map f l)).
Proof.
  induction l as [|y l IH]; intros Hx; [now apply not_elem_of_nil in Hx|].
  cbn [map]. rewrite concat_empty_cons. apply elem_of_cons in Hx as [->|Hx].
  - apply contains_here.
  - now apply contains_append_l, IH.
Qed.

Lemma contains_slide_div (content : string) : contains content (slide_div content).
Proof.
  unfold slide_div. do 9 apply contains_append_l. apply contains_here.
Qed.

Lemma in_document (needle c : string) (contents : list string) (i : nat) :
  contents !! i = Some c -> contains needle c -> contains needle (assemble contents).
Proof.
  intros Hi Hn. unfold assemble. apply contains_append_l, contains_append_r.
  eapply contains_longer; [|apply (contains_concat_map slide_div contents c)].
  - eapply contains_longer; [exact Hn | apply contains_slide_div].
  - eapply list_elem_of_lookup_2. exact Hi.
Qed.

Section OnDisk.

Variable float_str : spec_float -> string.
Variable b64encode : string -> string.
Variable b64decode : string -> outcome string.
Variable pil_png : string -> string -> written string.
Variable sched : nat -> nat.
Variable write_text : string -> string -> written unit.

(** The pool block leaves the file of a picture of a rendered slide on
    disk, whatever the order in which the slides complete. *)
Lemma render_slides_writes_picture (slide_data_list : list (list ShapeData))
    (image_dir : string) (i j : nat) (data : list ShapeData) (shape_data : ShapeData)
    (b64 image_bytes png c : string) (w0 w : world) :
  fst (process_slide float_str b64decode pil_png data image_dir i false w0) = Ret c ->
  slide_data_list !! i = Some data ->
  data !! j = Some shape_data ->
  shape_type shape_data = Some PICTURE ->
  image shape_data = Some b64 ->
  b64decode b64 = Ret image_bytes ->
  pil_png image_bytes (path_join image_dir (image_filename i j)) = Written png ->
  files (snd (render_slides float_str b64decode pil_png sched slide_data_list image_dir
                false w)) !! path_join image_dir (image_filename i j) = Some png.
Proof.
  intros Hc Hi Hj Hp Him Hd Hpng.
  destruct (slide_writes_picture float_str b64decode pil_png data image_dir i j shape_data
              b64 image_bytes png c w0 Hc Hj Hp Him Hd Hpng) as [Hfile _].
  pose proof (starmap_establishes (slide_task float_str b64decode pil_png false)
                (fun w => files w !! path_join image_dir (image_filename i j) = Some png)
                (imap (fun idx d => (d, image_dir, idx)) slide_data_list) sched w) as Hs.
  unfold render_slides, try_except.
  destruct (starmap _ _ sched w) as [[contents|e] w1]; cbn [snd files logging bind ret] in *;
    apply Hs.
  all: try (exists i, (data, image_dir, i); split;
            [now rewrite list_lookup_imap, Hi | intros w'; apply Hfile]).
  all: intros k a Ha; apply slide_tasks_lookup in Ha as (d & Hd' & ->); cbn [slide_task];
    intros w' Hw'; destruct (decide (k = i)) as [->|Hne];
    [ rewrite Hi in Hd'; injection Hd' as <-; apply Hfile
    | rewrite (other_slide_keeps_picture float_str b64decode pil_png d image_dir i j k Hne w');
      exact Hw' ].
Qed.

Lemma conversion_writes_picture (pptx_file : string) (prs : Presentation)
    (output_file : string) (w : world) (slide_data_list : list (list ShapeData))
    (i j : nat) (data : list ShapeData) (shape_data : ShapeData)
    (b64 image_bytes png c : string) :
  let image_dir := path_join (dirname output_file) "images" in
  fst (mapM (extract_slide_data b64encode) prs w) = Ret slide_data_list ->
  fst (process_slide float_str b64decode pil_png data image_dir i false w) = Ret c ->
  slide_data_list !! i = Some data ->
  data !! j = Some shape_data ->
  shape_type shape_data = Some PICTURE ->
  image shape_data = Some b64 ->
  b64decode b64 = Ret image_bytes ->
  pil_png image_bytes (path_join image_dir (image_filename i j)) = Written png ->
  files (snd (pptx_to_html float_str b64encode b64decode pil_png sched write_text pptx_file prs
                output_file false w)) !! path_join image_dir (image_filename i j) = Some png.
Proof.
  intros image_dir He Hc Hi Hj Hp Him Hd Hpng.
  destruct (conversion_outcome float_str b64encode b64decode pil_png sched write_text pptx_file
              prs output_file false w slide_data_list He) as (contents & w2 & Hr & Hrun & _).
  pose proof (render_slides_writes_picture slide_data_list image_dir i j data shape_data
                b64 image_bytes png c w (before_rendering b64encode pptx_file prs w)
                Hc Hi Hj Hp Him Hd Hpng) as Hfile.
  fold image_dir in Hr. rewrite Hr in Hfile. cbn [snd] in Hfile.
  assert (Hne : output_file <> path_join image_dir (image_filename i j)).
  { intros Heq. symmetry in Heq. revert Heq. apply image_path_not_document. }
  rewrite Hrun, write_document_outcome.
  destruct (write_text output_file (assemble contents)) as [[]|e [part|]];
    cbn [snd files left_on_disk]; rewrite ?lookup_insert_ne by exact Hne; exact Hfile.
Qed.

End OnDisk.

(** X13: after a conversion in which every slide is rendered, every
    picture is where the document says: for a picture at slide [i], shape
    [j] that Pillow converts, the file [slide_{i+1}_image_{j+1}.png] of the
    image directory holds the PNG that Pillow wrote, whatever the order in
    which the workers completed the slides (and whether or not the document
    can then be written), and the document that the conversion writes holds
    the [<img>] element that refers to [images/slide_{i+1}_image_{j+1}.png]. *)
Theorem X13_picture_written_and_referenced (float_str : spec_float -> string)
    (b64encode : string -> string) (b64decode : string -> outcome string)
    (pil_png : string -> string -> written string) (sched : nat -> nat)
    (write_text : string -> string -> written unit)
    (pptx_file : string) (prs : Presentation) (output_file : string) (w : world)
    (slide_data_list : list (list ShapeData)) (i j : nat) (data : list ShapeData)
    (shape_data : ShapeData) (b64 image_bytes png : string) :
  let image_dir := path_join (dirname output_file) "images" in
  fst (mapM (extract_slide_data b64encode) prs w) = Ret slide_data_list ->
  (forall k d, slide_data_list !! k = Some d ->
     exists c, fst (process_slide float_str b64decode pil_png d image_dir k false w) = Ret c) ->
  slide_data_list !! i = Some data ->
  data !! j = Some shape_data ->
  shape_type shape_data = Some PICTURE ->
  image shape_data = Some b64 ->
  b64decode b64 = Ret image_bytes ->
  pil_png image_bytes (path_join image_dir (image_filename i j)) = Written png ->
  exists document : string,
    let run := pptx_to_html float_str b64encode b64decode pil_png sched write_text pptx_file prs
                 output_file false w in
    files (snd run) !! path_join image_dir (image_filename i j) = Some png /\
    ends_writing write_text output_file document run /\
    contains ("<img src='images/" ++ image_filename i j ++ "'") document.
Proof.
  intros image_dir He Hall Hi Hj Hp Him Hd Hpng.
  destruct (Hall i data Hi) as [c Hc].
  pose proof (conversion_writes_picture float_str b64encode b64decode pil_png sched write_text
                pptx_file prs output_file w slide_data_list i j data shape_data b64 image_bytes
                png c He Hc Hi Hj Hp Him Hd Hpng) as Hfile.
  destruct (conversion_outcome float_str b64encode b64decode pil_png sched write_text pptx_file
              prs output_file false w slide_data_list He) as (contents & w2 & _ & Hrun & Hout).
  fold image_dir in Hfile, Hout.
  exists (assemble contents). cbv zeta. split; [exact Hfile|].
  split; [rewrite Hrun; apply write_document_ends|].
  destruct Hout as [[Hlen Hrend] | (_ & (k & d & e & Hk & Hfail) & _)].
  - destruct (Hrend i data Hi) as (c' & Hci & Hfix).
    specialize (Hfix w). rewrite Hc in Hfix. injection Hfix as <-.
    apply (in_document _ c contents i Hci).
    exact (proj2 (slide_writes_picture float_str b64decode pil_png data image_dir i j
                    shape_data b64 image_bytes png c w Hc Hj Hp Him Hd Hpng)).
  - exfalso. destruct (Hall k d Hk) as [c' Hc']. rewrite (Hfail w) in Hc'. discriminate.
Qed.

Lemma X13_picture_written_and_referenced_witness :
  exists document : string,
    let run := pptx_to_html Sample.float_str Sample.b64encode Sample.b64decode Sample.pil_ok
                 Sample.last_first Sample.fs_ok "deck.pptx" Sample.three_photos "out/deck.html"
                 false Sample.w0 in
    files (snd run) !! "out/images/slide_2_image_1.png" = Some "iVBORw0KGgo=" /\
    (fst run = Ret tt /\ files (snd run) !! "out/deck.html" = Some document) /\
    contains "<img src='images/slide_2_image_1.png'" document.
Proof.
  refine (X13_picture_written_and_referenced Sample.float_str Sample.b64encode
            Sample.b64decode Sample.pil_ok Sample.last_first Sample.fs_ok "deck.pptx"
            Sample.three_photos "out/deck.html" Sample.w0 (Sample.records Sample.three_photos)
            1 0 (nth 1 (Sample.records Sample.three_photos) [])
            (nth 0 (nth 1 (Sample.records Sample.three_photos) []) (Sample.picture 0))
            "iVBORw0KGgo=" "iVBORw0KGgo=" "iVBORw0KGgo=" eq_refl _ eq_refl eq_refl eq_refl
            eq_refl eq_refl eq_refl).
  intros k d Hk.
  destruct k as [|[|[|k]]]; vm_compute in Hk; try discriminate;
    injection Hk as <-; eexists; vm_compute; reflexivity.
Defined.

(** ** The error that the pool reports *)

Section FirstFailure.

Context {A B : Type}.
Variable f : A -> M B.

Lemma run_in_order_failed (order : list (nat * A)) :
  forall (st : pool_state) (w : world) (e : exn),
    failure st = Some e -> failure (fst (run_in_order f order st w)) = Some e.
Proof.
  induction order as [|[i a] order IH]; intros st w e Hf; cbn [run_in_order]; [exact Hf|].
  destruct (f a w) as [o w1]. apply IH. unfold complete. now rewrite Hf.
Qed.

Lemma run_in_order_first_failure (pre post : list (nat * A)) (i : nat) (a : A) (e : exn) :
  Forall (fun task => exists b, outcome_fixed (f (snd task)) (Ret b)) pre ->
  outcome_fixed (f a) (Raise e) ->
  forall (st : pool_state) (w : world),
    failure st = None ->
    failure (fst (run_in_order f (pre ++ (i, a) :: post)%list st w)) = Some e.
Proof.
  intros Hpre He. induction Hpre as [|[k x] pre [b Hb] _ IH]; intros st w Hf.
  - cbn [app run_in_order]. specialize (He w). destruct (f a w) as [o w1]. cbn in He. subst o.
    apply run_in_order_failed. unfold complete. now rewrite Hf.
  - cbn [app run_in_order]. cbn [snd] in Hb. specialize (Hb w).
    destruct (f x w) as [o w1]. cbn in Hb. subst o.
    apply IH. unfold complete. now rewrite Hf.
Qed.

Lemma starmap_first_failure (tasks : list A) (sched : nat -> nat)
    (pre post : list (nat * A)) (i : nat) (a : A) (e : exn) (w : world) :
  completion_order sched 0 (length tasks) (imap pair tasks) = (pre ++ (i, a) :: post)%list ->
  Forall (fun task => exists b, outcome_fixed (f (snd task)) (Ret b)) pre ->
  outcome_fixed (f a) (Raise e) ->
  exists w', starmap f tasks sched w = (Raise e, w').
Proof.
  intros Ho Hpre He. unfold starmap, bind. rewrite pool_run_in_order, Ho.
  pose proof (run_in_order_first_failure pre post i a e Hpre He
                (PoolState (replicate (length tasks) None) None) w eq_refl) as Hf.
  destruct (run_in_order f (pre ++ (i, a) :: post)%list _ w) as [st' w']. cbn [fst] in Hf.
  rewrite Hf. eexists. reflexivity.
Qed.

End FirstFailure.

(** X14: when slides fail, the error that the conversion logs is the
    exception of the failing slide that completes first: the slides completed
    before it were rendered, and the failures that complete after it are not
    reported.  Which slide that is depends on the order in which the workers
    complete: with three failing slides completed last first the log names
    the third slide, and completed in order it names the first. *)
Theorem X14_first_completed_failure_is_logged (float_str : spec_float -> string)
    (b64decode : string -> outcome string) (pil_png : string -> string -> written string)
    (sched : nat -> nat) (slide_data_list : list (list ShapeData)) (image_dir : string)
    (ignore_images : bool) (w : world)
    (pre post : list (nat * (list ShapeData * string * nat)))
    (i : nat) (task : list ShapeData * string * nat) (e : exn) :
  completion_order sched 0 (length slide_data_list)
    (imap pair (slide_tasks slide_data_list image_dir)) = (pre ++ (i, task) :: post)%list ->
  Forall (task_renders float_str b64decode pil_png ignore_images) pre ->
  outcome_fixed (slide_task float_str b64decode pil_png ignore_images task) (Raise e) ->
  exists w',
    render_slides float_str b64decode pil_png sched slide_data_list image_dir ignore_images w =
      (Ret [], World (files w') (log w' ++ [(ERROR, render_error e)])).
Proof.
  intros Ho Hpre He. unfold render_slides, try_except.
  destruct (starmap_first_failure (slide_task float_str b64decode pil_png ignore_images)
              (slide_tasks slide_data_list image_dir) sched pre post i task e w) as [w' Hs].
  - unfold slide_tasks at 1. rewrite length_imap. exact Ho.
  - exact Hpre.
  - exact He.
  - unfold slide_tasks in Hs. rewrite Hs. exists w'. reflexivity.
Qed.

Lemma X14_first_completed_failure_is_logged_witness :
  let records := Sample.records Sample.three_photos in
  let task := fun i => (nth i records [], "out/images", i) in
  (exists w',
     render_slides Sample.float_str Sample.b64decode Race.pil_refuses Sample.last_first
       records "out/images" false Sample.w0 =
       (Ret [], World (files w')
                  (log w' ++ [(ERROR, render_error
                                        (Race.refused "out/images/slide_3_image_1.png"))]))) /\
  (exists w',
     render_slides Sample.float_str Sample.b64decode Race.pil_refuses Sample.first_first
       records "out/images" false Sample.w0 =
       (Ret [], World (files w')
                  (log w' ++ [(ERROR, render_error
                                        (Race.refused "out/images/slide_1_image_1.png"))]))).
Proof.
  cbv zeta. split.
  - refine (X14_first_completed_failure_is_logged Sample.float_str Sample.b64decode
              Race.pil_refuses Sample.last_first (Sample.records Sample.three_photos)
              "out/images" false Sample.w0 []
              [(1%nat, (nth 1 (Sample.records Sample.three_photos) [], "out/images", 1%nat));
               (0%nat, (nth 0 (Sample.records Sample.three_photos) [], "out/images", 0%nat))]
              2 (nth 2 (Sample.records Sample.three_photos) [], "out/images", 2%nat)
              (Race.refused "out/images/slide_3_image_1.png") eq_refl (List.Forall_nil _) _).
    apply (steady_transfer _ Sample.w0); [apply steady_process_slide | reflexivity].
  - refine (X14_first_completed_failure_is_logged Sample.float_str Sample.b64decode
              Race.pil_refuses Sample.first_first (Sample.records Sample.three_photos)
              "out/images" false Sample.w0 []
              [(1%nat, (nth 1 (Sample.records Sample.three_photos) [], "out/images", 1%nat));
               (2%nat, (nth 2 (Sample.records Sample.three_photos) [], "out/images", 2%nat))]
              0 (nth 0 (Sample.records Sample.three_photos) [], "out/images", 0%nat)
              (Race.refused "out/images/slide_1_image_1.png") eq_refl (List.Forall_nil _) _).
    apply (steady_transfer _ Sample.w0); [apply steady_process_slide | reflexivity].
Defined.

(** ** The optimizer *)

Section Optimizer.

Variable Img : Type.
Variable image_open : string -> outcome Img.
Variable mode : Img -> string.
Variable size : Img -> Z * Z.
Variable convert : Img -> string -> outcome Img.
Variable thumbnail : Img -> Z * Z -> outcome Img.
Variable posterize : Img -> Z -> outcome Img.
Variable autocontrast : Img -> outcome Img.
Variable save_png : Img -> OptimizePng.saved.

Abbreviation optimize :=
  (OptimizePng.optimize_image Img image_open mode size convert thumbnail posterize
     autocontrast save_png).

(** What one call of [optimize_image] does. *)
Lemma optimize_image_outcome (file_path : string) (threshold : Z) (w : OptimizePng.world) :
  exists (b : bool) (w' : OptimizePng.world),
    optimize file_path threshold w = (Ret b, w') /\
    (forall p, p <> file_path -> OptimizePng.files w' !! p = OptimizePng.files w !! p) /\
    ((b = true /\ OptimizePng.stdout w' = OptimizePng.stdout w /\
      is_Some (OptimizePng.files w' !! file_path)) \/
     (b = false /\ exists e,
        OptimizePng.stdout w' =
          (OptimizePng.stdout w ++ [OptimizePng.error_line file_path e])%list)).
Proof.
  unfold OptimizePng.optimize_image, OptimizePng.try_except, OptimizePng.bind,
    OptimizePng.open, OptimizePng.lift, OptimizePng.ret, OptimizePng.save, OptimizePng.print.
  repeat (cbn beta iota zeta;
          match goal with
          | |- context [match ?x with _ => _ end] =>
              lazymatch x with
              | context [match _ with _ => _ end] => fail
              | _ => destruct x
              end
          end).
  all: cbn beta iota zeta; eexists _, _; (split; [reflexivity|]); split;
    [ intros p Hp; cbn; rewrite ?lookup_insert_ne by congruence; reflexivity |].
  all: first
    [ left; split; [reflexivity|]; split; [reflexivity|];
      cbn; rewrite lookup_insert_eq; eauto
    | right; split; [reflexivity|]; eexists; reflexivity ].
Qed.

End Optimizer.

(** ** The workers of the optimizer *)

Lemma completion_order_perm {A} (sched : nat -> nat) (n : nat) :
  forall (step : nat) (pending : list (nat * A)),
    length pending = n -> completion_order sched step n pending ≡ₚ pending.
Proof.
  induction n as [|n IH]; intros step pending Hlen.
  - destruct pending; [reflexivity | discriminate].
  - destruct (pick_pending sched step n pending Hlen) as (i & a & Hk).
    cbn [completion_order]. rewrite Hk.
    rewrite IH by (rewrite length_delete by eauto; lia).
    symmetry. now apply delete_Permutation.
Qed.

Lemma imap_pair_indices {A} (tasks : list A) :
  (imap pair tasks).*1 = seq 0 (length tasks).
Proof.
  rewrite fmap_imap, <- (list_fmap_id (seq 0 (length tasks))), <- (imap_seq_0 tasks id).
  now apply imap_ext.
Qed.

Lemma failures_insert (done : list (option (outcome bool))) :
  forall (i : nat) (b : bool),
    done !! i = Some None ->
    failures (<[i := Some (Ret b)]> done) = (failures done + if b then 0 else 1)%nat.
Proof.
  unfold failures. induction done as [|x done IH]; intros i b Hi; [discriminate|].
  destruct i as [|i]; cbn in Hi.
  - injection Hi as ->. destruct b; cbn; lia.
  - change (<[S i := Some (Ret b)]> (x :: done)) with (x :: <[i := Some (Ret b)]> done).
    cbn [List.filter]. specialize (IH i b Hi).
    destruct (is_failure x); cbn [length]; lia.
Qed.

Lemma collect_returned (done : list (option (outcome bool))) :
  Forall returned done ->
  exists results,
    OptimizePng.collect done = Ret results /\
    length results = length done /\
    (OptimizePng.sum results + failures done = length done)%nat.
Proof.
  unfold failures, OptimizePng.sum.
  induction 1 as [|x done [b ->] _ (results & Hc & Hlen & Hsum)].
  - exists []. repeat split.
  - exists (b :: results). cbn [OptimizePng.collect]. rewrite Hc. split; [reflexivity|].
    split; [cbn; now rewrite Hlen|].
    destruct b; cbn [List.filter is_failure id length]; lia.
Qed.

Section Workers.

Variable Img : Type.
Variable image_open : string -> outcome Img.
Variable mode : Img -> string.
Variable size : Img -> Z * Z.
Variable convert : Img -> string -> outcome Img.
Variable thumbnail : Img -> Z * Z -> outcome Img.
Variable posterize : Img -> Z -> outcome Img.
Variable autocontrast : Img -> outcome Img.
Variable save_png : Img -> OptimizePng.saved.

Abbreviation optimize_task :=
  (fun task : string * Z =>
     OptimizePng.optimize_image Img image_open mode size convert thumbnail posterize
       autocontrast save_png (fst task) (snd task)).

(** The workers account for every task: each one ends with [True], or
    with [False] and one line printed, and touches its own file only. *)
Lemma run_workers_account (order : list (nat * (string * Z))) :
  forall (done : list (option (outcome bool))) (w : OptimizePng.world),
    NoDup order.*1 ->
    (forall i, i ∈ order.*1 -> done !! i = Some None) ->
    exists done' w' errors,
      OptimizePng.run_workers optimize_task order done w = (done', w') /\
      length done' = length done /\
      (forall i, i ∉ order.*1 -> done' !! i = done !! i) /\
      (forall i, i ∈ order.*1 -> returned (default None (done' !! i))) /\
      OptimizePng.stdout w' = (OptimizePng.stdout w ++ errors)%list /\
      failures done' = (failures done + length errors)%nat /\
      Forall (fun line => exists task e, task ∈ order.*2 /\
                line = OptimizePng.error_line (fst task) e) errors /\
      (forall p, p ∉ order.*2.*1 -> OptimizePng.files w' !! p = OptimizePng.files w !! p).
Proof.
  induction order as [|[i task] order IH]; intros done w Hnd Hpending.
  - exists done, w, []. cbn. rewrite app_nil_r, Nat.add_0_r.
    repeat split; try reflexivity; try constructor.
    intros i Hi. now apply not_elem_of_nil in Hi.
  - cbn [fmap list_fmap fst] in Hnd. apply NoDup_cons in Hnd as [Hi Hnd].
    cbn [OptimizePng.run_workers].
    destruct (optimize_image_outcome Img image_open mode size convert thumbnail posterize
                autocontrast save_png (fst task) (snd task) w)
      as (b & w1 & Hrun & Hframe & Hout).
    rewrite Hrun.
    assert (Hdi : done !! i = Some None) by (apply Hpending, list_elem_of_here).
    destruct (IH (<[i := Some (Ret b)]> done) w1 Hnd) as
      (done' & w' & errors & Hrest & Hlen & Hother & Hfilled & Hstd & Hfail & Herr & Hfiles).
    { intros k Hk. rewrite list_lookup_insert_ne by (intros ->; contradiction).
      apply Hpending. now apply list_elem_of_further. }
    assert (Hfirst : exists line,
              OptimizePng.stdout w1 = (OptimizePng.stdout w ++ line)%list /\
              length line = (if b then 0 else 1)%nat /\
              Forall (fun l => exists e, l = OptimizePng.error_line (fst task) e) line).
    { destruct Hout as [(-> & Hs & _) | (-> & e & Hs)].
      - exists []. rewrite app_nil_r. repeat split; [exact Hs | constructor].
      - exists [OptimizePng.error_line (fst task) e]. repeat split; [exact Hs|].
        constructor; [eauto | constructor]. }
    destruct Hfirst as (line & Hs1 & Hl1 & Hf1).
    exists done', w', (line ++ errors)%list.
    split; [exact Hrest|]. split; [now rewrite Hlen, length_insert|].
    split; [|split; [|split; [|split; [|split]]]].
    + intros k Hk. apply not_elem_of_cons in Hk as [Hki Hk].
      rewrite (Hother k Hk). apply list_lookup_insert_ne. intros Heq. apply Hki. now rewrite Heq.
    + intros k Hk. apply elem_of_cons in Hk as [Heq|Hk]; [subst k|now apply Hfilled].
      cbn [fst]. rewrite (Hother i Hi).
      rewrite list_lookup_insert_eq by (eapply lookup_lt_Some; exact Hdi).
      cbn. now exists b.
    + rewrite Hstd, Hs1. now rewrite <- app_assoc.
    + rewrite Hfail, (failures_insert done i b Hdi), length_app, Hl1. lia.
    + apply Forall_app. split.
      * eapply Forall_impl; [exact Hf1|]. intros l [e ->].
        exists task, e. split; [apply list_elem_of_here | reflexivity].
      * eapply Forall_impl; [exact Herr|]. intros l (t & e & Ht & ->).
        exists t, e. split; [now apply list_elem_of_further | reflexivity].
    + intros p Hp. cbn [fmap list_fmap] in Hp. apply not_elem_of_cons in Hp as [Hp1 Hp].
      rewrite (Hfiles p Hp). apply Hframe. exact Hp1.
Qed.

End Workers.
Lemma imap_pair_values {A} (tasks : list A) : (imap pair tasks).*2 = tasks.
Proof.
  apply list_eq. intros i. rewrite list_lookup_fmap, list_lookup_imap.
  now destruct (tasks !! i).
Qed.

Lemma failures_replicate (n : nat) : failures (replicate n None) = 0%nat.
Proof. unfold failures. induction n as [|n IH]; [reflexivity | exact IH]. Qed.

Section Batch.

Variable Img : Type.
Variable image_open : string -> outcome Img.
Variable mode : Img -> string.
Variable size : Img -> Z * Z.
Variable convert : Img -> string -> outcome Img.
Variable thumbnail : Img -> Z * Z -> outcome Img.
Variable posterize : Img -> Z -> outcome Img.
Variable autocontrast : Img -> outcome Img.
Variable save_png : Img -> OptimizePng.saved.

(** One call of [optimize_image], from the file, the prepared image and
    what the save does. *)
Lemma optimize_image_steps (file_path : string) (threshold : Z) (w : OptimizePng.world) :
  OptimizePng.optimize_image Img image_open mode size convert thumbnail posterize
    autocontrast save_png file_path threshold w =
    let failed := fun (e : exn) (files : gmap string string) =>
      (Ret false,
       OptimizePng.World files
         (OptimizePng.stdout w ++ [OptimizePng.error_line file_path e])) in
    match OptimizePng.files w !! file_path with
    | None =>
        failed (Exn FileNotFoundError
                  ("[Errno 2] No such file or directory: '" ++ file_path ++ "'"))
               (OptimizePng.files w)
    | Some bytes =>
        match OptimizePng.prepared Img image_open mode size convert thumbnail posterize
                autocontrast threshold bytes with
        | Raise e => failed e (OptimizePng.files w)
        | Ret img =>
            match save_png img with
            | OptimizePng.Saved png =>
                (Ret true,
                 OptimizePng.World (<[file_path := png]> (OptimizePng.files w))
                   (OptimizePng.stdout w))
            | OptimizePng.Failed e None => failed e (OptimizePng.files w)
            | OptimizePng.Failed e (Some part) =>
                failed e (<[file_path := part]> (OptimizePng.files w))
            end
        end
    end.
Proof.
  unfold OptimizePng.optimize_image, OptimizePng.prepared, OptimizePng.and_then,
    OptimizePng.try_except, OptimizePng.bind, OptimizePng.open, OptimizePng.lift,
    OptimizePng.ret, OptimizePng.save, OptimizePng.print.
  repeat (cbn beta iota zeta;
          match goal with
          | |- context [match ?x with _ => _ end] =>
              lazymatch x with
              | context [match _ with _ => _ end] => fail
              | _ => destruct x
              end
          end).
  all: reflexivity.
Qed.



End Batch.

(** ** The files that are selected *)

Lemma length_lower (s : string) : String.length (OptimizePng.lower s) = String.length s.
Proof. induction s as [|c s IH]; [reflexivity|]. cbn. now rewrite IH. Qed.

Lemma lower_append (a b : string) :
  OptimizePng.lower (a ++ b) = OptimizePng.lower a ++ OptimizePng.lower b.
Proof.
  induction a as [|c a IH]; [reflexivity|].
  rewrite append_cons. cbn [OptimizePng.lower]. now rewrite IH.
Qed.

Lemma skip_append (a b : string) : OptimizePng.skip (String.length a) (a ++ b) = b.
Proof. induction a as [|c a IH]; [now destruct b | exact IH]. Qed.

Lemma split_at_skip (s : string) :
  forall n, (n <= String.length s)%nat ->
    exists a, s = a ++ OptimizePng.skip n s /\ String.length a = n.
Proof.
  induction s as [|c s IH]; intros n Hn.
  - exists "". cbn in Hn. destruct n; [now split | lia].
  - destruct n as [|n]; [exists ""; now split|].
    destruct (IH n) as (a & Ha & Hl); [cbn in Hn; lia|].
    exists (String c a). cbn [OptimizePng.skip]. rewrite append_cons, <- Ha.
    split; [reflexivity | cbn; now rewrite Hl].
Qed.

Lemma endswith_png (file : string) :
  OptimizePng.endswith (OptimizePng.lower file) ".png" = true <->
  exists stem ext, file = stem ++ ext /\ OptimizePng.lower ext = ".png".
Proof.
  unfold OptimizePng.endswith. rewrite length_lower. cbn [String.length]. split.
  - intros H. apply andb_true_iff in H as [Hlen Heq].
    apply Nat.leb_le in Hlen. apply String.eqb_eq in Heq.
    destruct (split_at_skip file (String.length file - 4)) as (stem & Hs & Hl); [lia|].
    remember (String.length file - 4)%nat as k eqn:Hk. clear Hk Hlen.
    remember (OptimizePng.skip k file) as ext eqn:He. clear He.
    exists stem, ext. split; [exact Hs|]. subst file k.
    rewrite lower_append, <- (length_lower stem), skip_append in Heq. exact Heq.
  - intros (stem & ext & -> & Hext).
    assert (Hl : String.length ext = 4%nat) by (rewrite <- length_lower, Hext; reflexivity).
    rewrite length_append, Hl. apply andb_true_iff. split; [apply Nat.leb_le; lia|].
    apply String.eqb_eq. rewrite lower_append, Hext.
    replace (String.length stem + 4 - 4)%nat with (String.length (OptimizePng.lower stem))
      by (rewrite length_lower; lia).
    apply skip_append.
Qed.

(** X17: a file is given to the optimizer exactly when it is listed by
    the walk and its name ends in [.png] once its letters are lowered, so
    [.PNG] and [.Png] count as well; its path is its name joined to the
    directory that lists it. *)
Theorem X17_png_files_selected (walk : OptimizePng.Walk) (path : string) :
  path ∈ OptimizePng.image_files walk <->
  exists root dirs names stem ext,
    (root, dirs, names) ∈ walk /\ (stem ++ ext) ∈ names /\
    OptimizePng.lower ext = ".png" /\ path = path_join root (stem ++ ext).
Proof.
  unfold OptimizePng.image_files. split.
  - intros Hp. apply list_elem_of_In, in_flat_map in Hp as ([[root dirs] names] & Hw & Hin).
    apply in_map_iff in Hin as (file & <- & Hf).
    apply filter_In in Hf as [Hf Hpng]. apply endswith_png in Hpng as (stem & ext & -> & Hext).
    exists root, dirs, names, stem, ext.
    split; [now apply list_elem_of_In|]. split; [now apply list_elem_of_In|]. now split.
  - intros (root & dirs & names & stem & ext & Hw & Hf & Hext & ->).
    apply list_elem_of_In, in_flat_map. exists (root, dirs, names).
    split; [now apply list_elem_of_In|].
    apply in_map_iff. exists (stem ++ ext). split; [reflexivity|].
    apply filter_In. split; [now apply list_elem_of_In|]. apply endswith_png. eauto.
Qed.

(** ** The background of an extracted shape *)

Lemma get_fill_color_text (shape : Shape) (w w' : world) (c : option string) :
  get_fill_color shape w = (Ret c, w') -> fill_text c.
Proof.
  unfold get_fill_color, fill_text, bind, lift, ret, raise. intros H.
  destruct (shape_fill shape) as [fill|e].
  - destruct (fill_type fill) as [t|]; [|discriminate].
    destruct (fill_type_is t SOLID).
    + destruct (fore_color_rgb fill) as [[[[r g] b]|]|]; [| |discriminate].
      * injection H as <- _. right. right. exists r, g, b. reflexivity.
      * injection H as <- _. now left.
    + destruct (fill_type_is t BACKGROUND); injection H as <- _; [right|]; now left.
  - destruct (is_AttributeError e); [|discriminate]. injection H as <- _. now left.
Qed.

(** X19: whatever the shape, the background that the renderer writes for
    its extracted record is one of three texts: [background-color: None;],
    [background-color: transparent;] or [background-color: #rrggbb;] with six
    hexadecimal digits.  A shape that has no fill at all (reading [fill]
    raises [AttributeError]) is extracted with no color rather than
    failing. *)
Theorem X19_background_of_an_extracted_shape (b64encode : string -> string) (shape : Shape)
    (w w' : world) (shape_data : ShapeData) :
  extract_shape b64encode shape w = (Ret shape_data, w') ->
  (bg_color shape_data = "background-color: None;" \/
   bg_color shape_data = "background-color: transparent;" \/
   exists r g b : Byte.byte,
     bg_color shape_data =
       "background-color: #" ++ format_02x r ++ format_02x g ++ format_02x b ++ ";") /\
  (forall e, shape_fill shape = Raise e -> is_AttributeError e = true ->
     fill_color shape_data = Some None).
Proof.
  unfold extract_shape. intros H.
  repeat match type of H with
         | bind ?m ?k ?w0 = _ =>
             let o := fresh "o" in let w1 := fresh "w" in let E := fresh "E" in
             unfold bind at 1 in H; destruct (m w0) as [o w1] eqn:E;
             destruct o; [|discriminate H]
         end.
  injection H as <- _. unfold bg_color. cbn [fill_color]. split.
  - destruct (get_fill_color_text _ _ _ _ E2) as [-> | [-> | (r & g & b & ->)]].
    + now left.
    + right. now left.
    + right. right. exists r, g, b. cbn [str_opt id]. now rewrite !append_assoc.
  - intros e He Ha. unfold get_fill_color in E2. rewrite He, Ha in E2.
    now injection E2 as <- _.
Qed.

Lemma X19_background_of_an_extracted_shape_witness :
  (bg_color (nth 0 (nth 1 (Sample.records Sample.text_then_photo) []) (Sample.picture 0)) =
     "background-color: None;" \/
   bg_color (nth 0 (nth 1 (Sample.records Sample.text_then_photo) []) (Sample.picture 0)) =
     "background-color: transparent;" \/
   exists r g b : Byte.byte,
     bg_color (nth 0 (nth 1 (Sample.records Sample.text_then_photo) []) (Sample.picture 0)) =
       "background-color: #" ++ format_02x r ++ format_02x g ++ format_02x b ++ ";") /\
  (forall e, shape_fill Sample.photo = Raise e -> is_AttributeError e = true ->
     fill_color (nth 0 (nth 1 (Sample.records Sample.text_then_photo) []) (Sample.picture 0)) =
       Some None).
Proof.
  exact (X19_background_of_an_extracted_shape Sample.b64encode Sample.photo Sample.w0 Sample.w0
           _ eq_refl).
Defined.

(** ** The records of the log *)

Lemma logs_ret {A} (P : log_level * string -> Prop) (a : A) : logs P (ret a).
Proof. intros w. exists []. split; [cbn; now rewrite app_nil_r | constructor]. Qed.

Lemma logs_raise {A} (P : log_level * string -> Prop) (e : exn) : logs P (@raise A e).
Proof. intros w. exists []. split; [cbn; now rewrite app_nil_r | constructor]. Qed.

Lemma logs_lift {A} (P : log_level * string -> Prop) (o : outcome A) : logs P (lift o).
Proof. intros w. exists []. split; [cbn; now rewrite app_nil_r | constructor]. Qed.

Lemma logs_write_file (P : log_level * string -> Prop) (path data : string) :
  logs P (write_file path data).
Proof. intros w. exists []. split; [cbn; now rewrite app_nil_r | constructor]. Qed.

Lemma logs_fail_writing {A} (P : log_level * string -> Prop) (path : string) (e : exn)
    (left_behind : option string) :
  logs P (@fail_writing A path e left_behind).
Proof.
  intros w. exists []. split; [|constructor].
  destruct left_behind; cbn; now rewrite app_nil_r.
Qed.

Lemma logs_logging (P : log_level * string -> Prop) (lvl : log_level) (msg : string) :
  P (lvl, msg) -> logs P (logging lvl msg).
Proof. intros Hp w. exists [(lvl, msg)]. split; [reflexivity | now constructor]. Qed.

Lemma logs_effect_free {A} (P : log_level * string -> Prop) (m : M A) :
  effect_free m -> logs P m.
Proof.
  intros [o Ho] w. rewrite Ho. exists []. split; [cbn; now rewrite app_nil_r | constructor].
Qed.

Lemma logs_bind {A B} (P : log_level * string -> Prop) (m : M A) (k : A -> M B) :
  logs P m -> (forall a, logs P (k a)) -> logs P (bind m k).
Proof.
  intros Hm Hk w. unfold bind. destruct (Hm w) as (l & Hl & Hp).
  destruct (m w) as [[a|e] w1]; cbn [snd] in *; [|eauto].
  destruct (Hk a w1) as (l' & Hl' & Hp'). exists (l ++ l')%list.
  split; [now rewrite Hl', Hl, app_assoc | now apply Forall_app].
Qed.

Lemma logs_try_except {A} (P : log_level * string -> Prop) (m : M A)
    (handles : exn -> bool) (h : exn -> M A) :
  logs P m -> (forall e, logs P (h e)) -> logs P (try_except m handles h).
Proof.
  intros Hm Hh w. unfold try_except. destruct (Hm w) as (l & Hl & Hp).
  destruct (m w) as [[a|e] w1]; cbn [snd] in *; [eauto|].
  destruct (handles e); [|eauto].
  destruct (Hh e w1) as (l' & Hl' & Hp'). exists (l ++ l')%list.
  split; [now rewrite Hl', Hl, app_assoc | now apply Forall_app].
Qed.

Lemma logs_pool_run {A B} (P : log_level * string -> Prop) (f : A -> M B)
    (sched : nat -> nat) (n : nat) :
  (forall a, logs P (f a)) ->
  forall (step : nat) (pending : list (nat * A)) (st : pool_state),
    logs P (pool_run f sched step n pending st).
Proof.
  intros Hf. induction n as [|n IH]; intros step pending st w; cbn [pool_run].
  - apply logs_ret.
  - destruct (pending !! (sched step mod length pending)%nat) as [[i a]|]; [|apply logs_ret].
    destruct (Hf a w) as (l & Hl & Hp). destruct (f a w) as [o w1]. cbn [snd] in Hl.
    destruct (IH (S step) (delete (sched step mod length pending)%nat pending)
                (complete i o st) w1) as (l' & Hl' & Hp').
    exists (l ++ l')%list. split; [now rewrite Hl', Hl, app_assoc | now apply Forall_app].
Qed.

Lemma logs_starmap {A B} (P : log_level * string -> Prop) (f : A -> M B)
    (tasks : list A) (sched : nat -> nat) :
  (forall a, logs P (f a)) -> logs P (starmap f tasks sched).
Proof.
  intros Hf. unfold starmap. apply logs_bind; [now apply logs_pool_run|].
  intros st. destruct (failure st); [apply logs_raise | apply logs_ret].
Qed.

Lemma logs_process_slide (float_str : spec_float -> string)
    (b64decode : string -> outcome string) (pil_png : string -> string -> written string)
    (slide_data : list ShapeData) (image_dir : string) (slide_index : nat)
    (ignore_images : bool) :
  logs rendering_record
    (process_slide float_str b64decode pil_png slide_data image_dir slide_index ignore_images).
Proof.
  unfold process_slide. apply logs_bind; [|intros; apply logs_ret].
  generalize 0%nat. induction slide_data as [|shape_data rest IH]; intros shape_index;
    cbn [process_shapes]; [apply logs_ret|].
  apply logs_bind; [|intros; apply logs_bind; [apply IH | intros; apply logs_ret]].
  unfold process_shape_data.
  apply logs_bind; [apply logs_effect_free, effect_free_common_style|]. intros style.
  destruct (decide (shape_type shape_data = Some PICTURE)) as [Hpic|Hpic].
  - apply logs_bind; [|intros [?|]; apply logs_ret].
    destruct ignore_images; [apply logs_ret|]. unfold save_image.
    apply logs_bind; [apply logs_lift|]. intros image_bytes.
    apply logs_try_except.
    + destruct (pil_png _ _) as [png|e left_behind]; [|apply logs_fail_writing].
      apply logs_bind; [apply logs_write_file | intros; apply logs_ret].
    + intros e. apply logs_bind; [|intros; apply logs_ret].
      apply logs_logging. now exists slide_index, shape_index, e.
  - destruct (has_text_frame shape_data); [|apply logs_ret].
    destruct (text_frame shape_data); [apply logs_ret | apply logs_raise].
Qed.

(** ** The records of the log, one by one *)

Lemma logs_exactly_ret {A} (a : A) : logs_exactly [] (ret a).
Proof. intros w a' w' [= _ <-]. now rewrite app_nil_r. Qed.

Lemma logs_exactly_effect_free {A} (m : M A) : effect_free m -> logs_exactly [] m.
Proof. intros [o Ho] w a w'. rewrite Ho. intros [= _ <-]. now rewrite app_nil_r. Qed.

Lemma logs_exactly_bind {A B} (l1 l2 : list (log_level * string)) (m : M A) (k : A -> M B) :
  logs_exactly l1 m -> (forall a, logs_exactly l2 (k a)) ->
  logs_exactly (l1 ++ l2) (bind m k).
Proof.
  intros Hm Hk w b w'. unfold bind.
  destruct (m w) as [[a|e] w1] eqn:Hmw; [|discriminate].
  intros Hkw. rewrite (Hk a _ _ _ Hkw), (Hm _ _ _ Hmw). now rewrite app_assoc.
Qed.

Lemma logs_exactly_mapM {A B} (L : A -> list (log_level * string)) (f : A -> M B)
    (l : list A) :
  (forall x, logs_exactly (L x) (f x)) -> logs_exactly (flat_map L l) (mapM f l).
Proof.
  intros Hf. induction l as [|x l IH]; cbn [mapM flat_map]; [apply logs_exactly_ret|].
  apply logs_exactly_bind; [apply Hf|]. intros y.
  rewrite <- (app_nil_r (flat_map L l)).
  apply logs_exactly_bind; [exact IH | intros; apply logs_exactly_ret].
Qed.

Lemma logs_exactly_extract_shape (b64encode : string -> string) (shape : Shape) :
  logs_exactly (frame_warning shape) (extract_shape b64encode shape).
Proof.
  unfold extract_shape.
  rewrite <- (app_nil_r (frame_warning shape)).
  apply logs_exactly_bind.
  - unfold frame_warning. destruct (shape_has_text_frame shape); [|apply logs_exactly_ret].
    intros w a w'. unfold bind, ret.
    destruct (effect_free_read_text_frame (shape_text_frame shape)) as [o Ho].
    unfold extract_text_frame, try_except. rewrite !Ho. cbn [fst].
    destruct o as [ps|e].
    + intros [= _ <-]. now rewrite app_nil_r.
    + cbn. intros [= _ <-]. reflexivity.
  - intros tf. apply logs_exactly_effect_free.
    apply effect_free_bind.
    { destruct (is_picture shape); [|apply effect_free_ret].
      apply effect_free_bind; [apply effect_free_lift | intros; apply effect_free_ret]. }
    intros img. apply effect_free_bind.
    { destruct (is_picture shape); [|apply effect_free_ret].
      apply effect_free_bind; [apply effect_free_lift | intros; apply effect_free_ret]. }
    intros fmt. apply effect_free_bind; [apply effect_free_get_fill_color|].
    intros fc. apply effect_free_ret.
Qed.

Lemma logs_exactly_extract_slides (b64encode : string -> string) (prs : Presentation) :
  logs_exactly (frame_warnings prs) (mapM (extract_slide_data b64encode) prs).
Proof.
  apply logs_exactly_mapM. intros slide. unfold extract_slide_data.
  apply logs_exactly_mapM. intros shape. apply logs_exactly_extract_shape.
Qed.

Section ExactRender.

Variable float_str : spec_float -> string.
Variable b64decode : string -> outcome string.
Variable pil_png : string -> string -> written string.

Lemma logs_exactly_process_shape_data (shape_index : nat) (shape_data : ShapeData)
    (image_dir : string) (slide_index : nat) (ignore_images : bool) :
  logs_exactly
    (picture_warning b64decode pil_png image_dir slide_index ignore_images shape_index
       shape_data)
    (process_shape_data float_str b64decode pil_png shape_index shape_data image_dir
       slide_index ignore_images).
Proof.
  intros w fragment w'. unfold process_shape_data, picture_warning, bind.
  destruct (effect_free_common_style shape_data) as [o Ho]. rewrite Ho.
  destruct o as [style|e]; [|discriminate].
  destruct (decide (shape_type shape_data = Some PICTURE)) as [Hpic|Hpic].
  - destruct ignore_images.
    + unfold ret. intros [= _ <-]. now rewrite app_nil_r.
    + unfold save_image, bind, lift, try_except, fail_writing, write_file, raise, logging, ret.
      destruct (image shape_data) as [b64|]; [|discriminate].
      destruct (b64decode b64) as [image_bytes|e]; [|discriminate].
      destruct (pil_png image_bytes _) as [png|e [part|]].
      * intros [= _ <-]. cbn. now rewrite app_nil_r.
      * cbn [bind]. destruct (is_OSError e); [|discriminate].
        intros [= _ <-]. reflexivity.
      * destruct (is_OSError e); [|discriminate].
        intros [= _ <-]. reflexivity.
  - destruct (has_text_frame shape_data).
    + destruct (text_frame shape_data); [|discriminate].
      unfold ret. intros [= _ <-]. now rewrite app_nil_r.
    + unfold ret. intros [= _ <-]. now rewrite app_nil_r.
Qed.

(** A shape whose rendering raises has logged nothing. *)
Lemma process_shape_data_raise_log (shape_index : nat) (shape_data : ShapeData)
    (image_dir : string) (slide_index : nat) (ignore_images : bool) (w w' : world) (e : exn) :
  process_shape_data float_str b64decode pil_png shape_index shape_data image_dir
    slide_index ignore_images w = (Raise e, w') ->
  log w' = log w.
Proof.
  unfold process_shape_data, bind.
  destruct (effect_free_common_style shape_data) as [o Ho]. rewrite Ho.
  destruct o as [style|e0]; [|now intros [= _ <-]].
  destruct (decide (shape_type shape_data = Some PICTURE)) as [Hpic|Hpic].
  - destruct ignore_images; [discriminate|].
    unfold save_image, bind, lift, try_except, fail_writing, write_file, raise, logging, ret.
    destruct (image shape_data) as [b64|]; [|now intros [= _ <-]].
    destruct (b64decode b64) as [image_bytes|e0]; [|now intros [= _ <-]].
    destruct (pil_png image_bytes _) as [png|e0 [part|]].
    + discriminate.
    + cbn [bind]. destruct (is_OSError e0); [discriminate|]. now intros [= _ <-].
    + destruct (is_OSError e0); [discriminate|]. now intros [= _ <-].
  - destruct (has_text_frame shape_data); [|discriminate].
    destruct (text_frame shape_data); [discriminate|]. now intros [= _ <-].
Qed.

Lemma logs_always_process_shapes (slide_data : list ShapeData) (image_dir : string)
    (slide_index : nat) (ignore_images : bool) :
  forall shape_index,
    logs_always
      (shapes_records float_str b64decode pil_png image_dir slide_index ignore_images
         shape_index slide_data)
      (process_shapes float_str b64decode pil_png shape_index slide_data image_dir
         slide_index ignore_images).
Proof.
  induction slide_data as [|shape_data rest IH]; intros shape_index w;
    cbn [process_shapes shapes_records].
  { cbn. now rewrite app_nil_r. }
  destruct (steady_process_shape_data float_str b64decode pil_png shape_index shape_data
              image_dir slide_index ignore_images) as [o Ho].
  rewrite (Ho (World ∅ [])). unfold bind at 1.
  pose proof (Ho w) as Hw.
  destruct (process_shape_data float_str b64decode pil_png shape_index shape_data image_dir
              slide_index ignore_images w) as [o' w1] eqn:Hp.
  cbn [fst] in Hw. subst o'. destruct o as [fragment|e].
  - pose proof (logs_exactly_process_shape_data shape_index shape_data image_dir slide_index
                  ignore_images w fragment w1 Hp) as Hl.
    unfold bind. specialize (IH (S shape_index) w1).
    destruct (process_shapes float_str b64decode pil_png (S shape_index) rest image_dir
                slide_index ignore_images w1) as [[fragments|e] w2];
      unfold ret; cbn [snd] in *; rewrite IH, Hl; now rewrite app_assoc.
  - cbn [snd]. rewrite (process_shape_data_raise_log _ _ _ _ _ _ _ _ Hp).
    now rewrite app_nil_r.
Qed.

Lemma logs_always_slide_task (ignore_images : bool) (i : nat)
    (a : list ShapeData * string * nat) :
  logs_always (task_records float_str b64decode pil_png ignore_images (i, a))
    (slide_task float_str b64decode pil_png ignore_images a).
Proof.
  destruct a as [[slide_data image_dir] slide_index]. cbn [slide_task task_records].
  intros w. unfold process_slide, bind.
  pose proof (logs_always_process_shapes slide_data image_dir slide_index ignore_images 0 w)
    as Hl.
  destruct (process_shapes float_str b64decode pil_png 0 slide_data image_dir slide_index
              ignore_images w) as [[fragments|e] w1]; exact Hl.
Qed.

(** When the slide is rendered no shape ends the task, and the records of
    the task are the warnings of its pictures. *)
Lemma shapes_records_rendered (slide_data : list ShapeData) (image_dir : string)
    (slide_index : nat) (ignore_images : bool) :
  forall (shape_index : nat) (w : world) (fragments : list string),
    fst (process_shapes float_str b64decode pil_png shape_index slide_data image_dir
           slide_index ignore_images w) = Ret fragments ->
    shapes_records float_str b64decode pil_png image_dir slide_index ignore_images
      shape_index slide_data =
    shapes_warnings b64decode pil_png image_dir slide_index ignore_images shape_index
      slide_data.
Proof.
  induction slide_data as [|shape_data rest IH]; intros shape_index w fragments;
    cbn [process_shapes shapes_records shapes_warnings]; [reflexivity|].
  destruct (steady_process_shape_data float_str b64decode pil_png shape_index shape_data
              image_dir slide_index ignore_images) as [o Ho].
  rewrite (Ho (World ∅ [])). unfold bind at 1.
  pose proof (Ho w) as Hw.
  destruct (process_shape_data float_str b64decode pil_png shape_index shape_data image_dir
              slide_index ignore_images w) as [o' w1].
  cbn [fst] in Hw. subst o'. destruct o as [fragment|e]; [|discriminate].
  unfold bind.
  destruct (process_shapes float_str b64decode pil_png (S shape_index) rest image_dir
              slide_index ignore_images w1) as [[fs|e] w2] eqn:Hrest; [|discriminate].
  intros _. f_equal. apply (IH (S shape_index) w1 fs). now rewrite Hrest.
Qed.

Lemma task_records_rendered (ignore_images : bool) (i : nat) (slide_data : list ShapeData)
    (image_dir : string) (slide_index : nat) (w : world) (c : string) :
  fst (process_slide float_str b64decode pil_png slide_data image_dir slide_index
         ignore_images w) = Ret c ->
  task_records float_str b64decode pil_png ignore_images
    (i, (slide_data, image_dir, slide_index)) =
  task_warnings b64decode pil_png ignore_images (i, (slide_data, image_dir, slide_index)).
Proof.
  cbn [task_records task_warnings]. unfold process_slide, bind.
  destruct (process_shapes float_str b64decode pil_png 0 slide_data image_dir slide_index
              ignore_images w) as [[fragments|e] w1] eqn:Hp; [|discriminate].
  intros _. apply (shapes_records_rendered slide_data image_dir slide_index ignore_images
                     0 w fragments). now rewrite Hp.
Qed.

End ExactRender.

Section ExactPool.

Context {A B : Type}.
Variable f : A -> M B.
Variable L : nat * A -> list (log_level * string).

(** The pool has logged what its tasks log, task by task in the order in
    which they completed. *)
Lemma run_in_order_log (order : list (nat * A)) :
  (forall i a, (i, a) ∈ order -> logs_always (L (i, a)) (f a)) ->
  forall (st : pool_state) (w : world),
    log (snd (run_in_order f order st w)) = (log w ++ flat_map L order)%list.
Proof.
  induction order as [|[i a] order IH]; intros Hl st w; cbn [run_in_order flat_map].
  - now rewrite app_nil_r.
  - pose proof (Hl i a ltac:(apply list_elem_of_here) w) as Hlog.
    destruct (f a w) as [o w1]. cbn [snd] in Hlog.
    rewrite IH.
    + rewrite Hlog. now rewrite app_assoc.
    + intros i' a' Ht. apply Hl. now apply list_elem_of_further.
Qed.

Lemma starmap_log (tasks : list A) (sched : nat -> nat) (w : world) :
  (forall i a, tasks !! i = Some a -> logs_always (L (i, a)) (f a)) ->
  log (snd (starmap f tasks sched w)) =
    (log w ++ flat_map L (completion_order sched 0 (length tasks) (imap pair tasks)))%list.
Proof.
  intros Hl. unfold starmap, bind. rewrite pool_run_in_order.
  set (order := completion_order sched 0 (length tasks) (imap pair tasks)).
  assert (Hin : forall i a, (i, a) ∈ order -> tasks !! i = Some a).
  { intros i a Ht. apply elem_of_imap_pair.
    rewrite <- (completion_order_perm sched (length tasks) 0 (imap pair tasks));
      [exact Ht | apply length_imap]. }
  pose proof (run_in_order_log order (fun i a Ht => Hl i a (Hin i a Ht))
                (PoolState (replicate (length tasks) None) None) w) as Hlog.
  destruct (run_in_order f order _ w) as [st w1]. cbn [snd] in Hlog.
  destruct (failure st); exact Hlog.
Qed.

End ExactPool.

Lemma flat_map_agree {A B} (f g : A -> list B) (l : list A) :
  Forall (fun a => f a = g a) l -> flat_map f l = flat_map g l.
Proof. induction 1 as [|a l Ha _ IH]; cbn; [reflexivity | now rewrite Ha, IH]. Qed.


